(** * ModOpt, [modopt/signal/wavelet.py]: filter convolution and filter trimming

    A shallow embedding of [_trim_filter], [filter_convolve] and
    [filter_convolve_stack], over a small model of the NumPy arrays they
    manipulate, and of [execute], [call_mr_transform] and [get_mr_filters],
    over a model of the files and processes they touch.

    Samples are modelled by integers with exact arithmetic: every statement
    below is about the values and shapes the functions compute, not about
    floating-point rounding. *)

From Stdlib Require Import List ZArith Lia Bool Arith PeanoNat.
From Stdlib Require Ascii String.
Import ListNotations.
Import Ascii.AsciiSyntax String.StringSyntax.
Delimit Scope char_scope with char.
Delimit Scope string_scope with string.

Set Implicit Arguments.

(** ** Exceptions

    The Python exceptions that can leave the functions below, together with
    the two failure kinds of the specification's taxonomy. *)

Inductive error : Type :=
| TypeError           (* iteration over a 0-d array *)
| ValueError          (* zero-size reduction, inhomogeneous np.array *)
| IndexError          (* index out of bounds *)
| InvalidInputError   (* wrong rank handed to a 2-D helper *)
| ShapeMismatchError. (* specification's taxonomy; see [never_shape_mismatch] *)

Inductive result (A : Type) : Type :=
| Ok (a : A)
| Err (e : error).

Arguments Ok {A} a.
Arguments Err {A} e.

Definition bind {A B : Type} (r : result A) (k : A -> result B) : result B :=
  match r with
  | Ok a => k a
  | Err e => Err e
  end.

Declare Scope result_scope.
Delimit Scope result_scope with result.
Notation "x <- r ;; k" := (bind r (fun x => k))
  (at level 61, r at next level, right associativity) : result_scope.
Open Scope result_scope.

(** A list comprehension [[f(x) for x in l]]: elements are evaluated in
    order and the first exception aborts the comprehension. *)
Fixpoint mapM {A B : Type} (f : A -> result B) (l : list A) : result (list B) :=
  match l with
  | [] => Ok []
  | x :: xs => y <- f x ;; ys <- mapM f xs ;; Ok (y :: ys)
  end.

(** ** Arrays

    A [numpy.ndarray]: its shape and its elements in row-major (C) order. *)

Record ndarray : Type := mk_ndarray { shape : list nat; flat : list Z }.

Definition size_of (sh : list nat) : nat := fold_right Nat.mul 1 sh.

Definition ndim (a : ndarray) : nat := length (shape a).

(** NumPy arrays are rectangular: the buffer holds exactly one element per
    index. *)
Definition well_formed (a : ndarray) : Prop :=
  length (flat a) = size_of (shape a).

Definition shape_eqb (s t : list nat) : bool :=
  if list_eq_dec Nat.eq_dec s t then true else false.

Definition scalar (z : Z) : ndarray := mk_ndarray [] [z].

Definition zeros (sh : list nat) : ndarray :=
  mk_ndarray sh (repeat 0%Z (size_of sh)).

(** The [k]-th block of [s] consecutive elements. *)
Definition chunk (s k : nat) (l : list Z) : list Z :=
  firstn s (skipn (k * s) l).

(** [a[k]] for an array of rank at least one. *)
Definition subarray (sh : list nat) (buf : list Z) (k : nat) : ndarray :=
  mk_ndarray sh (chunk (size_of sh) k buf).

(** [for x in a]: the sub-arrays along the leading axis, in index order. *)
Definition iterate (a : ndarray) : result (list ndarray) :=
  match shape a with
  | [] => Err TypeError
  | n :: sh => Ok (map (subarray sh (flat a)) (seq 0 n))
  end.

(** [a[k]] with a non-negative integer index. *)
Definition getitem (a : ndarray) (k : nat) : result ndarray :=
  match shape a with
  | [] => Err IndexError
  | n :: sh => if k <? n then Ok (subarray sh (flat a) k) else Err IndexError
  end.

(** [np.array(l)] for a list of arrays: the arrays are stacked along a new
    leading axis; the empty list gives the empty 1-D array of shape (0,). *)
Definition np_array (l : list ndarray) : result ndarray :=
  match l with
  | [] => Ok (mk_ndarray [0] [])
  | x :: _ =>
      if forallb (fun y => shape_eqb (shape y) (shape x)) l
      then Ok (mk_ndarray (length l :: shape x) (concat (map flat l)))
      else Err ValueError
  end.

(** Element-wise addition of two buffers. *)
Definition vadd (u v : list Z) : list Z :=
  map (fun p => (fst p + snd p)%Z) (combine u v).

(** [np.add.reduce(a, axis=0)]: the slices along the leading axis are added
    in index order, starting from the first; an empty axis gives the
    additive identity, a 0-d array is returned as it is. *)
Definition add_reduce0 (a : ndarray) : result ndarray :=
  match shape a with
  | [] => Ok a
  | _ :: sh =>
      xs <- iterate a ;;
      match xs with
      | [] => Ok (zeros sh)
      | x :: rest => Ok (mk_ndarray sh (fold_left vadd (map flat rest) (flat x)))
      end
  end.

(** [np.sum(l, axis=0)] for a list of arrays. *)
Definition np_sum_axis0 (l : list ndarray) : result ndarray :=
  a <- np_array l ;; add_reduce0 a.

(** Entry [(i, j)] of a 2-D array. *)
Definition get2 (a : ndarray) (i j : nat) : Z :=
  match shape a with
  | [_; W] => nth (i * W + j) (flat a) 0%Z
  | _ => 0%Z
  end.

(** Build a 2-D array from its entries. *)
Definition tabulate2 (H W : nat) (f : nat -> nat -> Z) : ndarray :=
  mk_ndarray [H; W]
    (flat_map (fun i => map (fun j => f i j) (seq 0 W)) (seq 0 H)).

Definition zsum (l : list Z) : Z := fold_right Z.add 0%Z l.

(** ** Helpers imported by the module

    [convolve] ([modopt.math.convolve]) and [rotate_stack]
    ([modopt.base.np_adjust]) are imported by [wavelet.py]; their
    definitions follow the specification. *)

Inductive method : Type := astropy | scipy.

(** Entry [(i, j)] of the "same"-size convolution: entry
    [(i + (Fh-1)/2, j + (Fw-1)/2)] of the full linear convolution, data
    outside the image counting as zero. *)
Definition conv_entry (data kernel : ndarray) (H W Fh Fw : nat) (i j : nat) : Z :=
  let ch := (Fh - 1) / 2 in
  let cw := (Fw - 1) / 2 in
  zsum (flat_map (fun p => map (fun q =>
      if (p <=? i + ch) && (i + ch - p <? H) && (q <=? j + cw) && (j + cw - q <? W)
      then (get2 kernel p q * get2 data (i + ch - p) (j + cw - q))%Z
      else 0%Z) (seq 0 Fw)) (seq 0 Fh)).

(** Modelled from the spec: entry [(u, v)] of the full linear convolution of
    [data] and [kernel] (glossary, "same" convolution), the array of shape
    (H + Fh - 1, W + Fw - 1) that the "same" mode crops: the sum of the
    products [data[a, b] * kernel[u - a, v - b]]. *)
Definition full_convolution_entry (data kernel : ndarray) (H W Fh Fw : nat)
    (u v : nat) : Z :=
  zsum (flat_map (fun a => map (fun b =>
      if (a <=? u) && (u - a <? Fh) && (b <=? v) && (v - b <? Fw)
      then (get2 data a b * get2 kernel (u - a) (v - b))%Z
      else 0%Z) (seq 0 W)) (seq 0 H)).

(** Modelled from the spec: [convolve(data, kernel, method)] of
    [modopt.math.convolve], imported by [wavelet.py]. Section 4.1:
    both backends give the linear convolution cropped and centred to the
    shape of [data], with zero padding at the boundaries ("same" mode);
    section 7: a wrong rank is an invalid-input error. The two backends are
    interchangeable, so [method] does not change the value. *)
Definition convolve (data kernel : ndarray) (m : method) : result ndarray :=
  match shape data, shape kernel with
  | [H; W], [Fh; Fw] => Ok (tabulate2 H W (conv_entry data kernel H W Fh Fw))
  | _, _ => Err InvalidInputError
  end.

(** Modelled from the spec: [rotate] of [modopt.base.np_adjust], used by
    [rotate_stack]. Glossary: the 180 degree point reflection of a 2-D
    kernel, a reversal along both axes. *)
Definition rotate (x : ndarray) : result ndarray :=
  match shape x with
  | [H; W] => Ok (tabulate2 H W (fun i j => get2 x (H - 1 - i) (W - 1 - j)))
  | _ => Err InvalidInputError
  end.

(** Modelled from the spec: [rotate_stack] of [modopt.base.np_adjust],
    imported by [wavelet.py]. Section 4.1: a rotated copy of each filter of
    the bank, in filter order. *)
Definition rotate_stack (filters : ndarray) : result ndarray :=
  fs <- iterate filters ;;
  rs <- mapM rotate fs ;;
  np_array rs.

(** ** [filter_convolve] *)

Definition filter_convolve (data filters : ndarray) (filter_rot : bool)
    (m : method) : result ndarray :=
  if filter_rot then
    rotated <- rotate_stack filters ;;
    coefs <- iterate data ;;
    fs <- iterate rotated ;;
    convs <- mapM (fun cf => convolve (fst cf) (snd cf) m) (combine coefs fs) ;;
    np_sum_axis0 convs
  else
    fs <- iterate filters ;;
    convs <- mapM (fun f => convolve data f m) fs ;;
    np_array convs.

(** ** [filter_convolve_stack] *)

Definition filter_convolve_stack (data filters : ndarray) (filter_rot : bool)
    (m : method) : result ndarray :=
  xs <- iterate data ;;
  rs <- mapM (fun x => filter_convolve x filters filter_rot m) xs ;;
  np_array rs.

(** ** The order of the summands

    In exact arithmetic the order in which the slices reach [np.sum] cannot
    be seen, and how [np.sum] totals a sequence of floating-point numbers
    (one after the other, or in pairs) is NumPy's affair. Below are
    [add_reduce0], [np_sum_axis0] and [filter_convolve] once more, with the
    total of a sequence of elements as a parameter of which nothing is
    assumed: entry [p] of the reduced array is the total of the entries [p]
    of the slices, taken in index order. With [zsum] they compute what the
    definitions above compute. *)

Definition add_reduce0_with (total : list Z -> Z) (a : ndarray)
    : result ndarray :=
  match shape a with
  | [] => Ok a
  | _ :: sh =>
      xs <- iterate a ;;
      Ok (mk_ndarray sh
            (map (fun p => total (map (fun x => nth p (flat x) 0%Z) xs))
                 (seq 0 (size_of sh))))
  end.

Definition np_sum_axis0_with (total : list Z -> Z) (l : list ndarray)
    : result ndarray :=
  a <- np_array l ;; add_reduce0_with total a.

Definition filter_convolve_with (total : list Z -> Z)
    (data filters : ndarray) (filter_rot : bool) (m : method)
    : result ndarray :=
  if filter_rot then
    rotated <- rotate_stack filters ;;
    coefs <- iterate data ;;
    fs <- iterate rotated ;;
    convs <- mapM (fun cf => convolve (fst cf) (snd cf) m) (combine coefs fs) ;;
    np_sum_axis0_with total convs
  else
    fs <- iterate filters ;;
    convs <- mapM (fun f => convolve data f m) fs ;;
    np_array convs.

(** [np.arange(n).reshape(sh)] as integers. *)
Definition arange (sh : list nat) : ndarray :=
  mk_ndarray sh (map Z.of_nat (seq 0 (size_of sh))).

Definition x33 : ndarray := arange [3; 3].
Definition y433 : ndarray := arange [4; 3; 3].

(** The arrays printed by the two examples of the docstring of
    [filter_convolve]: [filter_convolve(x, y)] and
    [filter_convolve(y, y, filter_rot=True)]. *)
Definition docstring_example_A : ndarray :=
  mk_ndarray [4; 3; 3]
    [174; 165; 174; 93; 84; 93; 174; 165; 174;
     498; 489; 498; 417; 408; 417; 498; 489; 498;
     822; 813; 822; 741; 732; 741; 822; 813; 822;
     1146; 1137; 1146; 1065; 1056; 1065; 1146; 1137; 1146]%Z.

Definition docstring_example_B : ndarray :=
  mk_ndarray [3; 3]
    [14550; 14586; 14550; 14874; 14910; 14874; 14550; 14586; 14550]%Z.

(** ** [_trim_filter] *)

(** The multi-index of the flat position [p] in an array of shape [sh]. *)
Fixpoint unravel (sh : list nat) (p : nat) : list nat :=
  match sh with
  | [] => []
  | _ :: sh' => p / size_of sh' :: unravel sh' (p mod size_of sh')
  end.

(** Flat positions of the entries that differ from zero, in increasing
    order. *)
Definition nonzero_positions (buf : list Z) : list nat :=
  filter (fun p => negb (nth p buf 0 =? 0)%Z) (seq 0 (length buf)).

(** [np.where(a != 0)]: one 1-D index array per axis of [a]. *)
Definition np_where_nonzero (a : ndarray) : list ndarray :=
  let ps := nonzero_positions (flat a) in
  map (fun ax =>
         mk_ndarray [length ps]
           (map (fun p => Z.of_nat (nth ax (unravel (shape a) p) 0)) ps))
      (seq 0 (ndim a)).

Definition zmin_list (l : list Z) : Z :=
  match l with [] => 0%Z | x :: xs => fold_left Z.min xs x end.

Definition zmax_list (l : list Z) : Z :=
  match l with [] => 0%Z | x :: xs => fold_left Z.max xs x end.

(** A reduction without identity ([np.min], [np.max]) along the last axis:
    it raises on an axis of length zero. *)
Definition reduce_last (f : list Z -> Z) (a : ndarray) : result ndarray :=
  match rev (shape a) with
  | [] => Ok a
  | n :: rsh =>
      if n =? 0 then Err ValueError
      else Ok (mk_ndarray (rev rsh)
                 (map (fun k => f (chunk n k (flat a)))
                      (seq 0 (size_of (rev rsh)))))
  end.

Definition np_min_last : ndarray -> result ndarray := reduce_last zmin_list.
Definition np_max_last : ndarray -> result ndarray := reduce_last zmax_list.

(** [v[k]] read as an integer, for a 1-D array [v]. *)
Definition getitem_int (v : ndarray) (k : nat) : result Z :=
  x <- getitem v k ;; Ok (hd 0%Z (flat x)).

(** Start and stop of the slice [lo:hi] on an axis of length [n]. *)
Definition slice_bounds (n : nat) (lo hi : Z) : nat * nat :=
  let clip z :=
    if (z <? 0)%Z then Z.max 0 (z + Z.of_nat n) else Z.min z (Z.of_nat n) in
  (Z.to_nat (clip lo), Z.to_nat (clip hi)).

(** [a[lo0:hi0, lo1:hi1]]. *)
Definition getitem_slice2 (a : ndarray) (lo0 hi0 lo1 hi1 : Z) : result ndarray :=
  match shape a with
  | H :: W :: rest =>
      let (r0, r1) := slice_bounds H lo0 hi0 in
      let (c0, c1) := slice_bounds W lo1 hi1 in
      Ok (mk_ndarray ((r1 - r0) :: (c1 - c0) :: rest)
            (flat_map (fun i =>
               flat_map (fun j => chunk (size_of rest) (i * W + j) (flat a))
                        (seq c0 (c1 - c0)))
               (seq r0 (r1 - r0))))
  | _ => Err IndexError
  end.

Definition _trim_filter (filter_array : ndarray) : result ndarray :=
  non_zero_indices <- np_array (np_where_nonzero filter_array) ;;
  min_idx <- np_min_last non_zero_indices ;;
  max_idx <- np_max_last non_zero_indices ;;
  min0 <- getitem_int min_idx 0 ;;
  max0 <- getitem_int max_idx 0 ;;
  min1 <- getitem_int min_idx 1 ;;
  max1 <- getitem_int max_idx 1 ;;
  getitem_slice2 filter_array min0 (max0 + 1) min1 (max1 + 1).

(** The inner product of two arrays of the same shape, [np.sum(a * b)]. *)
Definition dot (a b : ndarray) : Z :=
  zsum (map (fun p => (fst p * snd p)%Z) (combine (flat a) (flat b))).

(** ** Text

    Python strings are modelled by strings of 8-bit characters: the strings
    whose code points are below 256. *)

(** [c.isspace()] for a code point below 256, the white space of
    [str.split()]: tab to carriage return (9..13), the four separators
    28..31, the space (32), the next-line control (U+0085) and the
    no-break space (U+00A0). *)
Definition is_space (c : Ascii.ascii) : bool :=
  let n := Ascii.nat_of_ascii c in
  ((9 <=? n) && (n <=? 13)) || ((28 <=? n) && (n <=? 32))
  || (n =? 133) || (n =? 160).

Definition flush (cur : String.string) : list String.string :=
  match cur with
  | String.EmptyString => []
  | _ => [cur]
  end.

(** [s.split()]: the maximal runs of characters that are not whitespace;
    [cur] is the run being read. *)
Fixpoint split_from (cur s : String.string) : list String.string :=
  match s with
  | String.EmptyString => flush cur
  | String.String c s' =>
      if is_space c then flush cur ++ split_from String.EmptyString s'
      else split_from (String.append cur (String.String c String.EmptyString)) s'
  end.

Definition split (s : String.string) : list String.string :=
  split_from String.EmptyString s.

(** [' '.join(l)]. *)
Fixpoint join (l : list String.string) : String.string :=
  match l with
  | [] => String.EmptyString
  | [t] => t
  | t :: ts => String.append t (String.String " "%char (join ts))
  end.

(** [word in s]. *)
Fixpoint contains (word s : String.string) : bool :=
  String.prefix word s ||
  match s with
  | String.EmptyString => false
  | String.String _ s' => contains word s'
  end.

(** [s.rstrip('\n')]. *)
Fixpoint rstrip_newline (s : String.string) : String.string :=
  match s with
  | String.EmptyString => String.EmptyString
  | String.String c s' =>
      match rstrip_newline s' with
      | String.EmptyString =>
          if Ascii.eqb c "010"%char then String.EmptyString
          else String.String c String.EmptyString
      | t => String.String c t
      end
  end.

Definition no_space (s : String.string) : bool :=
  forallb (fun c => negb (is_space c)) (String.list_ascii_of_string s).

(** A token: not empty and without whitespace. *)
Definition token (t : String.string) : Prop :=
  t <> String.EmptyString /\ no_space t = true.

(** ** The world outside: files, clock and processes *)

Inductive exception : Type :=
| Builtin (e : error)
| ImportError
| RuntimeError (message : String.string)
| OSError
| FileNotFoundError
| Foreign (name : String.string).

Inductive outcome (A : Type) : Type :=
| Returned (a : A)
| Raised (x : exception).

Arguments Returned {A} a.
Arguments Raised {A} x.

(** A file is a FITS file holding an array, or anything else. *)
Inductive file : Type :=
| FitsFile (hdu : ndarray)
| PlainFile.

Definition filesystem : Type := String.string -> option file.

(** The files, the number of unique strings drawn so far, and the argument
    vectors that [subprocess.Popen] was given and took, oldest first.
    Directories are not part of the model: whether a file can be created
    under a name is asked of [fits_writeto]'s first argument. *)
Record world : Type := mk_world {
  files : filesystem;
  draws : nat;
  spawned : list (list String.string)
}.

Definition io (A : Type) : Type := world -> outcome A * world.

Definition ret {A : Type} (a : A) : io A := fun w => (Returned a, w).

Definition raise {A : Type} (x : exception) : io A := fun w => (Raised x, w).

Definition io_bind {A B : Type} (c : io A) (k : A -> io B) : io B :=
  fun w =>
    match c w with
    | (Returned a, w') => k a w'
    | (Raised x, w') => (Raised x, w')
    end.

Declare Scope io_scope.
Delimit Scope io_scope with io.
Notation "x <- c ;; k" := (io_bind c (fun x => k))
  (at level 61, c at next level, right associativity) : io_scope.

(** A computation on arrays run inside [io]. *)
Definition lift {A : Type} (r : result A) : io A :=
  match r with
  | Ok a => ret a
  | Err e => raise (Builtin e)
  end.

Definition write_file (name : String.string) (f : file) (fs : filesystem)
    : filesystem :=
  fun n => if String.eqb n name then Some f else fs n.

Definition delete_file (name : String.string) (fs : filesystem) : filesystem :=
  fun n => if String.eqb n name then None else fs n.

Definition set_files (w : world) (fs : filesystem) : world :=
  mk_world fs (draws w) (spawned w).

(** [fits.writeto(name, data)]: refuses to overwrite; under a free name the
    file is created, unless the operating system refuses (the directory is
    missing or cannot be written): [refusal] gives the exception then. *)
Definition fits_writeto
    (refusal : String.string -> filesystem -> option exception)
    (name : String.string) (data : ndarray) : io unit :=
  fun w =>
    match files w name with
    | Some _ => (Raised OSError, w)
    | None =>
        match refusal name (files w) with
        | Some x => (Raised x, w)
        | None =>
            (Returned tt,
             set_files w (write_file name (FitsFile data) (files w)))
        end
    end.

(** [fits.getdata(name)]. *)
Definition fits_getdata (name : String.string) : io ndarray :=
  fun w =>
    match files w name with
    | None => (Raised FileNotFoundError, w)
    | Some PlainFile => (Raised OSError, w)
    | Some (FitsFile a) => (Returned a, w)
    end.

(** [os.remove(name)]. *)
Definition remove (name : String.string) : io unit :=
  fun w =>
    match files w name with
    | None => (Raised FileNotFoundError, w)
    | Some _ => (Returned tt, set_files w (delete_file name (files w)))
    end.

(** What a Python argument can be, for the [isinstance] tests. *)
Inductive pyobject : Type :=
| PyArray (a : ndarray)
| PyStr (s : String.string)
| PyOther.

(** The documented values of [opt]: a string or a list of strings. *)
Inductive options : Type :=
| OptStr (s : String.string)
| OptList (l : list String.string).

(** ** Building blocks of [get_mr_filters] *)

(** [np.zeros(shape)] for a shape given by integers: a negative dimension
    is refused. *)
Definition np_zeros (sh : list Z) : result ndarray :=
  if forallb (fun n => (0 <=? n)%Z) sh
  then Ok (zeros (map Z.to_nat sh))
  else Err ValueError.

(** Flat position of a multi-index, given with the length of each axis;
    a negative index counts from the end of its axis. *)
Fixpoint ravel (dims : list (nat * Z)) : result nat :=
  match dims with
  | [] => Ok 0
  | (n, i) :: rest =>
      let i' := if (i <? 0)%Z then (i + Z.of_nat n)%Z else i in
      if (0 <=? i')%Z && (i' <? Z.of_nat n)%Z
      then r <- ravel rest ;; Ok (Z.to_nat i' * size_of (map fst rest) + r)
      else Err IndexError
  end.

(** [a[tuple(zip(index))] = v]: one integer per indexed axis; the block
    selected by the index is filled with [v]. *)
Definition setitem_at (a : ndarray) (index : list Z) (v : Z) : result ndarray :=
  if ndim a <? length index then Err IndexError
  else
    p <- ravel (combine (firstn (length index) (shape a)) index) ;;
    let block := size_of (skipn (length index) (shape a)) in
    Ok (mk_ndarray (shape a)
          (firstn (p * block) (flat a) ++ repeat v block
           ++ skipn ((p + 1) * block) (flat a))).

(** [a[lo:hi]]: a slice of the leading axis. *)
Definition getitem_slice1 (a : ndarray) (lo hi : Z) : result ndarray :=
  match shape a with
  | n :: sh =>
      let (r0, r1) := slice_bounds n lo hi in
      Ok (mk_ndarray ((r1 - r0) :: sh)
            (firstn ((r1 - r0) * size_of sh)
                    (skipn (r0 * size_of sh) (flat a))))
  | [] => Err IndexError
  end.

(** The first lines of [get_mr_filters]: the shape is made odd and the
    fake data is zero except for a one at its centre. *)
Definition fake_data_of (data_shape : list Z) : result ndarray :=
  let data_shape := map (fun n => (n + (n mod 2 - 1))%Z) data_shape in
  fake_data <- np_zeros data_shape ;;
  setitem_at fake_data (map (fun n => (n / 2)%Z) data_shape) 1.

(** The names of the two temporary files of [call_mr_transform]:
    [path + 'mr_temp_' + unique_string + ext]. *)
Definition temp_file (path unique ext : String.string) : String.string :=
  String.append (String.append path (String.append "mr_temp_"%string unique))
                ext.

(** [any(word in stdout for word in ('bad', 'Error'))]. *)
Definition reports_error (stdout : String.string) : bool :=
  existsb (fun word => contains word stdout) ["bad"%string; "Error"%string].

(** The message of the [RuntimeError]: the executable, the words
    [raised following exception:] and, between double quotes, the standard
    output without its trailing newlines. *)
Definition runtime_message (executable stdout : String.string)
    : String.string :=
  String.append executable
    (String.append " raised following exception: "%string
       (String.String (Ascii.ascii_of_nat 34)
          (String.append (rstrip_newline stdout)
             (String.String (Ascii.ascii_of_nat 34) String.EmptyString)))).

Section External.

(** The module flag set by the guarded import of [astropy.io.fits]. *)
Variable import_astropy : bool.

(** [is_executable] of [modopt.interface.errors]: returns, or raises. *)
Variable is_executable : String.string -> world -> option exception.

(** The string built from [datetime.now()] and [getrandbits(128)] at the
    n-th draw. *)
Variable unique_string : nat -> String.string.

(** A child process: from its argument vector and the files, its decoded
    standard output and error (or the exception of [Popen], of
    [communicate] or of the decoding) and the files it leaves. *)
Variable process :
  list String.string -> filesystem ->
  outcome (String.string * String.string) * filesystem.

(** [fits.writeto] under a free name: created ([None]), or the exception of
    the operating system. *)
Variable writeto_error : String.string -> filesystem -> option exception.

(** [r.astype(data.dtype)], as [astype r data]: the array [r] with its
    elements converted to the element type of [data], which the arrays of
    the model do not carry. *)
Variable astype : ndarray -> ndarray -> ndarray.

(** [sp.Popen(command, ...)] and [communicate()]: an empty argument vector
    is refused with [IndexError] before anything is started. *)
Definition popen_communicate (command : list String.string)
    : io (String.string * String.string) :=
  match command with
  | [] => raise (Builtin IndexError)
  | _ :: _ =>
      fun w =>
        let (out, fs) := process command (files w) in
        (out, mk_world fs (draws w) (spawned w ++ [command]))
  end.

Definition draw_unique_string : io String.string :=
  fun w =>
    (Returned (unique_string (draws w)),
     mk_world (files w) (S (draws w)) (spawned w)).

Definition check_executable (name : String.string) : io unit :=
  fun w =>
    match is_executable name w with
    | None => (Returned tt, w)
    | Some x => (Raised x, w)
    end.

Definition execute (command_line : pyobject)
    : io (String.string * String.string) :=
  match command_line with
  | PyStr s =>
      let command := split s in
      popen_communicate command
  | _ => raise (Builtin TypeError)
  end.

Definition call_mr_transform (data : pyobject) (opt : options)
    (path : String.string) (remove_files : bool) : io ndarray :=
  if negb import_astropy then raise ImportError
  else
    match data with
    | PyArray a =>
        if negb (ndim a =? 2) then raise (Builtin ValueError)
        else
          (let executable := "mr_transform"%string in
           _ <- check_executable executable ;;
           unique <- draw_unique_string ;;
           let file_fits := temp_file path unique ".fits"%string in
           let file_mr := temp_file path unique ".mr"%string in
           _ <- fits_writeto writeto_error file_fits a ;;
           let opt := match opt with OptStr s => split s | OptList l => l end in
           let command_line :=
             join ([executable] ++ opt ++ [file_fits; file_mr]) in
           out <- execute (PyStr command_line) ;;
           let stdout := fst out in
           if reports_error stdout
           then
             _ <- remove file_fits ;;
             raise (RuntimeError (runtime_message executable stdout))
           else
             result <- fits_getdata file_mr ;;
             let result := astype result a in
             _ <- (if remove_files
                   then _ <- remove file_fits ;; remove file_mr
                   else ret tt) ;;
             ret result)%io
    | _ => raise (Builtin ValueError)
    end.

Definition get_mr_filters (data_shape : list Z) (opt : options)
    (coarse trim : bool) : io ndarray :=
  (fake_data <- lift (fake_data_of data_shape) ;;
   mr_filters <- call_mr_transform (PyArray fake_data) opt "./"%string true ;;
   mr_filters <-
     (if trim
      then lift (fs <- iterate mr_filters ;;
                 ts <- mapM _trim_filter fs ;;
                 np_array ts)%result
      else ret mr_filters) ;;
   if coarse then ret mr_filters
   else lift (getitem_slice1 mr_filters 0 (-1)))%io.

End External.

(** ** A small world for examples

    No file, no check of the executable, a fixed unique string, directories
    that can be written, data and files of one element type, and three
    child processes: one leaves a FITS file under its last argument, one
    reports an error, one does nothing. *)
Definition empty_world : world := mk_world (fun _ => None) 0 [].

Definition no_check : String.string -> world -> option exception :=
  fun _ _ => None.

Definition fixed_unique : nat -> String.string := fun _ => "u"%string.

(** Every directory is there and can be written. *)
Definition always_writable : String.string -> filesystem -> option exception :=
  fun _ _ => None.

(** The file holds elements of the type of the data: nothing to convert. *)
Definition same_dtype : ndarray -> ndarray -> ndarray := fun r _ => r.

Definition writing_process (content : ndarray)
    : list String.string -> filesystem ->
      outcome (String.string * String.string) * filesystem :=
  fun command fs =>
    (Returned (String.EmptyString, String.EmptyString),
     write_file (last command String.EmptyString) (FitsFile content) fs).


Definition silent_process
    : list String.string -> filesystem ->
      outcome (String.string * String.string) * filesystem :=
  fun _ fs => (Returned (String.EmptyString, String.EmptyString), fs).

(** Two 3 x 3 filters, each with a single coefficient and zeros around it. *)
Definition padded_filters : ndarray :=
  mk_ndarray [2; 3; 3] [0; 0; 0;  0; 5; 0;  0; 0; 0;
                        0; 0; 0;  0; 0; 0;  0; 0; 7]%Z.

(** * Properties *)

(** ** The error monad *)

Lemma bind_ok (A B : Type) (r : result A) (k : A -> result B) (b : B) :
  bind r k = Ok b -> exists a, r = Ok a /\ k a = Ok b.
Proof.
  destruct r as [a|e]; simpl; intros E; [exists a; auto | discriminate].
Qed.

Ltac inv_bind H :=
  let a := fresh "v" in
  let E := fresh "E" in
  apply bind_ok in H; destruct H as (a & E & H).

Tactic Notation "bind_inv" hyp(H) "as" ident(x) ident(E) :=
  apply bind_ok in H; destruct H as (x & E & H).

Lemma mapM_Forall2 (A B : Type) (f : A -> result B) (l : list A) (ys : list B) :
  mapM f l = Ok ys <-> Forall2 (fun x y => f x = Ok y) l ys.
Proof.
  revert ys; induction l as [|x xs IH]; intros ys; simpl.
  - split; intros E.
    + injection E as <-. constructor.
    + inversion E; reflexivity.
  - split; intros E.
    + inv_bind E. inv_bind E. injection E as <-.
      constructor; [assumption | now apply IH].
    + inversion E as [|x' y l' ys' Hy Hys]; subst.
      rewrite Hy; simpl. apply IH in Hys. rewrite Hys; reflexivity.
Qed.

Lemma mapM_total (A B : Type) (f : A -> result B) (g : A -> B) (l : list A) :
  (forall x, In x l -> f x = Ok (g x)) -> mapM f l = Ok (map g l).
Proof.
  induction l as [|x xs IH]; intros Hf; simpl; [reflexivity|].
  rewrite (Hf x) by (left; reflexivity); simpl.
  rewrite IH by (intros; apply Hf; right; assumption).
  reflexivity.
Qed.

Lemma mapM_first_error (A B : Type) (f : A -> result B) (x : A) (xs : list A)
    (e : error) :
  f x = Err e -> mapM f (x :: xs) = Err e.
Proof. intros E; simpl; rewrite E; reflexivity. Qed.

Lemma Forall2_nth_error_l (A B : Type) (R : A -> B -> Prop) (l : list A)
    (l' : list B) (k : nat) (x : A) :
  Forall2 R l l' -> nth_error l k = Some x ->
  exists y, nth_error l' k = Some y /\ R x y.
Proof.
  intros F; revert k; induction F as [|a b l l' Hab F IH]; intros [|k] E;
    simpl in *; try discriminate.
  - injection E as <-. exists b; auto.
  - apply IH; assumption.
Qed.

Example rotate_arange :
  rotate x33 = Ok (mk_ndarray [3; 3] [8; 7; 6; 5; 4; 3; 2; 1; 0]%Z).
Proof. reflexivity. Qed.

Example trim_filter_example :
  _trim_filter
    (mk_ndarray [4; 5]
       [0; 0; 0; 0; 0;  0; 0; 3; 0; 0;  0; 1; 0; 2; 0;  0; 0; 0; 0; 0]%Z)
  = Ok (mk_ndarray [2; 3] [0; 3; 0;  1; 0; 2]%Z).
Proof. reflexivity. Qed.

Example trim_filter_1d_index_error :
  _trim_filter (mk_ndarray [3] [0; 1; 0]%Z) = Err IndexError.
Proof. reflexivity. Qed.

(** ** Blocks of a buffer *)

Lemma chunk_concat (s : nat) (ls : list (list Z)) (k : nat) :
  Forall (fun l => length l = s) ls -> k < length ls ->
  chunk s k (concat ls) = nth k ls [].
Proof.
  unfold chunk; intros F; revert k; induction F as [|l ls Hl F IH];
    intros k Hk; simpl in *; [lia|].
  destruct k as [|k]; simpl.
  - rewrite firstn_app, Hl, Nat.sub_diag; simpl.
    rewrite app_nil_r, <- Hl. apply firstn_all.
  - rewrite skipn_app, Hl.
    rewrite skipn_all2 by lia. simpl.
    replace (s + k * s - s) with (k * s) by lia.
    apply IH; lia.
Qed.

Lemma nth_chunk (s k j : nat) (l : list Z) (d : Z) :
  j < s -> nth j (chunk s k l) d = nth (k * s + j) l d.
Proof.
  intros Hj; unfold chunk. rewrite nth_firstn.
  apply Nat.ltb_lt in Hj; rewrite Hj. apply nth_skipn.
Qed.

Lemma length_chunk (s k : nat) (l : list Z) :
  (k + 1) * s <= length l -> length (chunk s k l) = s.
Proof.
  intros Hk; unfold chunk. rewrite length_firstn, length_skipn. lia.
Qed.

Lemma length_concat_fixed (s : nat) (ls : list (list Z)) :
  Forall (fun l => length l = s) ls -> length (concat ls) = length ls * s.
Proof.
  induction 1 as [|l ls Hl F IH]; simpl; [reflexivity|].
  rewrite length_app, IH, Hl; reflexivity.
Qed.

(** ** Tabulated 2-D arrays *)

Lemma size_of_2 (H W : nat) : size_of [H; W] = H * W.
Proof. unfold size_of; simpl; lia. Qed.

Lemma tabulate2_rows (H W : nat) (f : nat -> nat -> Z) :
  Forall (fun l => length l = W)
    (map (fun i => map (fun j => f i j) (seq 0 W)) (seq 0 H)).
Proof.
  apply Forall_forall; intros l Hl. apply in_map_iff in Hl.
  destruct Hl as (i & <- & _). now rewrite length_map, length_seq.
Qed.

Lemma tabulate2_well_formed (H W : nat) (f : nat -> nat -> Z) :
  well_formed (tabulate2 H W f).
Proof.
  unfold well_formed, tabulate2; simpl flat; simpl shape.
  rewrite flat_map_concat_map, size_of_2.
  rewrite (length_concat_fixed (tabulate2_rows H W f)).
  now rewrite length_map, length_seq.
Qed.

Lemma get2_tabulate2 (H W : nat) (f : nat -> nat -> Z) (i j : nat) :
  i < H -> j < W -> get2 (tabulate2 H W f) i j = f i j.
Proof.
  intros Hi Hj; unfold get2, tabulate2; simpl shape; simpl flat.
  rewrite flat_map_concat_map, <- nth_chunk by assumption.
  rewrite (chunk_concat (tabulate2_rows H W f))
    by now rewrite length_map, length_seq.
  rewrite (nth_indep _ [] (map (fun j => f 0 j) (seq 0 W)))
    by now rewrite length_map, length_seq.
  rewrite (map_nth (fun i => map (fun j => f i j) (seq 0 W))).
  rewrite seq_nth by assumption; simpl.
  rewrite (nth_indep _ 0%Z (f i 0)) by now rewrite length_map, length_seq.
  rewrite (map_nth (fun j => f i j)), seq_nth by assumption.
  reflexivity.
Qed.

(** ** Stacking and iterating *)

Lemma shape_eqb_eq (s t : list nat) : shape_eqb s t = true <-> s = t.
Proof.
  unfold shape_eqb; destruct (list_eq_dec Nat.eq_dec s t); split; intros;
    congruence.
Qed.

Lemma ndarray_eta (a : ndarray) : a = mk_ndarray (shape a) (flat a).
Proof. destruct a; reflexivity. Qed.

Lemma np_array_same_shape (l : list ndarray) (sh : list nat) :
  l <> [] -> Forall (fun y => shape y = sh) l ->
  np_array l = Ok (mk_ndarray (length l :: sh) (concat (map flat l))).
Proof.
  intros Hne F; destruct l as [|x xs]; [congruence|].
  unfold np_array.
  assert (Hx : shape x = sh) by (inversion F; assumption).
  replace (forallb (fun y => shape_eqb (shape y) (shape x)) (x :: xs))
    with true; [rewrite Hx; reflexivity|].
  symmetry; apply forallb_forall; intros y Hy.
  apply shape_eqb_eq. rewrite Forall_forall in F. rewrite (F y Hy); auto.
Qed.

Lemma np_array_inv (l : list ndarray) (a : ndarray) :
  np_array l = Ok a ->
  (l = [] /\ a = mk_ndarray [0] []) \/
  (exists sh, l <> [] /\ Forall (fun y => shape y = sh) l /\
              a = mk_ndarray (length l :: sh) (concat (map flat l))).
Proof.
  destruct l as [|x xs]; unfold np_array.
  - intros E; injection E as <-; left; auto.
  - destruct (forallb _ _) eqn:Hall; [|discriminate].
    intros E; injection E as <-; right; exists (shape x).
    split; [discriminate|]. split; [|reflexivity].
    apply Forall_forall; intros y Hy.
    rewrite forallb_forall in Hall. now apply shape_eqb_eq, Hall.
Qed.

Lemma flat_lengths (l : list ndarray) (sh : list nat) :
  Forall well_formed l -> Forall (fun y => shape y = sh) l ->
  Forall (fun b => length b = size_of sh) (map flat l).
Proof.
  intros Hwf Hsh; apply Forall_forall; intros b Hb.
  apply in_map_iff in Hb; destruct Hb as (y & <- & Hy).
  rewrite Forall_forall in Hwf, Hsh.
  rewrite <- (Hsh y Hy). now apply Hwf.
Qed.

Lemma np_array_well_formed (l : list ndarray) (a : ndarray) :
  np_array l = Ok a -> Forall well_formed l -> well_formed a.
Proof.
  intros E Hwf; apply np_array_inv in E.
  destruct E as [(-> & ->) | (sh & Hne & Hsh & ->)]; [reflexivity|].
  unfold well_formed; simpl.
  rewrite (length_concat_fixed (flat_lengths Hwf Hsh)), length_map.
  reflexivity.
Qed.

Lemma subarray_concat (l : list ndarray) (sh : list nat) :
  Forall well_formed l -> Forall (fun y => shape y = sh) l ->
  map (subarray sh (concat (map flat l))) (seq 0 (length l)) = l.
Proof.
  intros Hwf Hsh. apply nth_error_ext. intros k.
  assert (Hlen : length (map (subarray sh (concat (map flat l)))
                             (seq 0 (length l))) = length l)
    by now rewrite length_map, length_seq.
  destruct (nth_error l k) as [x|] eqn:Ex.
  - assert (Hk : k < length l) by (apply nth_error_Some; congruence).
    rewrite nth_error_map, nth_error_seq.
    apply Nat.ltb_lt in Hk as Hk'; rewrite Hk'; simpl.
    unfold subarray.
    rewrite (chunk_concat (flat_lengths Hwf Hsh)) by now rewrite length_map.
    rewrite (nth_indep _ [] (flat x)) by now rewrite length_map.
    rewrite map_nth, (nth_error_nth _ _ _ Ex).
    rewrite Forall_forall in Hsh.
    rewrite <- (Hsh x (nth_error_In _ _ Ex)). now rewrite <- ndarray_eta.
  - apply nth_error_None. apply nth_error_None in Ex. lia.
Qed.

Lemma iterate_np_array (l : list ndarray) (a : ndarray) :
  np_array l = Ok a -> Forall well_formed l -> iterate a = Ok l.
Proof.
  intros E Hwf; apply np_array_inv in E.
  destruct E as [(-> & ->) | (sh & Hne & Hsh & ->)]; [reflexivity|].
  unfold iterate; simpl. now rewrite (subarray_concat Hwf Hsh).
Qed.

Lemma getitem_iterate (a : ndarray) (xs : list ndarray) (k : nat) :
  iterate a = Ok xs ->
  getitem a k =
  match nth_error xs k with Some x => Ok x | None => Err IndexError end.
Proof.
  unfold iterate, getitem; destruct (shape a) as [|n sh]; [discriminate|].
  intros E; injection E as <-.
  rewrite nth_error_map, nth_error_seq.
  destruct (k <? n); reflexivity.
Qed.

Lemma iterate_length (a : ndarray) (xs : list ndarray) (n : nat)
    (sh : list nat) :
  shape a = n :: sh -> iterate a = Ok xs ->
  length xs = n /\ Forall (fun x => shape x = sh) xs.
Proof.
  unfold iterate; intros ->; intros E; injection E as <-.
  rewrite length_map, length_seq; split; [reflexivity|].
  apply Forall_forall; intros x Hx; apply in_map_iff in Hx.
  destruct Hx as (k & <- & _); reflexivity.
Qed.

Lemma iterate_shape (a : ndarray) (n : nat) (sh : list nat) :
  shape a = n :: sh -> exists xs, iterate a = Ok xs.
Proof. unfold iterate; intros ->; eexists; reflexivity. Qed.

Lemma getitem_nth_error (a : ndarray) (xs : list ndarray) (k : nat)
    (x : ndarray) :
  iterate a = Ok xs -> nth_error xs k = Some x -> getitem a k = Ok x.
Proof. intros E Ek. now rewrite (getitem_iterate a k E), Ek. Qed.

Lemma nth_error_combine (A B : Type) (l : list A) (l' : list B) (k : nat)
    (x : A) (y : B) :
  nth_error l k = Some x -> nth_error l' k = Some y ->
  nth_error (combine l l') k = Some (x, y).
Proof.
  revert l' k; induction l as [|a l IH]; intros [|b l'] [|k]; simpl;
    try discriminate.
  - intros [= <-] [= <-]; reflexivity.
  - apply IH.
Qed.

Lemma nth_error_lt (A : Type) (l : list A) (k : nat) :
  k < length l -> exists x, nth_error l k = Some x.
Proof.
  intros Hk; destruct (nth_error l k) as [x|] eqn:E; [now exists x|].
  apply nth_error_None in E; lia.
Qed.

(** ** The helpers on 2-D arrays *)

Lemma convolve_2d (data kernel : ndarray) (m : method) (H W Fh Fw : nat) :
  shape data = [H; W] -> shape kernel = [Fh; Fw] ->
  convolve data kernel m
  = Ok (tabulate2 H W (conv_entry data kernel H W Fh Fw)).
Proof. unfold convolve; intros -> ->; reflexivity. Qed.

Lemma convolve_inv (data kernel r : ndarray) (m : method) :
  convolve data kernel m = Ok r ->
  exists H W Fh Fw,
    shape data = [H; W] /\ shape kernel = [Fh; Fw] /\
    r = tabulate2 H W (conv_entry data kernel H W Fh Fw).
Proof.
  unfold convolve.
  destruct (shape data) as [|H [|W [|? ?]]]; try discriminate;
    destruct (shape kernel) as [|Fh [|Fw [|? ?]]]; try discriminate.
  intros [= <-]. now exists H, W, Fh, Fw.
Qed.

Lemma convolve_well_formed (data kernel r : ndarray) (m : method) :
  convolve data kernel m = Ok r -> well_formed r /\ shape r = shape data.
Proof.
  intros E; apply convolve_inv in E.
  destruct E as (H & W & Fh & Fw & Hd & _ & ->).
  split; [apply tabulate2_well_formed | now rewrite Hd].
Qed.

Lemma convolve_rank_error (data kernel : ndarray) (m : method) :
  ndim data <> 2 \/ ndim kernel <> 2 ->
  convolve data kernel m = Err InvalidInputError.
Proof.
  unfold convolve, ndim.
  destruct (shape data) as [|H [|W [|? ?]]]; try reflexivity;
    destruct (shape kernel) as [|Fh [|Fw [|? ?]]]; try reflexivity.
  simpl; intros [X|X]; congruence.
Qed.

Lemma rotate_2d (x : ndarray) (H W : nat) :
  shape x = [H; W] ->
  rotate x = Ok (tabulate2 H W (fun i j => get2 x (H - 1 - i) (W - 1 - j))).
Proof. unfold rotate; intros ->; reflexivity. Qed.

(** ** Element-wise sums *)

Lemma length_vadd (u v : list Z) (s : nat) :
  length u = s -> length v = s -> length (vadd u v) = s.
Proof.
  intros Hu Hv; unfold vadd. rewrite length_map, length_combine; lia.
Qed.

Lemma nth_vadd (u v : list Z) (p : nat) :
  length u = length v ->
  nth p (vadd u v) 0%Z = (nth p u 0 + nth p v 0)%Z.
Proof.
  revert v p; induction u as [|a u IH]; intros [|b v] [|p]; simpl;
    try discriminate; try reflexivity.
  intros [= E]. now apply IH.
Qed.

Lemma length_fold_vadd (bs : list (list Z)) (u : list Z) (s : nat) :
  Forall (fun b => length b = s) bs -> length u = s ->
  length (fold_left vadd bs u) = s.
Proof.
  intros F; revert u; induction F as [|b bs Hb F IH]; intros u Hu; simpl;
    [assumption|].
  apply IH. now apply length_vadd.
Qed.

Lemma nth_fold_vadd (bs : list (list Z)) (u : list Z) (s p : nat) :
  Forall (fun b => length b = s) bs -> length u = s ->
  nth p (fold_left vadd bs u) 0%Z
  = (nth p u 0 + zsum (map (fun b => nth p b 0%Z) bs))%Z.
Proof.
  intros F; revert u; induction F as [|b bs Hb F IH]; intros u Hu; simpl.
  - lia.
  - rewrite IH by now apply length_vadd.
    rewrite nth_vadd by congruence. lia.
Qed.

Lemma np_sum_axis0_nil : np_sum_axis0 [] = Ok (scalar 0).
Proof. reflexivity. Qed.

Lemma np_sum_axis0_cons (x : ndarray) (rest : list ndarray) (sh : list nat) :
  Forall well_formed (x :: rest) -> Forall (fun y => shape y = sh) (x :: rest) ->
  np_sum_axis0 (x :: rest)
  = Ok (mk_ndarray sh (fold_left vadd (map flat rest) (flat x))).
Proof.
  intros Hwf Hsh; unfold np_sum_axis0.
  assert (E : np_array (x :: rest)
              = Ok (mk_ndarray (length (x :: rest) :: sh)
                               (concat (map flat (x :: rest)))))
    by (apply np_array_same_shape; [discriminate | assumption]).
  rewrite E; unfold bind, add_reduce0; cbn [shape].
  rewrite (iterate_np_array E Hwf); reflexivity.
Qed.

(** ** The two modes of [filter_convolve], step by step *)

Lemma Forall2_length_eq (A B : Type) (R : A -> B -> Prop) (l : list A)
    (l' : list B) :
  Forall2 R l l' -> length l = length l'.
Proof. induction 1; simpl; congruence. Qed.

Lemma Forall2_Forall_r (A B : Type) (R : A -> B -> Prop) (P : B -> Prop)
    (l : list A) (l' : list B) :
  Forall2 R l l' -> (forall x y, In x l -> R x y -> P y) -> Forall P l'.
Proof.
  induction 1 as [|x y l l' Hxy F IH]; intros HP; constructor.
  - apply (HP x); [left; reflexivity | assumption].
  - apply IH; intros x' y' Hin; apply HP; right; assumption.
Qed.

Lemma mode_A_run (data filters : ndarray) (m : method) (H W K Fh Fw : nat) :
  shape data = [H; W] -> shape filters = [K; Fh; Fw] ->
  exists fs convs,
    iterate filters = Ok fs /\ length fs = K /\
    Forall (fun f => shape f = [Fh; Fw]) fs /\
    Forall2 (fun f c => convolve data f m = Ok c) fs convs /\
    Forall well_formed convs /\
    Forall (fun c => shape c = [H; W]) convs /\
    filter_convolve data filters false m = np_array convs.
Proof.
  intros Hd Hf.
  destruct (iterate_shape filters Hf) as (fs & Efs).
  destruct (iterate_length filters Hf Efs) as (Hlen & Hsh).
  set (g := fun f => tabulate2 H W (conv_entry data f H W Fh Fw)).
  assert (Em : mapM (fun f => convolve data f m) fs = Ok (map g fs)).
  { apply mapM_total; intros f Hin. rewrite Forall_forall in Hsh.
    apply convolve_2d; auto. }
  exists fs, (map g fs); repeat split; auto.
  - now apply mapM_Forall2.
  - apply Forall_forall; intros c Hc; apply in_map_iff in Hc.
    destruct Hc as (f & <- & _); apply tabulate2_well_formed.
  - apply Forall_forall; intros c Hc; apply in_map_iff in Hc.
    destruct Hc as (f & <- & _); reflexivity.
  - unfold filter_convolve. rewrite Efs; simpl. rewrite Em; reflexivity.
Qed.

Lemma rotate_stack_run (filters : ndarray) (K Fh Fw : nat) :
  shape filters = [K; Fh; Fw] ->
  exists fs rs rot,
    iterate filters = Ok fs /\ length fs = K /\
    Forall (fun f => shape f = [Fh; Fw]) fs /\
    Forall2 (fun f r => rotate f = Ok r) fs rs /\
    Forall (fun r => shape r = [Fh; Fw]) rs /\
    rotate_stack filters = Ok rot /\ iterate rot = Ok rs.
Proof.
  intros Hf.
  destruct (iterate_shape filters Hf) as (fs & Efs).
  destruct (iterate_length filters Hf Efs) as (Hlen & Hsh).
  set (g := fun f => tabulate2 Fh Fw
                       (fun i j => get2 f (Fh - 1 - i) (Fw - 1 - j))).
  assert (Em : mapM rotate fs = Ok (map g fs)).
  { apply mapM_total; intros f Hin. rewrite Forall_forall in Hsh.
    apply rotate_2d; auto. }
  assert (Hwf : Forall well_formed (map g fs)).
  { apply Forall_forall; intros c Hc; apply in_map_iff in Hc.
    destruct Hc as (f & <- & _); apply tabulate2_well_formed. }
  assert (Hrs : Forall (fun r => shape r = [Fh; Fw]) (map g fs)).
  { apply Forall_forall; intros c Hc; apply in_map_iff in Hc.
    destruct Hc as (f & <- & _); reflexivity. }
  assert (Erot : exists rot, np_array (map g fs) = Ok rot).
  { destruct (map g fs) as [|r rs'] eqn:Emap; [eexists; reflexivity|].
    rewrite (@np_array_same_shape (r :: rs') [Fh; Fw]);
      [eexists; reflexivity | discriminate | assumption]. }
  destruct Erot as (rot & Erot).
  exists fs, (map g fs), rot; repeat split; auto.
  - now apply mapM_Forall2.
  - unfold rotate_stack. rewrite Efs; simpl. rewrite Em; simpl. exact Erot.
  - now apply iterate_np_array.
Qed.

Lemma mode_B_run (data filters : ndarray) (m : method) (d K H W Fh Fw : nat) :
  shape data = [d; H; W] -> shape filters = [K; Fh; Fw] ->
  exists cs rs rot convs,
    iterate data = Ok cs /\ length cs = d /\
    rotate_stack filters = Ok rot /\ iterate rot = Ok rs /\ length rs = K /\
    Forall2 (fun cf c => convolve (fst cf) (snd cf) m = Ok c)
            (combine cs rs) convs /\
    Forall well_formed convs /\
    Forall (fun c => shape c = [H; W]) convs /\
    length convs = Nat.min d K /\
    filter_convolve data filters true m = np_sum_axis0 convs.
Proof.
  intros Hd Hf.
  destruct (rotate_stack_run filters Hf)
    as (fs & rs & rot & Efs & Hlen & Hfs & Hrot & Hrs & Erot & Eit).
  destruct (iterate_shape data Hd) as (cs & Ecs).
  destruct (iterate_length data Hd Ecs) as (Hlc & Hcs).
  set (g := fun cf : ndarray * ndarray =>
              tabulate2 H W (conv_entry (fst cf) (snd cf) H W Fh Fw)).
  assert (Em : mapM (fun cf => convolve (fst cf) (snd cf) m) (combine cs rs)
               = Ok (map g (combine cs rs))).
  { apply mapM_total; intros [c r] Hin; simpl.
    rewrite Forall_forall in Hcs, Hrs.
    apply convolve_2d;
      [apply Hcs; eapply in_combine_l | apply Hrs; eapply in_combine_r];
      eassumption. }
  exists cs, rs, rot, (map g (combine cs rs)); repeat split; auto.
  - rewrite <- (Forall2_length_eq Hrot); assumption.
  - now apply mapM_Forall2.
  - apply Forall_forall; intros c Hc; apply in_map_iff in Hc.
    destruct Hc as (f & <- & _); apply tabulate2_well_formed.
  - apply Forall_forall; intros c Hc; apply in_map_iff in Hc.
    destruct Hc as (f & <- & _); reflexivity.
  - rewrite length_map, length_combine, Hlc.
    now rewrite <- (Forall2_length_eq Hrot), Hlen.
  - unfold filter_convolve. rewrite Erot; simpl. rewrite Ecs; simpl.
    rewrite Eit; simpl. rewrite Em; reflexivity.
Qed.

Lemma get2_flat (a : ndarray) (H W i j : nat) :
  shape a = [H; W] -> get2 a i j = nth (i * W + j) (flat a) 0%Z.
Proof. unfold get2; intros ->; reflexivity. Qed.

Lemma np_sum_axis0_spec (convs : list ndarray) (H W : nat) :
  Forall well_formed convs -> Forall (fun c => shape c = [H; W]) convs ->
  exists r,
    np_sum_axis0 convs = Ok r /\ well_formed r /\
    match convs with
    | [] => r = scalar 0
    | c0 :: rest =>
        shape r = [H; W] /\
        flat r = fold_left vadd (map flat rest) (flat c0) /\
        forall i j, get2 r i j = zsum (map (fun c => get2 c i j) convs)
    end.
Proof.
  intros Hwf Hsh; destruct convs as [|c0 rest].
  - exists (scalar 0); repeat split; reflexivity.
  - rewrite (np_sum_axis0_cons Hwf Hsh). eexists; split; [reflexivity|].
    pose proof (flat_lengths Hwf Hsh) as Hlen; simpl in Hlen.
    inversion Hlen as [|b bs Hc0 Hrest]; subst.
    split; [|split; [reflexivity | split; [reflexivity|]]].
    + unfold well_formed; simpl. now apply length_fold_vadd.
    + intros i j. inversion Hsh as [|c cs Hs0 Hsrest]; subst.
      rewrite (@get2_flat _ H W) by reflexivity. simpl flat.
      erewrite nth_fold_vadd by eassumption. simpl.
      rewrite (get2_flat _ _ _ Hs0). f_equal.
      rewrite map_map. f_equal. apply map_ext_in; intros c Hc.
      rewrite Forall_forall in Hsrest.
      now rewrite (get2_flat _ _ _ (Hsrest c Hc)).
Qed.

Lemma mode_B_spec (data filters : ndarray) (m : method) (d K H W Fh Fw : nat) :
  shape data = [d; H; W] -> shape filters = [K; Fh; Fw] ->
  exists rot convs,
    rotate_stack filters = Ok rot /\
    (forall k, k < K ->
       exists fk rk,
         getitem filters k = Ok fk /\ shape fk = [Fh; Fw] /\
         rotate fk = Ok rk /\ getitem rot k = Ok rk) /\
    length convs = Nat.min d K /\
    (forall k, k < Nat.min d K ->
       exists ck rk c,
         getitem data k = Ok ck /\ getitem rot k = Ok rk /\
         convolve ck rk m = Ok c /\ nth_error convs k = Some c) /\
    Forall well_formed convs /\
    Forall (fun c => shape c = [H; W]) convs /\
    filter_convolve data filters true m = np_sum_axis0 convs.
Proof.
  intros Hd Hf.
  destruct (mode_B_run data filters m Hd Hf)
    as (cs & rs & rot & convs & Ecs & Hlc & Erot & Eit & Hlr & Hconv & Hwf
        & Hsh & Hlen & Erun).
  destruct (rotate_stack_run filters Hf)
    as (fs & rs' & rot' & Efs & Hlf & Hfs & Hrot & _ & Erot' & Eit').
  assert (rot' = rot) by congruence; subst rot'.
  assert (rs' = rs) by congruence; subst rs'.
  exists rot, convs; repeat split; auto.
  - intros k Hk.
    destruct (@nth_error_lt _ fs k) as (fk & Efk); [lia|].
    destruct (Forall2_nth_error_l _ Hrot Efk) as (rk & Erk & Hr).
    exists fk, rk; repeat split; auto.
    + eapply getitem_nth_error; eassumption.
    + rewrite Forall_forall in Hfs. apply Hfs. eapply nth_error_In; eassumption.
    + eapply getitem_nth_error; eassumption.
  - intros k Hk.
    destruct (@nth_error_lt _ cs k) as (ck & Eck); [lia|].
    destruct (@nth_error_lt _ rs k) as (rk & Erk); [lia|].
    pose proof (nth_error_combine _ _ _ Eck Erk) as Epair.
    destruct (Forall2_nth_error_l _ Hconv Epair) as (c & Ec & Hc).
    exists ck, rk, c; repeat split; auto;
      eapply getitem_nth_error; eassumption.
Qed.

(** Mode B once more, with the sum taken with any total: the list of
    convolutions that is summed is the same. *)
Lemma mode_B_spec_with (data filters : ndarray) (m : method)
    (d K H W Fh Fw : nat) :
  shape data = [d; H; W] -> shape filters = [K; Fh; Fw] ->
  exists rot convs,
    rotate_stack filters = Ok rot /\
    (forall k, k < K ->
       exists fk rk,
         getitem filters k = Ok fk /\ shape fk = [Fh; Fw] /\
         rotate fk = Ok rk /\ getitem rot k = Ok rk) /\
    length convs = Nat.min d K /\
    (forall k, k < Nat.min d K ->
       exists ck rk c,
         getitem data k = Ok ck /\ getitem rot k = Ok rk /\
         convolve ck rk m = Ok c /\ nth_error convs k = Some c) /\
    Forall well_formed convs /\
    Forall (fun c => shape c = [H; W]) convs /\
    filter_convolve data filters true m = np_sum_axis0 convs /\
    forall total,
      filter_convolve_with total data filters true m
      = np_sum_axis0_with total convs.
Proof.
  intros Hd Hf.
  destruct (mode_B_run data filters m Hd Hf)
    as (cs & rs & rot & convs & Ecs & Hlc & Erot & Eit & Hlr & Hconv & Hwf
        & Hsh & Hlen & Erun).
  destruct (rotate_stack_run filters Hf)
    as (fs & rs' & rot' & Efs & Hlf & Hfs & Hrot & _ & Erot' & Eit').
  assert (rot' = rot) by congruence; subst rot'.
  assert (rs' = rs) by congruence; subst rs'.
  exists rot, convs; repeat split; auto.
  - intros k Hk.
    destruct (@nth_error_lt _ fs k) as (fk & Efk); [lia|].
    destruct (Forall2_nth_error_l _ Hrot Efk) as (rk & Erk & Hr).
    exists fk, rk; repeat split; auto.
    + eapply getitem_nth_error; eassumption.
    + rewrite Forall_forall in Hfs. apply Hfs. eapply nth_error_In; eassumption.
    + eapply getitem_nth_error; eassumption.
  - intros k Hk.
    destruct (@nth_error_lt _ cs k) as (ck & Eck); [lia|].
    destruct (@nth_error_lt _ rs k) as (rk & Erk); [lia|].
    pose proof (nth_error_combine _ _ _ Eck Erk) as Epair.
    destruct (Forall2_nth_error_l _ Hconv Epair) as (c & Ec & Hc).
    exists ck, rk, c; repeat split; auto;
      eapply getitem_nth_error; eassumption.
  - intros total. unfold filter_convolve_with.
    rewrite Erot; cbn [bind]. rewrite Ecs; cbn [bind].
    rewrite Eit; cbn [bind]. apply mapM_Forall2 in Hconv.
    rewrite Hconv. reflexivity.
Qed.

(** ** Finite sums and the two readings of the convolution *)

Section Sums.
Local Open Scope Z_scope.

Lemma zsum_app (l l' : list Z) : zsum (l ++ l') = zsum l + zsum l'.
Proof. induction l as [|x l IH]; simpl; [reflexivity | rewrite IH; lia]. Qed.

Lemma zsum_flat_map (A : Type) (f : A -> list Z) (l : list A) :
  zsum (flat_map f l) = zsum (map (fun x => zsum (f x)) l).
Proof.
  induction l as [|x l IH]; simpl; [reflexivity|].
  now rewrite zsum_app, IH.
Qed.

Lemma zsum_map_ext (A : Type) (f g : A -> Z) (l : list A) :
  (forall x, In x l -> f x = g x) -> zsum (map f l) = zsum (map g l).
Proof. intros Hfg; f_equal; now apply map_ext_in. Qed.

Lemma zsum_map_add (A : Type) (f g : A -> Z) (l : list A) :
  zsum (map (fun x => f x + g x) l) = zsum (map f l) + zsum (map g l).
Proof. induction l as [|x l IH]; simpl; [reflexivity | rewrite IH; lia]. Qed.

Lemma zsum_map_zero (A : Type) (l : list A) :
  zsum (map (fun _ => 0) l) = 0.
Proof. induction l as [|x l IH]; simpl; [reflexivity | now rewrite IH]. Qed.

Lemma zsum_map_if (A : Type) (c : bool) (f : A -> Z) (l : list A) :
  zsum (map (fun x => if c then f x else 0) l)
  = if c then zsum (map f l) else 0.
Proof. destruct c; [reflexivity | apply zsum_map_zero]. Qed.

Lemma zsum_swap (A B : Type) (f : A -> B -> Z) (l1 : list A) (l2 : list B) :
  zsum (map (fun x => zsum (map (fun y => f x y) l2)) l1)
  = zsum (map (fun y => zsum (map (fun x => f x y) l1)) l2).
Proof.
  induction l1 as [|x l1 IH]; simpl.
  - now rewrite zsum_map_zero.
  - now rewrite IH, <- zsum_map_add.
Qed.

Lemma zsum_below (g : nat -> Z) (c n : nat) :
  zsum (map (fun p => if (p <? c)%nat then g p else 0) (seq 0 n))
  = zsum (map g (seq 0 (Nat.min n c))).
Proof.
  induction n as [|n IH]; [reflexivity|].
  rewrite seq_S, map_app, zsum_app, IH. cbn [map zsum fold_right Nat.add].
  destruct (Nat.ltb_spec n c).
  - rewrite (Nat.min_l n c), (Nat.min_l (S n) c) by lia.
    rewrite seq_S, map_app, zsum_app. reflexivity.
  - rewrite (Nat.min_r n c), (Nat.min_r (S n) c) by lia. lia.
Qed.

Lemma zsum_range_swap (g : nat -> Z) (u n : nat) :
  zsum (map (fun p => if (p <=? u)%nat then g p else 0) (seq 0 n))
  = zsum (map (fun p => if (p <? n)%nat then g p else 0) (seq 0 (S u))).
Proof.
  change (zsum (map (fun p => if (p <? S u)%nat then g p else 0) (seq 0 n))
          = zsum (map (fun p => if (p <? n)%nat then g p else 0)
                      (seq 0 (S u)))).
  rewrite !zsum_below. now rewrite Nat.min_comm.
Qed.

Lemma zsum_reverse (h : nat -> Z) (n : nat) :
  zsum (map h (seq 0 n)) = zsum (map (fun t => h (n - 1 - t)%nat) (seq 0 n)).
Proof.
  revert h; induction n as [|n IH]; intros h; [reflexivity|].
  rewrite seq_S at 1. rewrite map_app, zsum_app.
  change (seq 0 (S n)) with (0%nat :: seq 1 n).
  rewrite <- seq_shift. cbn [map]. rewrite map_map.
  cbn [zsum fold_right Nat.add]. fold (zsum (map (fun x => h (S n - 1 - S x)%nat) (seq 0 n))). rewrite (IH h).
  replace (S n - 1 - 0)%nat with n by lia.
  rewrite (@zsum_map_ext _ (fun t => h (S n - 1 - S t)%nat)
                         (fun t => h (n - 1 - t)%nat));
    [lia | intros t _; f_equal; lia].
Qed.

Lemma conv_reindex (F : nat -> nat -> Z) (n m u : nat) :
  zsum (map (fun p => if (p <=? u)%nat && (u - p <? m)%nat
                      then F p (u - p)%nat else 0) (seq 0 n))
  = zsum (map (fun a => if (a <=? u)%nat && (u - a <? n)%nat
                        then F (u - a)%nat a else 0) (seq 0 m)).
Proof.
  rewrite (@zsum_map_ext _ _
             (fun p => if (p <=? u)%nat
                       then (if (u - p <? m)%nat then F p (u - p)%nat else 0)
                       else 0))
    by (intros p _; destruct (p <=? u)%nat; reflexivity).
  rewrite (@zsum_map_ext _
             (fun a => if (a <=? u)%nat && (u - a <? n)%nat
                       then F (u - a)%nat a else 0)
             (fun a => if (a <=? u)%nat
                       then (if (u - a <? n)%nat then F (u - a)%nat a else 0)
                       else 0))
    by (intros a _; destruct (a <=? u)%nat; reflexivity).
  rewrite !zsum_range_swap.
  rewrite (zsum_reverse _ (S u)).
  apply zsum_map_ext; intros t Ht. apply in_seq in Ht.
  replace (S u - 1 - t)%nat with (u - t)%nat by lia.
  replace (u - (u - t))%nat with t by lia.
  destruct (t <? m)%nat, (u - t <? n)%nat; reflexivity.
Qed.

Lemma conv2_reindex (F : nat -> nat -> nat -> nat -> Z)
    (n1 m1 n2 m2 u v : nat) :
  zsum (map (fun p => zsum (map (fun q =>
      if (p <=? u)%nat && (u - p <? m1)%nat && (q <=? v)%nat && (v - q <? m2)%nat
      then F p q (u - p)%nat (v - q)%nat else 0) (seq 0 n2))) (seq 0 n1))
  = zsum (map (fun a => zsum (map (fun b =>
      if (a <=? u)%nat && (u - a <? n1)%nat && (b <=? v)%nat && (v - b <? n2)%nat
      then F (u - a)%nat (v - b)%nat a b else 0) (seq 0 m2))) (seq 0 m1)).
Proof.
  (* inner sums: q becomes b *)
  rewrite (@zsum_map_ext _ _
    (fun p => zsum (map (fun b =>
       if (p <=? u)%nat && (u - p <? m1)%nat
       then (if (b <=? v)%nat && (v - b <? n2)%nat
             then F p (v - b)%nat (u - p)%nat b else 0)
       else 0) (seq 0 m2)))).
  2:{ intros p _. rewrite zsum_map_if.
      rewrite <- (conv_reindex (fun q b => F p q (u - p)%nat b) n2 m2 v).
      rewrite <- zsum_map_if. apply zsum_map_ext; intros q _.
      destruct (p <=? u)%nat, (u - p <? m1)%nat; reflexivity. }
  rewrite zsum_swap.
  (* inner sums: p becomes a *)
  rewrite (@zsum_map_ext _ _
    (fun b => zsum (map (fun a =>
       if (b <=? v)%nat && (v - b <? n2)%nat
       then (if (a <=? u)%nat && (u - a <? n1)%nat
             then F (u - a)%nat (v - b)%nat a b else 0)
       else 0) (seq 0 m1)))).
  2:{ intros b _. rewrite zsum_map_if.
      rewrite <- (conv_reindex (fun p a => F p (v - b)%nat a b) n1 m1 u).
      rewrite <- zsum_map_if. apply zsum_map_ext; intros p _.
      destruct ((b <=? v)%nat && (v - b <? n2)%nat),
               ((p <=? u)%nat && (u - p <? m1)%nat); reflexivity. }
  rewrite zsum_swap.
  apply zsum_map_ext; intros a _. apply zsum_map_ext; intros b _.
  destruct (a <=? u)%nat, (u - a <? n1)%nat, (b <=? v)%nat,
    (v - b <? n2)%nat; reflexivity.
Qed.

End Sums.

(** The "same"-size convolution is the full linear convolution cropped to
    the shape of the data, starting at ((Fh-1)/2, (Fw-1)/2). *)
Lemma conv_entry_crops_full (data kernel : ndarray) (H W Fh Fw i j : nat) :
  conv_entry data kernel H W Fh Fw i j
  = full_convolution_entry data kernel H W Fh Fw
      (i + (Fh - 1) / 2) (j + (Fw - 1) / 2).
Proof.
  unfold conv_entry, full_convolution_entry; cbv zeta.
  rewrite !zsum_flat_map.
  rewrite (conv2_reindex
             (fun p q a b => (get2 kernel p q * get2 data a b)%Z)
             Fh H Fw W ((i + (Fh - 1) / 2)) (j + (Fw - 1) / 2)).
  apply zsum_map_ext; intros a _. apply zsum_map_ext; intros b _.
  destruct (_ && _); [apply Z.mul_comm | reflexivity].
Qed.

(** ** Sums along the leading axis, whatever the total *)

Lemma nth_map_seq (f : nat -> Z) (n p : nat) :
  p < n -> nth p (map f (seq 0 n)) 0%Z = f p.
Proof.
  intros Hp. rewrite (nth_indep _ 0%Z (f 0)) by now rewrite length_map, length_seq.
  rewrite map_nth, seq_nth by assumption. reflexivity.
Qed.

Lemma np_sum_axis0_with_cons (total : list Z -> Z) (x : ndarray)
    (rest : list ndarray) (sh : list nat) :
  Forall well_formed (x :: rest) -> Forall (fun y => shape y = sh) (x :: rest) ->
  np_sum_axis0_with total (x :: rest)
  = Ok (mk_ndarray sh
          (map (fun p => total (map (fun y => nth p (flat y) 0%Z) (x :: rest)))
               (seq 0 (size_of sh)))).
Proof.
  intros Hwf Hsh; unfold np_sum_axis0_with.
  assert (E : np_array (x :: rest)
              = Ok (mk_ndarray (length (x :: rest) :: sh)
                               (concat (map flat (x :: rest)))))
    by (apply np_array_same_shape; [discriminate | assumption]).
  rewrite E; unfold bind, add_reduce0_with; cbn [shape].
  rewrite (iterate_np_array E Hwf); reflexivity.
Qed.

(** With the exact sum as total, the reduction is [np_sum_axis0]. *)
Lemma np_sum_axis0_with_zsum (x : ndarray) (rest : list ndarray)
    (sh : list nat) :
  Forall well_formed (x :: rest) -> Forall (fun y => shape y = sh) (x :: rest) ->
  np_sum_axis0_with zsum (x :: rest) = np_sum_axis0 (x :: rest).
Proof.
  intros Hwf Hsh.
  rewrite (np_sum_axis0_with_cons zsum Hwf Hsh), (np_sum_axis0_cons Hwf Hsh).
  do 2 f_equal.
  pose proof (flat_lengths Hwf Hsh) as Hl; cbn [map] in Hl.
  inversion Hl as [|b bs Hx Hrest]; subst.
  apply (nth_ext _ _ 0%Z 0%Z).
  - rewrite length_map, length_seq. symmetry. now apply length_fold_vadd.
  - intros p Hp. rewrite length_map, length_seq in Hp.
    rewrite nth_map_seq by assumption.
    rewrite (@nth_fold_vadd (map flat rest) (flat x) (size_of sh) p Hrest Hx).
    cbn [map zsum fold_right]. now rewrite map_map.
Qed.

(** ** Which exceptions can leave [filter_convolve] *)

Lemma bind_err (A B : Type) (r : result A) (k : A -> result B) (e : error) :
  bind r k = Err e -> r = Err e \/ exists a, r = Ok a /\ k a = Err e.
Proof.
  destruct r as [a|e']; simpl; intros E.
  - right; exists a; split; [reflexivity | assumption].
  - left; congruence.
Qed.

Lemma mapM_err (A B : Type) (f : A -> result B) (l : list A) (e : error) :
  mapM f l = Err e -> exists x, In x l /\ f x = Err e.
Proof.
  induction l as [|x xs IH]; simpl; [discriminate|]. intros E.
  apply bind_err in E. destruct E as [E | (y & Ey & E)].
  - exists x; split; [left; reflexivity | assumption].
  - apply bind_err in E. destruct E as [E | (ys & _ & E)]; [|discriminate].
    destruct (IH E) as (x' & Hin & Hx'). exists x'; split; [right|]; auto.
Qed.

Lemma iterate_err (a : ndarray) (e : error) :
  iterate a = Err e -> e = TypeError.
Proof. unfold iterate; destruct (shape a); congruence. Qed.

Lemma np_array_err (l : list ndarray) (e : error) :
  np_array l = Err e -> e = ValueError.
Proof.
  unfold np_array; destruct l; [discriminate|].
  destruct (forallb _ _); congruence.
Qed.

Lemma convolve_err (data kernel : ndarray) (m : method) (e : error) :
  convolve data kernel m = Err e -> e = InvalidInputError.
Proof.
  unfold convolve.
  destruct (shape data) as [|? [|? [|? ?]]]; try congruence;
    destruct (shape kernel) as [|? [|? [|? ?]]]; congruence.
Qed.

Lemma rotate_err (x : ndarray) (e : error) :
  rotate x = Err e -> e = InvalidInputError.
Proof.
  unfold rotate. destruct (shape x) as [|? [|? [|? ?]]]; congruence.
Qed.

Lemma add_reduce0_err (a : ndarray) (e : error) :
  add_reduce0 a = Err e -> e = TypeError \/ e = ValueError.
Proof.
  unfold add_reduce0. destruct (shape a) eqn:Hs; [discriminate|].
  intros E. apply bind_err in E. destruct E as [E | (xs & _ & E)].
  - left; eapply iterate_err; eassumption.
  - destruct xs; discriminate.
Qed.

Ltac split_bind E :=
  apply bind_err in E;
  let a := fresh "a" in
  destruct E as [E | (a & _ & E)].

(** [filter_convolve] raises only what iteration, stacking and the two
    helpers raise; the shape-mismatch error of the specification's taxonomy
    is raised nowhere. *)
Lemma never_shape_mismatch (data filters : ndarray) (filter_rot : bool)
    (m : method) (e : error) :
  filter_convolve data filters filter_rot m = Err e ->
  e = TypeError \/ e = ValueError \/ e = InvalidInputError.
Proof.
  unfold filter_convolve, rotate_stack, np_sum_axis0.
  destruct filter_rot; intros E.
  - split_bind E.
    { split_bind E; [apply iterate_err in E; auto|].
      split_bind E; [|apply np_array_err in E; auto].
      apply mapM_err in E. destruct E as (x & _ & E).
      apply rotate_err in E; auto. }
    split_bind E; [apply iterate_err in E; auto|].
    split_bind E; [apply iterate_err in E; auto|].
    split_bind E.
    { apply mapM_err in E. destruct E as (x & _ & E).
      apply convolve_err in E; auto. }
    split_bind E; [apply np_array_err in E; auto|].
    apply add_reduce0_err in E. tauto.
  - split_bind E; [apply iterate_err in E; auto|].
    split_bind E; [|apply np_array_err in E; auto].
    apply mapM_err in E. destruct E as (x & _ & E).
    apply convolve_err in E; auto.
Qed.

(** * The claims *)

(** C1. Mode A ([filter_rot=False]): for a 2-D image of shape (H, W) and a
    non-empty bank of K filters, [filter_convolve] returns an array of shape
    (K, H, W); its k-th slice is [convolve(data, filters[k])], the
    "same"-size convolution of the image with the k-th filter (the full
    linear convolution cropped to (H, W) around its centre), so the slices
    come in filter order. *)
Theorem filter_convolve_mode_A (data filters : ndarray) (m : method)
    (H W K Fh Fw : nat) :
  shape data = [H; W] -> shape filters = [K; Fh; Fw] -> 0 < K ->
  exists r,
    filter_convolve data filters false m = Ok r /\
    shape r = [K; H; W] /\ well_formed r /\
    forall k, k < K ->
      exists fk ck,
        getitem filters k = Ok fk /\ convolve data fk m = Ok ck /\
        getitem r k = Ok ck /\ shape ck = [H; W] /\
        forall i j, i < H -> j < W ->
          get2 ck i j
          = full_convolution_entry data fk H W Fh Fw
              (i + (Fh - 1) / 2) (j + (Fw - 1) / 2).
Proof.
  intros Hd Hf HK.
  destruct (mode_A_run data filters m Hd Hf)
    as (fs & convs & Efs & Hlen & Hfs & Hconv & Hwf & Hsh & Erun).
  assert (Hlc : length convs = K)
    by (rewrite <- (Forall2_length_eq Hconv); assumption).
  assert (Hne : convs <> []) by (intros ->; simpl in Hlc; lia).
  pose proof (np_array_same_shape Hne Hsh) as Er.
  rewrite Hlc in Er.
  exists (mk_ndarray [K; H; W] (concat (map flat convs))).
  split; [congruence|]. split; [reflexivity|].
  split; [eapply np_array_well_formed; eassumption|].
  intros k Hk.
  destruct (@nth_error_lt _ fs k) as (fk & Efk); [lia|].
  destruct (Forall2_nth_error_l _ Hconv Efk) as (ck & Eck & Hck).
  assert (Hfk : shape fk = [Fh; Fw]).
  { rewrite Forall_forall in Hfs; apply Hfs.
    eapply nth_error_In; eassumption. }
  exists fk, ck. split; [eapply getitem_nth_error; eassumption|].
  split; [assumption|].
  split; [eapply getitem_nth_error;
          [eapply iterate_np_array|]; eassumption|].
  rewrite (convolve_2d data fk m Hd Hfk) in Hck. injection Hck as <-.
  split; [reflexivity|]. intros i j Hi Hj.
  rewrite get2_tabulate2 by assumption. apply conv_entry_crops_full.
Qed.

Lemma filter_convolve_mode_A_witness :
  shape x33 = [3; 3] /\ shape y433 = [4; 3; 3] /\ 0 < 4 /\
  exists r,
    filter_convolve x33 y433 false scipy = Ok r /\
    shape r = [4; 3; 3] /\ well_formed r /\
    forall k, k < 4 ->
      exists fk ck,
        getitem y433 k = Ok fk /\ convolve x33 fk scipy = Ok ck /\
        getitem r k = Ok ck /\ shape ck = [3; 3] /\
        forall i j, i < 3 -> j < 3 ->
          get2 ck i j
          = full_convolution_entry x33 fk 3 3 3 3
              (i + (3 - 1) / 2) (j + (3 - 1) / 2).
Proof.
  split; [reflexivity|]. split; [reflexivity|]. split; [lia|].
  apply (@filter_convolve_mode_A x33 y433 scipy 3 3 4 3 3);
    [reflexivity | reflexivity | lia].
Defined.

(** C2. Mode B ([filter_rot=True]) on a coefficient stack whose leading
    dimension is the number K of filters of a non-empty bank: every filter
    is rotated by 180 degrees (entry (p, q) of the k-th rotated filter is
    entry (Fh-1-p, Fw-1-q) of the k-th filter), [data[k]] is convolved with
    the k-th rotated filter, and the result is the (H, W) array that is the
    element-wise sum of these K arrays. The K arrays are summed in index
    order: whatever way a sequence of elements is totalled, entry (i, j) of
    the result is the total of the sequence c_0[i,j], c_1[i,j], ...,
    c_(K-1)[i,j]; for a sum taken one element after the other this is
    ((c_0[i,j] + c_1[i,j]) + ...) + c_(K-1)[i,j]. *)
Theorem filter_convolve_mode_B (data filters : ndarray) (m : method)
    (K H W Fh Fw : nat) :
  shape data = [K; H; W] -> shape filters = [K; Fh; Fw] -> 0 < K ->
  exists rot convs r,
    rotate_stack filters = Ok rot /\
    (forall k, k < K ->
       exists fk rk,
         getitem filters k = Ok fk /\ getitem rot k = Ok rk /\
         shape rk = [Fh; Fw] /\
         forall p q, p < Fh -> q < Fw ->
           get2 rk p q = get2 fk (Fh - 1 - p) (Fw - 1 - q)) /\
    length convs = K /\
    (forall k, k < K ->
       exists ck rk c,
         getitem data k = Ok ck /\ getitem rot k = Ok rk /\
         convolve ck rk m = Ok c /\ nth_error convs k = Some c) /\
    filter_convolve data filters true m = Ok r /\
    shape r = [H; W] /\ well_formed r /\
    flat r = fold_left vadd (map flat (tl convs)) (flat (hd (scalar 0) convs)) /\
    (forall i j, get2 r i j = zsum (map (fun c => get2 c i j) convs)) /\
    filter_convolve_with zsum data filters true m = Ok r /\
    forall total : list Z -> Z,
      exists r',
        filter_convolve_with total data filters true m = Ok r' /\
        shape r' = [H; W] /\
        forall i j, i < H -> j < W ->
          get2 r' i j = total (map (fun c => get2 c i j) convs).
Proof.
  intros Hd Hf HK.
  destruct (mode_B_spec_with data filters m Hd Hf)
    as (rot & convs & Erot & Hrot & Hlen & Hpairs & Hwf & Hsh & Erun & Ewith).
  rewrite Nat.min_id in Hlen, Hpairs.
  destruct (np_sum_axis0_spec Hwf Hsh) as (r & Er & Hwr & Hr).
  exists rot, convs, r. split; [assumption|]. split.
  { intros k Hk. destruct (Hrot k Hk) as (fk & rk & Efk & Hfk & Erk & Eg).
    exists fk, rk. rewrite (rotate_2d fk Hfk) in Erk. injection Erk as <-.
    repeat split; auto. intros p q Hp Hq.
    rewrite get2_tabulate2 by assumption. reflexivity. }
  split; [assumption|]. split; [assumption|].
  split; [congruence|].
  destruct convs as [|c0 rest]; [simpl in Hlen; lia|].
  destruct Hr as (Hshape & Hflat & Hget).
  do 4 (split; [assumption|]).
  split; [now rewrite Ewith, (np_sum_axis0_with_zsum Hwf Hsh)|].
  intros total. rewrite Ewith, (np_sum_axis0_with_cons total Hwf Hsh).
  eexists; split; [reflexivity|]. split; [reflexivity|].
  intros i j Hi Hj.
  rewrite (@get2_flat _ H W) by reflexivity. cbn [flat].
  rewrite nth_map_seq by (cbn [size_of fold_right]; nia).
  f_equal. apply map_ext_in; intros c Hc.
  rewrite Forall_forall in Hsh.
  now rewrite (get2_flat _ _ _ (Hsh c Hc)).
Qed.

Lemma filter_convolve_mode_B_witness :
  exists r r',
    filter_convolve y433 y433 true scipy = Ok r /\ shape r = [3; 3] /\
    get2 r 0 0 = (58 + 670 + 1930 + 3838)%Z /\
    filter_convolve_with (fun l => fold_left Z.sub l 0%Z) y433 y433 true scipy
    = Ok r' /\
    shape r' = [3; 3] /\
    get2 r' 0 0 = ((((0 - 58) - 670) - 1930) - 3838)%Z.
Proof.
  destruct (@filter_convolve_mode_B y433 y433 scipy 4 3 3 3 3)
    as (rot & convs & r & _ & _ & _ & _ & Er & Hr & _ & _ & _ & _ & Htotal);
    [reflexivity | reflexivity | lia |].
  destruct (Htotal (fun l => fold_left Z.sub l 0%Z)) as (r' & Er' & Hr' & _).
  exists r, r'. repeat split; try assumption.
  - vm_compute in Er. injection Er as <-. reflexivity.
  - vm_compute in Er'. injection Er' as <-. reflexivity.
Defined.

(** C9. Mode B on a 3-D stack with leading dimension d and a bank of K
    filters raises no error, whether or not d = K: only the first min(d, K)
    coefficient/filter pairs are convolved and the result is their
    element-wise sum; when min(d, K) = 0 the result is the 0-d scalar
    zero. *)
Theorem filter_convolve_mode_B_truncates (data filters : ndarray) (m : method)
    (d K H W Fh Fw : nat) :
  shape data = [d; H; W] -> shape filters = [K; Fh; Fw] ->
  exists rot convs r,
    rotate_stack filters = Ok rot /\
    length convs = Nat.min d K /\
    (forall k, k < Nat.min d K ->
       exists ck rk c,
         getitem data k = Ok ck /\ getitem rot k = Ok rk /\
         convolve ck rk m = Ok c /\ nth_error convs k = Some c) /\
    filter_convolve data filters true m = Ok r /\
    np_sum_axis0 convs = Ok r /\
    (Nat.min d K = 0 -> r = scalar 0 /\ ndim r = 0) /\
    (0 < Nat.min d K ->
       shape r = [H; W] /\
       forall i j, get2 r i j = zsum (map (fun c => get2 c i j) convs)).
Proof.
  intros Hd Hf.
  destruct (mode_B_spec data filters m Hd Hf)
    as (rot & convs & Erot & _ & Hlen & Hpairs & Hwf & Hsh & Erun).
  destruct (np_sum_axis0_spec Hwf Hsh) as (r & Er & Hwr & Hr).
  exists rot, convs, r. repeat split; try assumption; try congruence.
  - destruct convs; [assumption | simpl in Hlen; lia].
  - destruct convs; [subst r; reflexivity | simpl in Hlen; lia].
  - destruct convs; [simpl in Hlen; lia | apply Hr].
  - destruct convs; [simpl in Hlen; lia | apply Hr].
Qed.

Lemma filter_convolve_mode_B_truncates_witness :
  exists r,
    filter_convolve (arange [3; 2; 2]) (arange [2; 1; 1]) true scipy = Ok r /\
    shape r = [2; 2].
Proof.
  destruct (@filter_convolve_mode_B_truncates
              (arange [3; 2; 2]) (arange [2; 1; 1]) scipy 3 2 2 2 1 1)
    as (rot & convs & r & _ & _ & _ & Er & _ & _ & Hr);
    [reflexivity | reflexivity |].
  exists r; split; [assumption|]. apply Hr; simpl; lia.
Defined.

(** C5 as stated fails: a stack of one coefficient map against a bank of
    two filters raises nothing; the second filter is ignored. *)
Lemma leading_dimension_mismatch_returns :
  shape (arange [1; 2; 2]) = [1; 2; 2] /\
  shape (arange [2; 3; 3]) = [2; 3; 3] /\
  filter_convolve (arange [1; 2; 2]) (arange [2; 3; 3]) true scipy
  = Ok (mk_ndarray [2; 2] [43; 37; 25; 19]%Z) /\
  filter_convolve (arange [1; 2; 2]) (arange [2; 3; 3]) true scipy
  <> Err ShapeMismatchError.
Proof.
  split; [reflexivity|]. split; [reflexivity|].
  split; [vm_compute; reflexivity | vm_compute; discriminate].
Qed.

(** C5, as the code has it. Mode B on a 3-D stack whose leading dimension
    K' differs from the filter count K raises no error: a result is
    returned, computed from the first min(K', K) coefficient/filter pairs
    only, each coefficient map convolved with the rotated filter of the
    same index. It is the element-wise sum of these convolutions, an (H, W)
    array, when min(K', K) >= 1, and the 0-d scalar zero when
    min(K', K) = 0. *)
Theorem leading_dimension_mismatch_no_error (data filters : ndarray)
    (m : method) (K' K H W Fh Fw : nat) :
  shape data = [K'; H; W] -> shape filters = [K; Fh; Fw] -> K' <> K ->
  exists rot convs r,
    rotate_stack filters = Ok rot /\
    length convs = Nat.min K' K /\
    (forall k, k < Nat.min K' K ->
       exists ck rk c,
         getitem data k = Ok ck /\ getitem rot k = Ok rk /\
         convolve ck rk m = Ok c /\ nth_error convs k = Some c) /\
    filter_convolve data filters true m = Ok r /\
    (forall e, filter_convolve data filters true m <> Err e) /\
    shape r = (if Nat.min K' K =? 0 then [] else [H; W]) /\
    (Nat.min K' K = 0 -> r = scalar 0) /\
    (0 < Nat.min K' K ->
       forall i j, get2 r i j = zsum (map (fun c => get2 c i j) convs)).
Proof.
  intros Hd Hf _.
  destruct (mode_B_spec data filters m Hd Hf)
    as (rot & convs & Erot & _ & Hlen & Hpairs & Hwf & Hsh & Erun).
  destruct (np_sum_axis0_spec Hwf Hsh) as (r & Er & _ & Hr).
  exists rot, convs, r. rewrite Erun, Er.
  do 4 (split; [assumption || reflexivity|]).
  split; [intros e; discriminate|].
  destruct convs as [|c0 rest]; simpl in Hlen; rewrite <- Hlen; simpl.
  - subst r. split; [reflexivity|]. split; [reflexivity | lia].
  - split; [apply Hr|]. split; [discriminate|]. intros _; apply Hr.
Qed.

Lemma leading_dimension_mismatch_no_error_witness :
  exists r,
    filter_convolve (arange [3; 2; 2]) (arange [2; 1; 1]) true scipy = Ok r /\
    shape r = [2; 2] /\ flat r = [4; 5; 6; 7]%Z.
Proof.
  destruct (@leading_dimension_mismatch_no_error
              (arange [3; 2; 2]) (arange [2; 1; 1]) scipy 3 2 2 2 1 1)
    as (rot & convs & r & _ & _ & _ & Er & _ & Hr & _);
    [reflexivity | reflexivity | lia |].
  exists r; repeat split; try assumption.
  vm_compute in Er. injection Er as <-. reflexivity.
Defined.

(** C4 as stated fails: with an empty filter bank both modes return. *)
Lemma empty_bank_returns :
  shape (mk_ndarray [0; 3; 3] []) = [0; 3; 3] /\
  filter_convolve x33 (mk_ndarray [0; 3; 3] []) false scipy
  = Ok (mk_ndarray [0] []) /\
  filter_convolve y433 (mk_ndarray [0; 3; 3] []) true scipy
  = Ok (scalar 0) /\
  filter_convolve x33 (mk_ndarray [0; 3; 3] []) false scipy
  <> Err ShapeMismatchError /\
  filter_convolve y433 (mk_ndarray [0; 3; 3] []) true scipy
  <> Err ShapeMismatchError.
Proof.
  split; [reflexivity|]. split; [vm_compute; reflexivity|].
  split; [vm_compute; reflexivity|].
  split; vm_compute; discriminate.
Qed.

(** C4, as the code has it. With an empty filter bank no convolution is
    performed and no shape-mismatch error is raised: Mode A returns the
    empty 1-D array of shape (0,) for every [data]; Mode B returns the 0-d
    scalar zero for every [data] that can be iterated (a 0-d [data] fails
    with the [TypeError] of the iteration). *)
Theorem empty_bank_no_error (data filters : ndarray) (m : method)
    (sh : list nat) :
  shape filters = 0 :: sh ->
  filter_convolve data filters false m = Ok (mk_ndarray [0] []) /\
  filter_convolve data filters true m
  = match shape data with
    | [] => Err TypeError
    | _ :: _ => Ok (scalar 0)
    end.
Proof.
  intros Hf.
  assert (Efs : iterate filters = Ok []) by (unfold iterate; now rewrite Hf).
  split.
  - unfold filter_convolve. rewrite Efs; reflexivity.
  - unfold filter_convolve, rotate_stack. rewrite Efs; simpl.
    unfold iterate at 1. destruct (shape data) as [|n sh']; [reflexivity|].
    simpl. rewrite combine_nil. reflexivity.
Qed.

Lemma empty_bank_no_error_witness :
  filter_convolve x33 (mk_ndarray [0; 3; 3] []) false scipy
  = Ok (mk_ndarray [0] []) /\
  filter_convolve x33 (mk_ndarray [0; 3; 3] []) true scipy
  = match shape x33 with
    | [] => Err TypeError
    | _ :: _ => Ok (scalar 0)
    end.
Proof.
  apply (@empty_bank_no_error x33 (mk_ndarray [0; 3; 3] []) scipy [3; 3]).
  reflexivity.
Defined.

(** C6 as stated fails: 3-D data in Mode A with an empty filter bank, and
    1-D data of length zero in Mode B, raise nothing. *)
Lemma wrong_rank_returns :
  ndim y433 <> 2 /\
  filter_convolve y433 (mk_ndarray [0; 3; 3] []) false scipy
  = Ok (mk_ndarray [0] []) /\
  ndim (mk_ndarray [0] []) <> 3 /\
  filter_convolve (mk_ndarray [0] []) y433 true scipy = Ok (scalar 0) /\
  (forall e, filter_convolve y433 (mk_ndarray [0; 3; 3] []) false scipy
             <> Err e) /\
  (forall e, filter_convolve (mk_ndarray [0] []) y433 true scipy <> Err e).
Proof.
  split; [vm_compute; discriminate|]. split; [vm_compute; reflexivity|].
  split; [vm_compute; discriminate|]. split; [vm_compute; reflexivity|].
  split; intros e; vm_compute; discriminate.
Qed.

(** C6, as the code has it. With a bank of at least one filter: data that
    is not 2-D fails in Mode A with the invalid-input error of the
    convolution helper; data that is not 3-D fails in Mode B with that
    error when its leading axis is not empty and with the [TypeError] of
    the iteration when it is 0-d, and yields the scalar zero, without
    error, when its leading axis is empty. *)
Theorem wrong_rank_errors (data filters : ndarray) (m : method)
    (K Fh Fw : nat) :
  shape filters = [K; Fh; Fw] -> 0 < K ->
  (ndim data <> 2 ->
   filter_convolve data filters false m = Err InvalidInputError) /\
  (ndim data <> 3 ->
   filter_convolve data filters true m
   = match shape data with
     | [] => Err TypeError
     | 0 :: _ => Ok (scalar 0)
     | S _ :: _ => Err InvalidInputError
     end).
Proof.
  intros Hf HK; split; intros Hrank.
  - unfold filter_convolve, iterate. rewrite Hf.
    destruct K as [|K]; [lia|]. cbn [seq map bind].
    rewrite mapM_first_error with (e := InvalidInputError); [reflexivity|].
    apply convolve_rank_error; left; assumption.
  - destruct (rotate_stack_run filters Hf)
      as (fs & rs & rot & _ & Hlf & _ & Hrot & Hrs & Erot & Eit).
    unfold filter_convolve. rewrite Erot; cbn [bind].
    unfold iterate at 1. unfold ndim in Hrank.
    destruct (shape data) as [|n sh]; [reflexivity|]. cbn [bind].
    rewrite Eit; cbn [bind].
    destruct n as [|n]; [reflexivity|].
    destruct rs as [|r0 rs].
    { apply Forall2_length_eq in Hrot. simpl in Hrot. lia. }
    cbn [seq map combine].
    rewrite mapM_first_error with (e := InvalidInputError); [reflexivity|].
    apply convolve_rank_error; left; unfold ndim; simpl in *. lia.
Qed.

Lemma wrong_rank_errors_witness :
  filter_convolve y433 y433 false scipy = Err InvalidInputError /\
  filter_convolve x33 y433 true scipy = Err InvalidInputError.
Proof.
  split.
  - apply (@wrong_rank_errors y433 y433 scipy 4 3 3);
      [reflexivity | lia | vm_compute; discriminate].
  - apply (@wrong_rank_errors x33 y433 scipy 4 3 3);
      [reflexivity | lia | vm_compute; discriminate].
Defined.

(** ** Results are rectangular *)

Lemma filter_convolve_well_formed (data filters r : ndarray)
    (filter_rot : bool) (m : method) :
  filter_convolve data filters filter_rot m = Ok r -> well_formed r.
Proof.
  unfold filter_convolve; destruct filter_rot; intros E.
  - bind_inv E as rot Erot. bind_inv E as cs Ecs. bind_inv E as rs Ers.
    bind_inv E as convs Econvs.
    apply mapM_Forall2 in Econvs.
    assert (Hwf : Forall well_formed convs).
    { apply (Forall2_Forall_r _ Econvs); intros cf c _ Hc.
      now apply convolve_well_formed in Hc. }
    unfold np_sum_axis0 in E. bind_inv E as a Ea.
    destruct (np_array_inv _ Ea) as [(-> & ->) | (sh & Hne & Hsh & ->)].
    + injection E as <-; reflexivity.
    + destruct convs as [|c0 rest]; [congruence|].
      pose proof (np_sum_axis0_cons Hwf Hsh) as Es.
      unfold np_sum_axis0 in Es. rewrite Ea in Es. cbn [bind] in Es.
      rewrite Es in E. injection E as <-.
      pose proof (flat_lengths Hwf Hsh) as Hlen; simpl in Hlen.
      inversion Hlen as [|b bs Hc0 Hrest]; subst.
      unfold well_formed; simpl. now apply length_fold_vadd.
  - bind_inv E as fs Efs. bind_inv E as convs Econvs.
    apply mapM_Forall2 in Econvs.
    eapply np_array_well_formed; [eassumption|].
    apply (Forall2_Forall_r _ Econvs); intros f c _ Hc.
    now apply convolve_well_formed in Hc.
Qed.

Lemma filter_convolve_result_shape (data filters : ndarray)
    (filter_rot : bool) (m : method) (d H W K Fh Fw : nat) :
  shape filters = [K; Fh; Fw] ->
  shape data = (if filter_rot then [d; H; W] else [H; W]) ->
  exists r,
    filter_convolve data filters filter_rot m = Ok r /\
    shape r =
    if filter_rot
    then (if Nat.min d K =? 0 then [] else [H; W])
    else (if K =? 0 then [0] else [K; H; W]).
Proof.
  intros Hf Hd. destruct filter_rot.
  - destruct (mode_B_spec data filters m Hd Hf)
      as (rot & convs & _ & _ & Hlen & _ & Hwf & Hs & Erun).
    destruct (np_sum_axis0_spec Hwf Hs) as (r & Er & _ & Hr).
    exists r. split; [congruence|].
    destruct convs as [|c0 rest]; simpl in Hlen; rewrite <- Hlen; simpl.
    + now subst r.
    + apply Hr.
  - destruct (mode_A_run data filters m Hd Hf)
      as (fs & convs & _ & Hlen & _ & Hconv & Hwf & Hs & Erun).
    apply Forall2_length_eq in Hconv. rewrite Erun.
    destruct convs as [|c0 rest].
    + exists (mk_ndarray [0] []). split; [reflexivity|].
      simpl in Hconv. replace K with 0 by lia. reflexivity.
    + rewrite (@np_array_same_shape (c0 :: rest) [H; W]);
        [|discriminate|assumption].
      eexists; split; [reflexivity|]. cbn [shape].
      rewrite <- Hconv, Hlen. destruct K; [simpl in *; lia | reflexivity].
Qed.

(** ** The stack convolver *)

Lemma mapM_exists (A B : Type) (f : A -> result B) (P : B -> Prop)
    (l : list A) :
  (forall x, In x l -> exists y, f x = Ok y /\ P y) ->
  exists ys, mapM f l = Ok ys /\ Forall P ys.
Proof.
  induction l as [|x xs IH]; intros Hf; simpl.
  - exists []; split; [reflexivity | constructor].
  - destruct (Hf x) as (y & Ey & Hy); [left; reflexivity|].
    destruct IH as (ys & Eys & Hys); [intros; apply Hf; right; assumption|].
    exists (y :: ys). rewrite Ey, Eys; split; [reflexivity|].
    constructor; assumption.
Qed.

Lemma np_array_total (l : list ndarray) (sh : list nat) :
  Forall (fun y => shape y = sh) l -> exists a, np_array l = Ok a.
Proof.
  intros Hsh; destruct l as [|x xs]; [eexists; reflexivity|].
  rewrite (@np_array_same_shape (x :: xs) sh);
    [eexists; reflexivity | discriminate | assumption].
Qed.

Lemma getitem_ok_nth_error (a : ndarray) (xs : list ndarray) (k : nat)
    (x : ndarray) :
  iterate a = Ok xs -> getitem a k = Ok x -> nth_error xs k = Some x.
Proof.
  intros E Ek. rewrite (getitem_iterate a k E) in Ek.
  destruct (nth_error xs k); congruence.
Qed.

(** Whenever the stack convolver returns, each slice of its result is the
    result of the filter convolver on the corresponding element. *)
Lemma stack_law_general (data filters r : ndarray) (filter_rot : bool)
    (m : method) :
  filter_convolve_stack data filters filter_rot m = Ok r ->
  forall i xi, getitem data i = Ok xi ->
  exists ri,
    filter_convolve xi filters filter_rot m = Ok ri /\ getitem r i = Ok ri.
Proof.
  unfold filter_convolve_stack; intros E i xi Exi.
  bind_inv E as xs Exs. bind_inv E as rs Ers.
  apply mapM_Forall2 in Ers.
  pose proof (getitem_ok_nth_error data i Exs Exi) as Enth.
  destruct (Forall2_nth_error_l _ Ers Enth) as (ri & Eri & Hri).
  exists ri; split; [assumption|].
  eapply getitem_nth_error; [|eassumption].
  eapply iterate_np_array; [eassumption|].
  apply (Forall2_Forall_r _ Ers); intros x y _ Hy.
  eapply filter_convolve_well_formed; eassumption.
Qed.

(** C3. Stack law: on a valid stack (N images of shape (H, W) in Mode A, N
    coefficient stacks of shape (d, H, W) in Mode B) and a filter bank, the
    stack convolver returns, and for every index i the i-th slice of its
    result is the result of [filter_convolve] on the i-th element of the
    stack, with the same filters, mode and method. *)
Theorem stack_law (data filters : ndarray) (filter_rot : bool) (m : method)
    (N d H W K Fh Fw : nat) :
  shape filters = [K; Fh; Fw] ->
  shape data = N :: (if filter_rot then [d; H; W] else [H; W]) ->
  exists r,
    filter_convolve_stack data filters filter_rot m = Ok r /\
    forall i, i < N ->
      exists xi ri,
        getitem data i = Ok xi /\
        filter_convolve xi filters filter_rot m = Ok ri /\
        getitem r i = Ok ri.
Proof.
  intros Hf Hd.
  destruct (iterate_shape data Hd) as (xs & Exs).
  destruct (iterate_length data Hd Exs) as (Hlen & Hxs).
  set (out := if filter_rot
              then (if Nat.min d K =? 0 then [] else [H; W])
              else (if K =? 0 then [0] else [K; H; W])).
  destruct (@mapM_exists _ _
              (fun x => filter_convolve x filters filter_rot m)
              (fun y => shape y = out) xs) as (rs & Ers & Hrs).
  { intros x Hx. rewrite Forall_forall in Hxs.
    apply (filter_convolve_result_shape x filters filter_rot m d H W Hf).
    now apply Hxs. }
  destruct (np_array_total Hrs) as (r & Er).
  assert (Erun : filter_convolve_stack data filters filter_rot m = Ok r).
  { unfold filter_convolve_stack. rewrite Exs; cbn [bind].
    rewrite Ers; cbn [bind]. exact Er. }
  exists r; split; [assumption|]. intros i Hi.
  destruct (@nth_error_lt _ xs i) as (xi & Exi); [lia|].
  pose proof (getitem_nth_error data i Exs Exi) as Eg.
  destruct (stack_law_general _ _ _ _ Erun i Eg) as (ri & Eri & Hri).
  now exists xi, ri.
Qed.

Lemma stack_law_witness :
  exists r,
    filter_convolve_stack y433 y433 false scipy = Ok r /\
    forall i, i < 4 ->
      exists xi ri,
        getitem y433 i = Ok xi /\
        filter_convolve xi y433 false scipy = Ok ri /\
        getitem r i = Ok ri.
Proof.
  apply (@stack_law y433 y433 false scipy 4 0 3 3 4 3 3); reflexivity.
Defined.

(** ** [_trim_filter]: reductions and index arrays *)

Lemma fold_min_spec (xs : list Z) (x : Z) :
  In (fold_left Z.min xs x) (x :: xs) /\
  Forall (fun y => (fold_left Z.min xs x <= y)%Z) (x :: xs).
Proof.
  revert x; induction xs as [|a xs IH]; intros x; simpl.
  - split; [left; reflexivity | constructor; [lia | constructor]].
  - destruct (IH (Z.min x a)) as (Hin & Hle).
    inversion Hle as [|? ? Hm Hrest]; subst. split.
    + destruct Hin as [E | Hin]; [|right; right; assumption].
      rewrite <- E. destruct (Z.min_spec x a) as [(_ & ->) | (_ & ->)]; auto.
    + constructor; [lia|]. constructor; [lia | assumption].
Qed.

Lemma fold_max_spec (xs : list Z) (x : Z) :
  In (fold_left Z.max xs x) (x :: xs) /\
  Forall (fun y => (y <= fold_left Z.max xs x)%Z) (x :: xs).
Proof.
  revert x; induction xs as [|a xs IH]; intros x; simpl.
  - split; [left; reflexivity | constructor; [lia | constructor]].
  - destruct (IH (Z.max x a)) as (Hin & Hle).
    inversion Hle as [|? ? Hm Hrest]; subst. split.
    + destruct Hin as [E | Hin]; [|right; right; assumption].
      rewrite <- E. destruct (Z.max_spec x a) as [(_ & ->) | (_ & ->)]; auto.
    + constructor; [lia|]. constructor; [lia | assumption].
Qed.

Lemma zmin_list_spec (l : list Z) :
  l <> [] ->
  In (zmin_list l) l /\ forall y, In y l -> (zmin_list l <= y)%Z.
Proof.
  destruct l as [|x xs]; [congruence|]; intros _.
  destruct (fold_min_spec xs x) as (Hin & Hle).
  split; [assumption|]. now apply Forall_forall.
Qed.

Lemma zmax_list_spec (l : list Z) :
  l <> [] ->
  In (zmax_list l) l /\ forall y, In y l -> (y <= zmax_list l)%Z.
Proof.
  destruct l as [|x xs]; [congruence|]; intros _.
  destruct (fold_max_spec xs x) as (Hin & Hle).
  split; [assumption|]. now apply Forall_forall.
Qed.

Lemma nonzero_positions_In (buf : list Z) (p : nat) :
  In p (nonzero_positions buf) <-> p < length buf /\ nth p buf 0%Z <> 0%Z.
Proof.
  unfold nonzero_positions. rewrite filter_In, in_seq, negb_true_iff.
  rewrite Z.eqb_neq. intuition lia.
Qed.

Lemma reduce_last_rows (f : list Z -> Z) (rows cols : list Z) (n : nat) :
  length rows = n -> length cols = n -> n <> 0 ->
  reduce_last f (mk_ndarray [2; n] (concat [rows; cols]))
  = Ok (mk_ndarray [2] [f rows; f cols]).
Proof.
  intros Hr Hc Hn. unfold reduce_last; cbn [shape rev app flat].
  apply Nat.eqb_neq in Hn; rewrite Hn.
  assert (F : Forall (fun l : list Z => length l = n) [rows; cols])
    by (repeat constructor; assumption).
  cbn [size_of fold_right Nat.mul Nat.add seq map].
  rewrite !(chunk_concat F) by (simpl; lia). reflexivity.
Qed.

Lemma reduce_last_no_entry (f : list Z -> Z) (buf : list Z) :
  reduce_last f (mk_ndarray [2; 0] buf) = Err ValueError.
Proof. reflexivity. Qed.

Lemma getitem_int_pair (a b : Z) :
  getitem_int (mk_ndarray [2] [a; b]) 0 = Ok a /\
  getitem_int (mk_ndarray [2] [a; b]) 1 = Ok b.
Proof. split; reflexivity. Qed.

Lemma slice_bounds_in_range (n lo hi : nat) :
  lo <= n -> hi <= n ->
  slice_bounds n (Z.of_nat lo) (Z.of_nat hi) = (lo, hi).
Proof.
  intros Hlo Hhi; unfold slice_bounds.
  destruct (Z.ltb_spec (Z.of_nat lo) 0); [lia|].
  destruct (Z.ltb_spec (Z.of_nat hi) 0); [lia|].
  f_equal; lia.
Qed.

(** The index arrays of a 2-D array: rows and columns of the non-zero
    entries. *)
Lemma np_where_nonzero_2d (a : ndarray) (H W : nat) :
  shape a = [H; W] ->
  np_where_nonzero a
  = [mk_ndarray [length (nonzero_positions (flat a))]
       (map (fun p => Z.of_nat (p / W)) (nonzero_positions (flat a)));
     mk_ndarray [length (nonzero_positions (flat a))]
       (map (fun p => Z.of_nat (p mod W)) (nonzero_positions (flat a)))].
Proof.
  intros Hs; unfold np_where_nonzero, ndim; rewrite Hs.
  cbn [length seq map unravel size_of fold_right nth].
  rewrite Nat.mul_1_r. do 2 f_equal. f_equal.
  apply map_ext; intros p. now rewrite Nat.div_1_r.
Qed.

Lemma trim_filter_2d (f : ndarray) (H W : nat) :
  shape f = [H; W] ->
  let ps := nonzero_positions (flat f) in
  let rows := map (fun p => Z.of_nat (p / W)) ps in
  let cols := map (fun p => Z.of_nat (p mod W)) ps in
  _trim_filter f =
  match ps with
  | [] => Err ValueError
  | _ :: _ =>
      getitem_slice2 f (zmin_list rows) (zmax_list rows + 1)
                       (zmin_list cols) (zmax_list cols + 1)
  end.
Proof.
  intros Hs ps rows cols. unfold _trim_filter.
  rewrite (np_where_nonzero_2d f Hs). fold ps. fold rows. fold cols.
  rewrite (@np_array_same_shape _ [length ps]);
    [|discriminate | repeat constructor].
  cbn [bind length map flat]. unfold np_min_last, np_max_last.
  destruct ps as [|p0 ps'] eqn:Eps.
  - reflexivity.
  - assert (Hr : length rows = length (p0 :: ps'))
      by (unfold rows; now rewrite length_map).
    assert (Hc : length cols = length (p0 :: ps'))
      by (unfold cols; now rewrite length_map).
    rewrite !(@reduce_last_rows _ rows cols _ Hr Hc) by (simpl; lia).
    cbn [bind].
    destruct (getitem_int_pair (zmin_list rows) (zmin_list cols)) as (-> & ->).
    destruct (getitem_int_pair (zmax_list rows) (zmax_list cols)) as (-> & ->).
    reflexivity.
Qed.

(** ** [_trim_filter]: the slice *)

Lemma chunk_one (l : list Z) (p : nat) :
  p < length l -> chunk 1 p l = [nth p l 0%Z].
Proof.
  unfold chunk; rewrite Nat.mul_1_r.
  revert p; induction l as [|a l IH]; intros [|p] Hp; simpl in *; try lia.
  - reflexivity.
  - apply IH; lia.
Qed.

Lemma flat_map_ext_In (A B : Type) (f g : A -> list B) (l : list A) :
  (forall x, In x l -> f x = g x) -> flat_map f l = flat_map g l.
Proof.
  induction l as [|x xs IH]; intros Hfg; simpl; [reflexivity|].
  rewrite (Hfg x) by (left; reflexivity).
  rewrite IH by (intros; apply Hfg; right; assumption). reflexivity.
Qed.

Lemma flat_map_singleton (A B : Type) (f : A -> list B) (g : A -> B)
    (l : list A) :
  (forall x, In x l -> f x = [g x]) -> flat_map f l = map g l.
Proof.
  induction l as [|x xs IH]; intros Hfg; simpl; [reflexivity|].
  rewrite (Hfg x) by (left; reflexivity).
  rewrite IH by (intros; apply Hfg; right; assumption). reflexivity.
Qed.

Lemma flat_map_seq_offset (A : Type) (f : nat -> list A) (a n : nat) :
  flat_map f (seq a n) = flat_map (fun i => f (a + i)) (seq 0 n).
Proof.
  revert a f; induction n as [|n IH]; intros a f; simpl; [reflexivity|].
  rewrite Nat.add_0_r. f_equal.
  rewrite (IH (S a) f), (IH 1 (fun i => f (a + i))).
  apply flat_map_ext_In; intros i _. f_equal; lia.
Qed.

Lemma getitem_slice2_2d (f : ndarray) (H W r0 r1 c0 c1 : nat) :
  shape f = [H; W] -> well_formed f ->
  r0 <= r1 < H -> c0 <= c1 < W ->
  getitem_slice2 f (Z.of_nat r0) (Z.of_nat r1 + 1)
                   (Z.of_nat c0) (Z.of_nat c1 + 1)
  = Ok (tabulate2 (r1 + 1 - r0) (c1 + 1 - c0)
                  (fun i j => get2 f (r0 + i) (c0 + j))).
Proof.
  intros Hs Hwf Hr Hc. unfold getitem_slice2; rewrite Hs.
  replace (Z.of_nat r1 + 1)%Z with (Z.of_nat (r1 + 1)) by lia.
  replace (Z.of_nat c1 + 1)%Z with (Z.of_nat (c1 + 1)) by lia.
  rewrite !slice_bounds_in_range by lia.
  cbn [size_of fold_right]. unfold tabulate2. do 2 f_equal.
  rewrite flat_map_seq_offset.
  apply flat_map_ext_In; intros i Hi. apply in_seq in Hi.
  rewrite flat_map_seq_offset.
  apply flat_map_singleton; intros j Hj. apply in_seq in Hj.
  rewrite (get2_flat f _ _ Hs).
  apply chunk_one. unfold well_formed in Hwf.
  rewrite Hwf, Hs, size_of_2. nia.
Qed.

Lemma position_entry (f : ndarray) (H W p : nat) :
  shape f = [H; W] -> well_formed f ->
  In p (nonzero_positions (flat f)) ->
  0 < W /\ p / W < H /\ p mod W < W /\ get2 f (p / W) (p mod W) <> 0%Z.
Proof.
  intros Hs Hwf Hp. apply nonzero_positions_In in Hp.
  destruct Hp as (Hlt & Hnz). unfold well_formed in Hwf.
  rewrite Hwf, Hs, size_of_2 in Hlt.
  assert (HW : 0 < W) by nia.
  split; [assumption|].
  split; [apply Nat.Div0.div_lt_upper_bound; lia|].
  split; [apply Nat.mod_upper_bound; lia|].
  rewrite (get2_flat f _ _ Hs).
  replace (p / W * W + p mod W) with p; [assumption|].
  rewrite (Nat.div_mod_eq p W) at 1. lia.
Qed.

Lemma entry_position (f : ndarray) (H W i j : nat) :
  shape f = [H; W] -> well_formed f ->
  i < H -> j < W -> get2 f i j <> 0%Z ->
  In (i * W + j) (nonzero_positions (flat f)) /\
  (i * W + j) / W = i /\ (i * W + j) mod W = j.
Proof.
  intros Hs Hwf Hi Hj Hnz. rewrite (get2_flat f _ _ Hs) in Hnz.
  split; [|split].
  - apply nonzero_positions_In. split; [|assumption].
    unfold well_formed in Hwf. rewrite Hwf, Hs, size_of_2. nia.
  - symmetry; apply (Nat.div_unique _ _ _ j); lia.
  - symmetry; apply (Nat.mod_unique _ _ i); lia.
Qed.

Lemma in_index_list (W : nat) (g : nat -> nat) (ps : list nat) (z : Z) :
  In z (map (fun p => Z.of_nat (g p)) ps) ->
  exists p, In p ps /\ z = Z.of_nat (g p).
Proof.
  intros Hz; apply in_map_iff in Hz. destruct Hz as (p & <- & Hp).
  now exists p.
Qed.

(** C10. For a 2-D filter with at least one non-zero entry, [_trim_filter]
    returns the sub-array on rows r0..r1 and columns c0..c1, where the box
    contains every non-zero entry and each of its four border lines holds a
    non-zero entry (the minimal bounding box); for an all-zero filter it
    fails with the [ValueError] of the reduction over an empty index set. *)
Theorem trim_filter_bounding_box (f : ndarray) (H W : nat) :
  shape f = [H; W] -> well_formed f ->
  ((exists i j, i < H /\ j < W /\ get2 f i j <> 0%Z) ->
   exists r0 r1 c0 c1 t,
     _trim_filter f = Ok t /\
     r0 <= r1 < H /\ c0 <= c1 < W /\
     shape t = [r1 - r0 + 1; c1 - c0 + 1] /\
     (forall i j, i <= r1 - r0 -> j <= c1 - c0 ->
        get2 t i j = get2 f (r0 + i) (c0 + j)) /\
     (forall i j, i < H -> j < W -> get2 f i j <> 0%Z ->
        r0 <= i <= r1 /\ c0 <= j <= c1) /\
     (exists j, j < W /\ get2 f r0 j <> 0%Z) /\
     (exists j, j < W /\ get2 f r1 j <> 0%Z) /\
     (exists i, i < H /\ get2 f i c0 <> 0%Z) /\
     (exists i, i < H /\ get2 f i c1 <> 0%Z)) /\
  ((forall i j, i < H -> j < W -> get2 f i j = 0%Z) ->
   _trim_filter f = Err ValueError).
Proof.
  intros Hs Hwf. pose proof (trim_filter_2d f Hs) as Erun. cbv zeta in Erun.
  set (ps := nonzero_positions (flat f)) in *.
  split.
  - intros (i0 & j0 & Hi0 & Hj0 & Hnz0).
    destruct (@entry_position f H W i0 j0 Hs Hwf Hi0 Hj0 Hnz0) as (Hin0 & _ & _).
    fold ps in Hin0.
    set (rows := map (fun p => Z.of_nat (p / W)) ps) in *.
    set (cols := map (fun p => Z.of_nat (p mod W)) ps) in *.
    assert (Hrows : rows <> []).
    { unfold rows; destruct ps; [contradiction | discriminate]. }
    assert (Hcols : cols <> []).
    { unfold cols; destruct ps; [contradiction | discriminate]. }
    destruct (zmin_list_spec Hrows) as (Ha & Hmin_r).
    destruct (zmax_list_spec Hrows) as (Hb & Hmax_r).
    destruct (zmin_list_spec Hcols) as (Hc & Hmin_c).
    destruct (zmax_list_spec Hcols) as (Hd & Hmax_c).
    apply (in_index_list W (fun p => p / W)) in Ha.
    apply (in_index_list W (fun p => p / W)) in Hb.
    apply (in_index_list W (fun p => p mod W)) in Hc.
    apply (in_index_list W (fun p => p mod W)) in Hd.
    destruct Ha as (pa & Hpa & Ea). destruct Hb as (pb & Hpb & Eb).
    destruct Hc as (pc & Hpc & Ec). destruct Hd as (pd & Hpd & Ed).
    rewrite Ea, Eb, Ec, Ed in Erun.
    assert (Hrow : forall p, In p ps -> pa / W <= p / W <= pb / W).
    { intros p Hp.
      assert (Hz : In (Z.of_nat (p / W)) rows)
        by (unfold rows; apply in_map_iff; now exists p).
      pose proof (Hmin_r _ Hz). pose proof (Hmax_r _ Hz). lia. }
    assert (Hcol : forall p, In p ps -> pc mod W <= p mod W <= pd mod W).
    { intros p Hp.
      assert (Hz : In (Z.of_nat (p mod W)) cols)
        by (unfold cols; apply in_map_iff; now exists p).
      pose proof (Hmin_c _ Hz). pose proof (Hmax_c _ Hz). lia. }
    destruct (@position_entry f H W pa Hs Hwf Hpa) as (HW & Hra & Hca & Hnza).
    destruct (@position_entry f H W pb Hs Hwf Hpb) as (_ & Hrb & Hcb & Hnzb).
    destruct (@position_entry f H W pc Hs Hwf Hpc) as (_ & Hrc & Hcc & Hnzc).
    destruct (@position_entry f H W pd Hs Hwf Hpd) as (_ & Hrd & Hcd & Hnzd).
    assert (Hr01 : pa / W <= pb / W < H) by (pose proof (Hrow pa Hpa); lia).
    assert (Hc01 : pc mod W <= pd mod W < W)
      by (pose proof (Hcol pc Hpc); lia).
    destruct ps as [|p0 ps'] eqn:Eps; [contradiction|].
    rewrite (@getitem_slice2_2d f H W _ _ _ _ Hs Hwf Hr01 Hc01) in Erun.
    exists (pa / W), (pb / W), (pc mod W), (pd mod W).
    eexists; split; [exact Erun|].
    split; [assumption|]. split; [assumption|].
    split; [unfold tabulate2; cbn [shape]; f_equal; [lia | f_equal; lia]|].
    split; [intros i j Hi Hj; rewrite get2_tabulate2 by lia; reflexivity|].
    split.
    { intros i j Hi Hj Hnz.
      destruct (@entry_position f H W i j Hs Hwf Hi Hj Hnz) as (Hin & Ediv & Emod).
      fold ps in Hin. rewrite Eps in Hin.
      pose proof (Hrow _ Hin) as Hr. pose proof (Hcol _ Hin) as Hc'.
      rewrite Ediv in Hr. rewrite Emod in Hc'. lia. }
    split; [exists (pa mod W); auto|].
    split; [exists (pb mod W); auto|].
    split; [exists (pc / W); auto | exists (pd / W); auto].
  - intros Hzero. rewrite Erun.
    destruct ps as [|p0 ps'] eqn:Eps; [reflexivity|].
    assert (Hp0 : In p0 (nonzero_positions (flat f)))
      by (fold ps; rewrite Eps; left; reflexivity).
    destruct (@position_entry f H W p0 Hs Hwf Hp0) as (_ & Hr & Hc & Hnz).
    exfalso; apply Hnz. now apply Hzero.
Qed.

Lemma trim_filter_bounding_box_witness :
  (exists r0 r1 c0 c1 t,
     _trim_filter
       (mk_ndarray [4; 5]
          [0; 0; 0; 0; 0;  0; 0; 3; 0; 0;  0; 1; 0; 2; 0;  0; 0; 0; 0; 0]%Z)
     = Ok t /\
     r0 <= r1 < 4 /\ c0 <= c1 < 5 /\
     shape t = [r1 - r0 + 1; c1 - c0 + 1]) /\
  _trim_filter (mk_ndarray [2; 2] [0; 0; 0; 0]%Z) = Err ValueError.
Proof.
  split.
  - destruct (@trim_filter_bounding_box
                (mk_ndarray [4; 5]
                   [0; 0; 0; 0; 0;  0; 0; 3; 0; 0;  0; 1; 0; 2; 0;
                    0; 0; 0; 0; 0]%Z) 4 5 eq_refl eq_refl) as (Hbox & _).
    destruct Hbox as (r0 & r1 & c0 & c1 & t & Et & Hr & Hc & Hs & _).
    + exists 1, 2. split; [lia|]. split; [lia|]. vm_compute; discriminate.
    + exists r0, r1, c0, c1, t. repeat split; assumption || lia.
  - apply (@trim_filter_bounding_box (mk_ndarray [2; 2] [0; 0; 0; 0]%Z) 2 2
             eq_refl eq_refl).
    intros [|[|i]] [|[|j]] Hi Hj; reflexivity || lia.
Defined.

(** ** The examples of the docstring *)

(** C7. [filter_convolve(x, y)] on [x = arange(9).reshape(3, 3)] and
    [y = arange(36).reshape(4, 3, 3)]: the result has shape (4, 3, 3), but
    the top-left value of its first slice is 6, not the 174 of the
    docstring, and the array differs from the one printed there. *)
Theorem docstring_example_A_run :
  filter_convolve x33 y433 false scipy
  = Ok (mk_ndarray [4; 3; 3]
          [6; 20; 26; 36; 84; 84; 90; 164; 134;
           78; 155; 134; 225; 408; 327; 270; 461; 350;
           150; 290; 242; 414; 732; 570; 450; 758; 566;
           222; 425; 350; 603; 1056; 813; 630; 1055; 782]%Z) /\
  (exists r s0,
     filter_convolve x33 y433 false scipy = Ok r /\
     shape r = [4; 3; 3] /\ getitem r 0 = Ok s0 /\
     get2 s0 0 0 = 6%Z /\ get2 s0 0 0 <> 174%Z) /\
  filter_convolve x33 y433 false scipy <> Ok docstring_example_A.
Proof.
  split; [vm_compute; reflexivity|]. split.
  - eexists; eexists. split; [vm_compute; reflexivity|].
    split; [reflexivity|]. split; [vm_compute; reflexivity|].
    split; [reflexivity | vm_compute; discriminate].
  - vm_compute; discriminate.
Qed.

(** C8. [filter_convolve(y, y, filter_rot=True)] on
    [y = arange(36).reshape(4, 3, 3)]: the result is a single (3, 3) array,
    but its top-left value is 6496, not the 14550 of the docstring; only the
    centre value, 14910, is the one printed there. *)
Theorem docstring_example_B_run :
  filter_convolve y433 y433 true scipy
  = Ok (mk_ndarray [3; 3]
          [6496; 9796; 6544; 9924; 14910; 9924; 6544; 9796; 6496]%Z) /\
  (exists r,
     filter_convolve y433 y433 true scipy = Ok r /\
     shape r = [3; 3] /\
     get2 r 0 0 = 6496%Z /\ get2 r 0 0 <> 14550%Z /\
     get2 r 1 1 = get2 docstring_example_B 1 1) /\
  filter_convolve y433 y433 true scipy <> Ok docstring_example_B.
Proof.
  split; [vm_compute; reflexivity|]. split.
  - eexists. split; [vm_compute; reflexivity|].
    split; [reflexivity|]. split; [reflexivity|].
    split; [vm_compute; discriminate | reflexivity].
  - vm_compute; discriminate.
Qed.

(** * Further properties *)

(** ** [_trim_filter]: the returned box *)

Lemma tabulate2_get2 (a : ndarray) (H W : nat) :
  shape a = [H; W] -> well_formed a -> tabulate2 H W (get2 a) = a.
Proof.
  intros Hs Hwf. rewrite (ndarray_eta a) at 2. rewrite Hs.
  unfold tabulate2; f_equal.
  pose proof (tabulate2_well_formed H W (get2 a)) as Hlen.
  unfold well_formed, tabulate2 in Hlen; cbn [shape flat] in Hlen.
  rewrite size_of_2 in Hlen. unfold well_formed in Hwf.
  rewrite Hs, size_of_2 in Hwf.
  apply (nth_ext _ _ 0%Z 0%Z); [congruence|].
  intros p Hp. rewrite Hlen in Hp.
  assert (HW : 0 < W) by nia.
  assert (Hi : p / W < H) by (apply Nat.Div0.div_lt_upper_bound; lia).
  assert (Hj : p mod W < W) by (apply Nat.mod_upper_bound; lia).
  assert (Ep : p = p / W * W + p mod W)
    by (rewrite (Nat.div_mod_eq p W) at 1; lia).
  pose proof (@get2_tabulate2 H W (get2 a) _ _ Hi Hj) as E.
  unfold get2 at 1 in E. unfold tabulate2 in E; cbn [shape flat] in E.
  rewrite <- Ep in E. rewrite E.
  rewrite (get2_flat a _ _ Hs). now rewrite <- Ep.
Qed.

Lemma trim_filter_box (f : ndarray) (H W : nat) :
  shape f = [H; W] -> well_formed f ->
  (exists i j, i < H /\ j < W /\ get2 f i j <> 0%Z) ->
  exists r0 r1 c0 c1,
    _trim_filter f
    = Ok (tabulate2 (r1 + 1 - r0) (c1 + 1 - c0)
            (fun i j => get2 f (r0 + i) (c0 + j))) /\
    r0 <= r1 < H /\ c0 <= c1 < W /\
    (forall i j, i < H -> j < W -> get2 f i j <> 0%Z ->
       r0 <= i <= r1 /\ c0 <= j <= c1) /\
    (exists j, j < W /\ get2 f r0 j <> 0%Z) /\
    (exists j, j < W /\ get2 f r1 j <> 0%Z) /\
    (exists i, i < H /\ get2 f i c0 <> 0%Z) /\
    (exists i, i < H /\ get2 f i c1 <> 0%Z).
Proof.
  intros Hs Hwf (i0 & j0 & Hi0 & Hj0 & Hnz0).
  pose proof (trim_filter_2d f Hs) as Erun. cbv zeta in Erun.
  set (ps := nonzero_positions (flat f)) in *.
  destruct (@entry_position f H W i0 j0 Hs Hwf Hi0 Hj0 Hnz0) as (Hin0 & _ & _).
  fold ps in Hin0.
  set (rows := map (fun p => Z.of_nat (p / W)) ps) in *.
  set (cols := map (fun p => Z.of_nat (p mod W)) ps) in *.
  assert (Hrows : rows <> [])
    by (unfold rows; destruct ps; [contradiction | discriminate]).
  assert (Hcols : cols <> [])
    by (unfold cols; destruct ps; [contradiction | discriminate]).
  destruct (zmin_list_spec Hrows) as (Ha & Hmin_r).
  destruct (zmax_list_spec Hrows) as (Hb & Hmax_r).
  destruct (zmin_list_spec Hcols) as (Hc & Hmin_c).
  destruct (zmax_list_spec Hcols) as (Hd & Hmax_c).
  apply (in_index_list W (fun p => p / W)) in Ha, Hb.
  apply (in_index_list W (fun p => p mod W)) in Hc, Hd.
  destruct Ha as (pa & Hpa & Ea). destruct Hb as (pb & Hpb & Eb).
  destruct Hc as (pc & Hpc & Ec). destruct Hd as (pd & Hpd & Ed).
  rewrite Ea, Eb, Ec, Ed in Erun.
  assert (Hrow : forall p, In p ps -> pa / W <= p / W <= pb / W).
  { intros p Hp.
    assert (Hz : In (Z.of_nat (p / W)) rows)
      by (unfold rows; apply in_map_iff; now exists p).
    pose proof (Hmin_r _ Hz). pose proof (Hmax_r _ Hz). lia. }
  assert (Hcol : forall p, In p ps -> pc mod W <= p mod W <= pd mod W).
  { intros p Hp.
    assert (Hz : In (Z.of_nat (p mod W)) cols)
      by (unfold cols; apply in_map_iff; now exists p).
    pose proof (Hmin_c _ Hz). pose proof (Hmax_c _ Hz). lia. }
  destruct (@position_entry f H W pa Hs Hwf Hpa) as (HW & Hra & Hca & Hnza).
  destruct (@position_entry f H W pb Hs Hwf Hpb) as (_ & Hrb & Hcb & Hnzb).
  destruct (@position_entry f H W pc Hs Hwf Hpc) as (_ & Hrc & Hcc & Hnzc).
  destruct (@position_entry f H W pd Hs Hwf Hpd) as (_ & Hrd & Hcd & Hnzd).
  assert (Hr01 : pa / W <= pb / W < H) by (pose proof (Hrow pa Hpa); lia).
  assert (Hc01 : pc mod W <= pd mod W < W) by (pose proof (Hcol pc Hpc); lia).
  destruct ps as [|p0 ps'] eqn:Eps; [contradiction|].
  rewrite (@getitem_slice2_2d f H W _ _ _ _ Hs Hwf Hr01 Hc01) in Erun.
  exists (pa / W), (pb / W), (pc mod W), (pd mod W).
  split; [exact Erun|]. split; [assumption|]. split; [assumption|].
  split.
  { intros i j Hi Hj Hnz.
    destruct (@entry_position f H W i j Hs Hwf Hi Hj Hnz) as (Hin & Ediv & Emod).
    fold ps in Hin. rewrite Eps in Hin.
    pose proof (Hrow _ Hin) as Hr. pose proof (Hcol _ Hin) as Hc'.
    rewrite Ediv in Hr. rewrite Emod in Hc'. lia. }
  split; [exists (pa mod W); auto|].
  split; [exists (pb mod W); auto|].
  split; [exists (pc / W); auto | exists (pd / W); auto].
Qed.

Lemma trim_filter_ok_nonzero (f t : ndarray) (H W : nat) :
  shape f = [H; W] -> well_formed f -> _trim_filter f = Ok t ->
  exists i j, i < H /\ j < W /\ get2 f i j <> 0%Z.
Proof.
  intros Hs Hwf Et. pose proof (trim_filter_2d f Hs) as Erun.
  cbv zeta in Erun. rewrite Et in Erun.
  destruct (nonzero_positions (flat f)) as [|p0 ps] eqn:Eps; [discriminate|].
  assert (Hp0 : In p0 (nonzero_positions (flat f)))
    by (rewrite Eps; left; reflexivity).
  destruct (@position_entry f H W p0 Hs Hwf Hp0) as (_ & Hr & Hc & Hnz).
  now exists (p0 / W), (p0 mod W).
Qed.

(** A filter whose first and last rows and first and last columns each hold
    a non-zero coefficient has nothing to trim: [_trim_filter] returns it
    unchanged. *)
Lemma trim_filter_tight (f : ndarray) (H W : nat) :
  shape f = [H; W] -> well_formed f ->
  (exists j, j < W /\ get2 f 0 j <> 0%Z) ->
  (exists j, j < W /\ get2 f (H - 1) j <> 0%Z) ->
  (exists i, i < H /\ get2 f i 0 <> 0%Z) ->
  (exists i, i < H /\ get2 f i (W - 1) <> 0%Z) ->
  _trim_filter f = Ok f.
Proof.
  intros Hs Hwf (ja & Hja & Ha) (jb & Hjb & Hb) (ic & Hic & Hc) (id & Hid & Hd).
  destruct (@trim_filter_box f H W Hs Hwf)
    as (r0 & r1 & c0 & c1 & Et & Hr & Hcc & Hin & _).
  { exists 0, ja. repeat split; auto; lia. }
  assert (H0 : 0 < H) by lia. assert (W0 : 0 < W) by lia.
  destruct (Hin 0 ja H0 Hja Ha) as (Hr0 & _).
  destruct (Hin (H - 1) jb ltac:(lia) Hjb Hb) as (Hr1 & _).
  destruct (Hin ic 0 Hic W0 Hc) as (_ & Hc0).
  destruct (Hin id (W - 1) Hid ltac:(lia) Hd) as (_ & Hc1).
  assert (r0 = 0) by lia. assert (r1 = H - 1) by lia.
  assert (c0 = 0) by lia. assert (c1 = W - 1) by lia. subst.
  rewrite Et. f_equal.
  replace (H - 1 + 1 - 0) with H by lia.
  replace (W - 1 + 1 - 0) with W by lia.
  now apply tabulate2_get2.
Qed.

Lemma map_seq_offset (A : Type) (g : nat -> A) (a n : nat) :
  map g (seq a n) = map (fun i => g (a + i)) (seq 0 n).
Proof.
  revert a; induction n as [|n IH]; intros a; simpl; [reflexivity|].
  rewrite Nat.add_0_r. f_equal.
  rewrite (IH (S a)), <- seq_shift, map_map.
  apply map_ext; intros i. f_equal; lia.
Qed.

Lemma zsum_all_zero (A : Type) (g : A -> Z) (l : list A) :
  (forall x, In x l -> g x = 0%Z) -> zsum (map g l) = 0%Z.
Proof.
  intros Hg. rewrite (@zsum_map_ext _ g (fun _ => 0%Z) l Hg).
  apply zsum_map_zero.
Qed.

(** A sum whose terms vanish outside the window [a, a + len) is the sum
    over the window. *)
Lemma zsum_seq_window (g : nat -> Z) (a len n : nat) :
  a + len <= n ->
  (forall i, i < n -> i < a \/ a + len <= i -> g i = 0%Z) ->
  zsum (map g (seq 0 n)) = zsum (map (fun i => g (a + i)) (seq 0 len)).
Proof.
  intros Hn Hz.
  replace n with (a + (len + (n - a - len))) by lia.
  rewrite !seq_app, !map_app, !zsum_app. simpl Nat.add.
  rewrite (zsum_all_zero g (seq 0 a)).
  2:{ intros i Hi; apply in_seq in Hi; apply Hz; lia. }
  rewrite (zsum_all_zero g (seq (a + len) (n - a - len))).
  2:{ intros i Hi; apply in_seq in Hi; apply Hz; lia. }
  rewrite map_seq_offset. lia.
Qed.

(** X2. A 2-D filter whose first and last rows and first and last columns
    each hold a non-zero coefficient needs no trimming: [_trim_filter]
    returns it unchanged. *)
Theorem trim_filter_unchanged_when_tight (f : ndarray) (H W : nat) :
  shape f = [H; W] -> well_formed f ->
  (exists j, j < W /\ get2 f 0 j <> 0%Z) ->
  (exists j, j < W /\ get2 f (H - 1) j <> 0%Z) ->
  (exists i, i < H /\ get2 f i 0 <> 0%Z) ->
  (exists i, i < H /\ get2 f i (W - 1) <> 0%Z) ->
  _trim_filter f = Ok f.
Proof. apply trim_filter_tight. Qed.

Lemma trim_filter_unchanged_when_tight_witness :
  _trim_filter (mk_ndarray [2; 3] [0; 3; 0;  1; 0; 2]%Z)
  = Ok (mk_ndarray [2; 3] [0; 3; 0;  1; 0; 2]%Z).
Proof.
  apply (@trim_filter_unchanged_when_tight
           (mk_ndarray [2; 3] [0; 3; 0;  1; 0; 2]%Z) 2 3 eq_refl eq_refl).
  - exists 1; split; [lia | vm_compute; discriminate].
  - exists 0; split; [lia | vm_compute; discriminate].
  - exists 1; split; [lia | vm_compute; discriminate].
  - exists 1; split; [lia | vm_compute; discriminate].
Defined.

(** X1. Trimming is idempotent: a trimmed filter is returned unchanged by a
    second trimming. *)
Theorem trim_filter_idempotent (f t : ndarray) (H W : nat) :
  shape f = [H; W] -> well_formed f ->
  _trim_filter f = Ok t -> _trim_filter t = Ok t.
Proof.
  intros Hs Hwf Et.
  destruct (@trim_filter_ok_nonzero f t H W Hs Hwf Et) as (i0 & j0 & Hnz).
  destruct (@trim_filter_box f H W Hs Hwf)
    as (r0 & r1 & c0 & c1 & Et' & Hr & Hc & Hin & Ba & Bb & Bc & Bd).
  { now exists i0, j0. }
  rewrite Et in Et'. injection Et' as ->.
  destruct Ba as (ja & Hja & Ha). destruct Bb as (jb & Hjb & Hb).
  destruct Bc as (ic & Hic & Hcz). destruct Bd as (id & Hid & Hd).
  destruct (Hin r0 ja ltac:(lia) Hja Ha) as (_ & Hca).
  destruct (Hin r1 jb ltac:(lia) Hjb Hb) as (_ & Hcb).
  destruct (Hin ic c0 Hic ltac:(lia) Hcz) as (Hrc & _).
  destruct (Hin id c1 Hid ltac:(lia) Hd) as (Hrd & _).
  apply (@trim_filter_tight _ (r1 + 1 - r0) (c1 + 1 - c0));
    [reflexivity | apply tabulate2_well_formed | | | |].
  - exists (ja - c0). split; [lia|].
    rewrite get2_tabulate2 by lia.
    replace (r0 + 0) with r0 by lia. replace (c0 + (ja - c0)) with ja by lia.
    assumption.
  - exists (jb - c0). split; [lia|].
    rewrite get2_tabulate2 by lia.
    replace (r0 + (r1 + 1 - r0 - 1)) with r1 by lia.
    replace (c0 + (jb - c0)) with jb by lia. assumption.
  - exists (ic - r0). split; [lia|].
    rewrite get2_tabulate2 by lia.
    replace (r0 + (ic - r0)) with ic by lia.
    replace (c0 + 0) with c0 by lia. assumption.
  - exists (id - r0). split; [lia|].
    rewrite get2_tabulate2 by lia.
    replace (r0 + (id - r0)) with id by lia.
    replace (c0 + (c1 + 1 - c0 - 1)) with c1 by lia. assumption.
Qed.

Lemma trim_filter_idempotent_witness :
  _trim_filter (mk_ndarray [2; 3] [0; 3; 0;  1; 0; 2]%Z)
  = Ok (mk_ndarray [2; 3] [0; 3; 0;  1; 0; 2]%Z).
Proof.
  apply (@trim_filter_idempotent
           (mk_ndarray [4; 5]
              [0; 0; 0; 0; 0;  0; 0; 3; 0; 0;  0; 1; 0; 2; 0;
               0; 0; 0; 0; 0]%Z)
           (mk_ndarray [2; 3] [0; 3; 0;  1; 0; 2]%Z) 4 5 eq_refl eq_refl).
  reflexivity.
Defined.

(** X3. Trimming removes zero coefficients only, so the sum of the
    coefficients of a filter is unchanged. *)
Theorem trim_filter_keeps_sum (f t : ndarray) (H W : nat) :
  shape f = [H; W] -> well_formed f ->
  _trim_filter f = Ok t -> zsum (flat t) = zsum (flat f).
Proof.
  intros Hs Hwf Et.
  destruct (@trim_filter_ok_nonzero f t H W Hs Hwf Et) as (i0 & j0 & Hnz).
  destruct (@trim_filter_box f H W Hs Hwf)
    as (r0 & r1 & c0 & c1 & Et' & Hr & Hc & Hin & _).
  { now exists i0, j0. }
  rewrite Et in Et'. injection Et' as ->.
  replace (flat f) with (flat (tabulate2 H W (get2 f)))
    by (now rewrite (@tabulate2_get2 f H W Hs Hwf)).
  unfold tabulate2; cbn [flat]. rewrite !zsum_flat_map.
  assert (Hout : forall i j, i < H -> j < W ->
            (i < r0 \/ r1 < i \/ j < c0 \/ c1 < j) -> get2 f i j = 0%Z).
  { intros i j Hi Hj Ho. destruct (Z.eq_dec (get2 f i j) 0) as [E|E]; auto.
    destruct (Hin i j Hi Hj E). lia. }
  symmetry.
  rewrite (@zsum_seq_window _ r0 (r1 + 1 - r0) H) by
    (try lia; intros i Hi Ho; apply zsum_all_zero; intros j Hj;
     apply in_seq in Hj; apply Hout; lia).
  apply zsum_map_ext; intros i Hi. apply in_seq in Hi.
  apply (@zsum_seq_window (fun j => get2 f (r0 + i) j) c0 (c1 + 1 - c0) W);
    [lia|]. intros j Hj Ho. apply Hout; lia.
Qed.

Lemma trim_filter_keeps_sum_witness :
  zsum (flat (mk_ndarray [2; 3] [0; 3; 0;  1; 0; 2]%Z))
  = zsum (flat (mk_ndarray [4; 5]
                  [0; 0; 0; 0; 0;  0; 0; 3; 0; 0;  0; 1; 0; 2; 0;
                   0; 0; 0; 0; 0]%Z)).
Proof.
  apply (@trim_filter_keeps_sum
           (mk_ndarray [4; 5]
              [0; 0; 0; 0; 0;  0; 0; 3; 0; 0;  0; 1; 0; 2; 0;
               0; 0; 0; 0; 0]%Z)
           (mk_ndarray [2; 3] [0; 3; 0;  1; 0; 2]%Z) 4 5 eq_refl eq_refl).
  reflexivity.
Defined.

(** ** [_trim_filter]: arrays of other ranks and arrays without non-zero
    entries *)

Lemma nonzero_positions_nil (buf : list Z) :
  (forall p, p < length buf -> nth p buf 0%Z = 0%Z) ->
  nonzero_positions buf = [].
Proof.
  intros Hz. destruct (nonzero_positions buf) as [|p ps] eqn:E; [reflexivity|].
  assert (Hp : In p (nonzero_positions buf)) by (rewrite E; left; reflexivity).
  apply nonzero_positions_In in Hp. destruct Hp as (Hlt & Hnz).
  now apply Hz in Hlt.
Qed.

(** X4. Whatever its rank, an array without any non-zero entry makes
    [_trim_filter] fail with the [ValueError] of the reduction over an
    empty index set. *)
Theorem trim_filter_all_zero_any_rank (a : ndarray) :
  (forall p, p < length (flat a) -> nth p (flat a) 0%Z = 0%Z) ->
  _trim_filter a = Err ValueError.
Proof.
  intros Hz. unfold _trim_filter, np_where_nonzero.
  rewrite (nonzero_positions_nil _ Hz). cbn [length map].
  destruct (ndim a) as [|d] eqn:Hd.
  - reflexivity.
  - rewrite (@np_array_same_shape _ [0]).
    + reflexivity.
    + discriminate.
    + apply Forall_forall; intros y Hy. apply in_map_iff in Hy.
      destruct Hy as (ax & <- & _). reflexivity.
Qed.

Lemma trim_filter_all_zero_any_rank_witness :
  _trim_filter (zeros [2; 3; 2]) = Err ValueError /\
  _trim_filter (scalar 0) = Err ValueError.
Proof.
  split.
  - apply (@trim_filter_all_zero_any_rank (zeros [2; 3; 2])).
    intros p Hp. do 12 (destruct p as [|p]; [reflexivity|]).
    simpl in Hp; lia.
  - apply (@trim_filter_all_zero_any_rank (scalar 0)).
    intros [|p] Hp; [reflexivity | simpl in Hp; lia].
Defined.

(** X5. A 1-D array with a non-zero entry makes [_trim_filter] fail with an
    [IndexError]: the index array has one row only, so [min_idx[1]] is out
    of bounds. *)
Theorem trim_filter_1d_index_error_general (a : ndarray) (n : nat) :
  shape a = [n] ->
  (exists p, p < length (flat a) /\ nth p (flat a) 0%Z <> 0%Z) ->
  _trim_filter a = Err IndexError.
Proof.
  intros Hs (p & Hp & Hnz).
  assert (Hin : In p (nonzero_positions (flat a)))
    by (apply nonzero_positions_In; auto).
  unfold _trim_filter, np_where_nonzero, ndim. rewrite Hs.
  cbn [length seq map].
  destruct (nonzero_positions (flat a)) as [|p0 ps]; [contradiction|].
  rewrite (@np_array_same_shape _ [length (p0 :: ps)]);
    [|discriminate | repeat constructor].
  reflexivity.
Qed.

Lemma trim_filter_1d_index_error_general_witness :
  _trim_filter (mk_ndarray [3] [0; 1; 0]%Z) = Err IndexError.
Proof.
  apply (@trim_filter_1d_index_error_general (mk_ndarray [3] [0; 1; 0]%Z) 3);
    [reflexivity|].
  exists 1; split; [simpl; lia | discriminate].
Defined.

(** ** [filter_convolve] and [filter_convolve_stack]: composition, shapes
    and failures *)

(** X7. The round trip of the two modes keeps the shape of the image: for a
    bank of K >= 1 filters, Mode A on an (H, W) image gives a (K, H, W)
    stack on which Mode B, with the same bank, gives an (H, W) array. *)
Theorem mode_A_then_mode_B_shape (x filters : ndarray) (m : method)
    (H W K Fh Fw : nat) :
  shape x = [H; W] -> shape filters = [K; Fh; Fw] -> 0 < K ->
  exists c r,
    filter_convolve x filters false m = Ok c /\ shape c = [K; H; W] /\
    filter_convolve c filters true m = Ok r /\ shape r = shape x.
Proof.
  intros Hx Hf HK.
  destruct (filter_convolve_result_shape x filters false m 0 H W Hf Hx)
    as (c & Ec & Hc).
  assert (HK0 : (K =? 0) = false) by (apply Nat.eqb_neq; lia).
  rewrite HK0 in Hc.
  destruct (filter_convolve_result_shape c filters true m K H W Hf Hc)
    as (r & Er & Hr).
  rewrite Nat.min_id, HK0 in Hr.
  exists c, r. repeat split; congruence.
Qed.

Lemma mode_A_then_mode_B_shape_witness :
  exists c r,
    filter_convolve x33 y433 false scipy = Ok c /\ shape c = [4; 3; 3] /\
    filter_convolve c y433 true scipy = Ok r /\ shape r = shape x33.
Proof.
  apply (@mode_A_then_mode_B_shape x33 y433 scipy 3 3 4 3 3);
    [reflexivity | reflexivity | lia].
Defined.

(** X8. On a stack with no element the stack convolver returns the empty
    1-D array, whatever the filters and the mode: the filter convolver is
    never called, so nothing about the filters is checked. *)
Theorem stack_of_nothing (data filters : ndarray) (filter_rot : bool)
    (m : method) (sh : list nat) :
  shape data = 0 :: sh ->
  filter_convolve_stack data filters filter_rot m = Ok (mk_ndarray [0] []).
Proof.
  intros Hd. unfold filter_convolve_stack, iterate. rewrite Hd. reflexivity.
Qed.

Lemma stack_of_nothing_witness :
  filter_convolve_stack (mk_ndarray [0; 3; 3] []) (scalar 7) true scipy
  = Ok (mk_ndarray [0] []).
Proof.
  apply (@stack_of_nothing (mk_ndarray [0; 3; 3] []) (scalar 7) true scipy
           [3; 3]).
  reflexivity.
Defined.

(** X10. Shape of the stack convolver's result: for N >= 1 elements and a
    bank of K filters, (N, K, H, W) in Mode A when K >= 1, and (N, H, W) in
    Mode B when each element holds d coefficient maps and min(d, K) >= 1. *)
Theorem stack_result_shape (data filters : ndarray) (filter_rot : bool)
    (m : method) (N d H W K Fh Fw : nat) :
  shape filters = [K; Fh; Fw] ->
  shape data = N :: (if filter_rot then [d; H; W] else [H; W]) ->
  0 < N -> 0 < K -> (filter_rot = true -> 0 < d) ->
  exists r,
    filter_convolve_stack data filters filter_rot m = Ok r /\
    well_formed r /\
    shape r = if filter_rot then [N; H; W] else [N; K; H; W].
Proof.
  intros Hf Hd HN HK Hdpos.
  destruct (iterate_shape data Hd) as (xs & Exs).
  destruct (iterate_length data Hd Exs) as (Hlen & Hxs).
  set (out := if filter_rot then [H; W] else [K; H; W]).
  destruct (@mapM_exists _ _
              (fun x => filter_convolve x filters filter_rot m)
              (fun y => shape y = out /\ well_formed y) xs)
    as (rs & Ers & Hrs).
  { intros x Hx. rewrite Forall_forall in Hxs.
    destruct (filter_convolve_result_shape x filters filter_rot m d H W Hf
                (Hxs x Hx)) as (r & Er & Hr).
    exists r. split; [assumption|].
    split; [|eapply filter_convolve_well_formed; eassumption].
    rewrite Hr. unfold out. destruct filter_rot.
    - specialize (Hdpos eq_refl).
      replace (Nat.min d K =? 0) with false; [reflexivity|].
      symmetry; apply Nat.eqb_neq; lia.
    - replace (K =? 0) with false; [reflexivity|].
      symmetry; apply Nat.eqb_neq; lia. }
  assert (Hsh : Forall (fun y => shape y = out) rs)
    by (eapply Forall_impl; [|exact Hrs]; intros y Hy; apply Hy).
  assert (Hwf : Forall well_formed rs)
    by (eapply Forall_impl; [|exact Hrs]; intros y Hy; apply Hy).
  assert (Hlr : length rs = N).
  { apply mapM_Forall2 in Ers. apply Forall2_length_eq in Ers. lia. }
  assert (Hne : rs <> []) by (intros ->; simpl in Hlr; lia).
  pose proof (np_array_same_shape Hne Hsh) as Er.
  eexists. split; [|split].
  - unfold filter_convolve_stack. rewrite Exs; cbn [bind].
    rewrite Ers; cbn [bind]. exact Er.
  - eapply np_array_well_formed; eassumption.
  - cbn [shape]. rewrite Hlr. unfold out. destruct filter_rot; reflexivity.
Qed.

Lemma stack_result_shape_witness :
  exists r,
    filter_convolve_stack y433 y433 false scipy = Ok r /\
    well_formed r /\ shape r = [4; 4; 3; 3].
Proof.
  apply (@stack_result_shape y433 y433 false scipy 4 0 3 3 4 3 3);
    [reflexivity | reflexivity | lia | lia | discriminate].
Defined.

(** ** Text: [split] and [join] *)

Lemma append_empty_r (s : String.string) :
  String.append s String.EmptyString = s.
Proof. induction s as [|c s IH]; simpl; [reflexivity | now rewrite IH]. Qed.

Lemma append_assoc (a b c : String.string) :
  String.append (String.append a b) c = String.append a (String.append b c).
Proof. induction a as [|x a IH]; simpl; [reflexivity | now rewrite IH]. Qed.

Lemma append_inj_l (a b c : String.string) :
  String.append a b = String.append a c -> b = c.
Proof.
  induction a as [|x a IH]; simpl; intros E; [assumption|].
  injection E as E. now apply IH.
Qed.

Lemma no_space_append (a b : String.string) :
  no_space (String.append a b) = no_space a && no_space b.
Proof.
  unfold no_space. induction a as [|x a IH]; simpl; [reflexivity|].
  now rewrite IH, andb_assoc.
Qed.

Lemma split_from_append_space (a cur b : String.string) :
  split_from cur (String.append a (String.String " "%char b))
  = split_from cur a ++ split b.
Proof.
  revert cur; induction a as [|c a IH]; intros cur; simpl.
  - reflexivity.
  - destruct (is_space c).
    + now rewrite IH, app_assoc.
    + apply IH.
Qed.

Lemma split_from_no_space (s cur : String.string) :
  no_space s = true -> split_from cur s = flush (String.append cur s).
Proof.
  revert cur; induction s as [|c s IH]; intros cur Hs; simpl.
  - now rewrite append_empty_r.
  - unfold no_space in Hs; simpl in Hs. apply andb_true_iff in Hs.
    destruct Hs as (Hc & Hs). apply negb_true_iff in Hc. rewrite Hc.
    rewrite (IH _ Hs), append_assoc. reflexivity.
Qed.

Lemma split_token (t : String.string) : token t -> split t = [t].
Proof.
  intros (Hne & Hs). unfold split. rewrite (split_from_no_space _ _ Hs).
  simpl. destruct t; [congruence | reflexivity].
Qed.

Lemma split_from_tokens (s cur : String.string) :
  no_space cur = true -> Forall token (split_from cur s).
Proof.
  revert cur; induction s as [|c s IH]; intros cur Hcur; simpl.
  - destruct cur; simpl; repeat constructor; [discriminate | assumption].
  - destruct (is_space c) eqn:Hc.
    + apply Forall_app; split; [|now apply IH].
      destruct cur; simpl; repeat constructor; [discriminate | assumption].
    + apply IH. rewrite no_space_append, Hcur. unfold no_space; simpl.
      now rewrite Hc.
Qed.

Lemma split_tokens (s : String.string) : Forall token (split s).
Proof. now apply split_from_tokens. Qed.

Lemma split_from_nil (s cur : String.string) :
  split_from cur s = []
  <-> cur = String.EmptyString
      /\ forallb is_space (String.list_ascii_of_string s) = true.
Proof.
  revert cur; induction s as [|c s IH]; intros cur; simpl.
  - destruct cur; simpl; split; try tauto; try discriminate.
    intros (E & _); discriminate.
  - destruct (is_space c) eqn:Hc; simpl.
    + split.
      * intros E. apply app_eq_nil in E. destruct E as (Ecur & E).
        apply IH in E. destruct cur; [tauto | discriminate].
      * intros (-> & Hs). simpl. apply IH. auto.
    + rewrite IH. split; [|intros (_ & E); discriminate].
      intros (E & _). destruct cur; discriminate.
Qed.

Lemma split_nil (s : String.string) :
  split s = [] <-> forallb is_space (String.list_ascii_of_string s) = true.
Proof. unfold split. rewrite split_from_nil. tauto. Qed.

Lemma flat_map_split_tokens (l : list String.string) :
  Forall token l -> flat_map split l = l.
Proof.
  induction 1 as [|t l Ht F IH]; simpl; [reflexivity|].
  now rewrite (split_token Ht), IH.
Qed.

Lemma split_join_flat_map (l : list String.string) :
  split (join l) = flat_map split l.
Proof.
  induction l as [|t [|t' ts] IH].
  - reflexivity.
  - simpl. now rewrite app_nil_r.
  - change (join (t :: t' :: ts))
      with (String.append t (String.String " "%char (join (t' :: ts)))).
    unfold split at 1. rewrite split_from_append_space, IH. reflexivity.
Qed.

(** ** The building blocks of [get_mr_filters] *)

Lemma adjusted_dimension (n : Z) :
  (0 < n)%Z ->
  (1 <= n + (n mod 2 - 1))%Z /\
  ((n + (n mod 2 - 1)) mod 2 = 1)%Z /\
  (n mod 2 = 1 -> n + (n mod 2 - 1) = n)%Z /\
  (n mod 2 = 0 -> n + (n mod 2 - 1) = n - 1)%Z.
Proof.
  intros Hn. pose proof (Z.mod_pos_bound n 2 ltac:(lia)) as Hm.
  assert (Hcase : (n mod 2 = 0 \/ n mod 2 = 1)%Z) by lia.
  pose proof (Z.div_mod n 2 ltac:(lia)) as Hdiv.
  repeat split; try lia.
  destruct Hcase as [E|E]; rewrite E.
  - replace (n + (0 - 1))%Z with (1 + (n / 2 - 1) * 2)%Z by lia.
    now rewrite Z.mod_add by lia.
  - replace (n + (1 - 1))%Z with (1 + (n / 2) * 2)%Z by lia.
    now rewrite Z.mod_add by lia.
Qed.

Lemma nonpositive_dimension (n : Z) :
  (n <= 0)%Z -> (n + (n mod 2 - 1) < 0)%Z.
Proof.
  intros Hn. pose proof (Z.mod_pos_bound n 2 ltac:(lia)) as Hm.
  pose proof (Z.div_mod n 2 ltac:(lia)) as Hdiv. lia.
Qed.

Lemma fake_data_nonpositive (data_shape : list Z) (n : Z) :
  In n data_shape -> (n <= 0)%Z -> fake_data_of data_shape = Err ValueError.
Proof.
  intros Hin Hn. unfold fake_data_of, np_zeros. cbv zeta.
  destruct (forallb _ _) eqn:Hall; [|reflexivity].
  rewrite forallb_forall in Hall.
  specialize (Hall (n + (n mod 2 - 1))%Z).
  rewrite in_map_iff in Hall.
  assert (H0 : ((0 <=? n + (n mod 2 - 1)) = true)%Z)
    by (apply Hall; now exists n).
  apply Z.leb_le in H0. pose proof (nonpositive_dimension Hn). lia.
Qed.

Lemma ravel_centre (l : list Z) :
  Forall (fun n => (1 <= n)%Z) l ->
  exists p, ravel (combine (map Z.to_nat l) (map (fun n => (n / 2)%Z) l))
            = Ok p.
Proof.
  induction 1 as [|n l Hn F (p & IH)]; [now exists 0|].
  cbn [map combine ravel].
  assert (Hdiv : (0 <= n / 2 < n)%Z)
    by (split; [apply Z.div_pos; lia | apply Z.div_lt; lia]).
  replace (n / 2 <? 0)%Z with false by (symmetry; apply Z.ltb_ge; lia).
  replace (0 <=? n / 2)%Z with true by (symmetry; apply Z.leb_le; lia).
  replace (n / 2 <? Z.of_nat (Z.to_nat n))%Z with true
    by (symmetry; apply Z.ltb_lt; lia).
  rewrite IH. eexists; reflexivity.
Qed.

Lemma fake_data_positive (data_shape : list Z) :
  Forall (fun n => (0 < n)%Z) data_shape ->
  exists a, fake_data_of data_shape = Ok a /\ ndim a = length data_shape.
Proof.
  intros Hpos. unfold fake_data_of. cbv zeta.
  set (odd := map (fun n => (n + (n mod 2 - 1))%Z) data_shape).
  assert (Hodd : Forall (fun n => (1 <= n)%Z) odd).
  { unfold odd. apply Forall_forall; intros n' Hn'.
    apply in_map_iff in Hn'. destruct Hn' as (n & <- & Hn).
    rewrite Forall_forall in Hpos. apply adjusted_dimension, Hpos, Hn. }
  unfold np_zeros.
  replace (forallb (fun n => (0 <=? n)%Z) odd) with true.
  2:{ symmetry; apply forallb_forall; intros n Hn.
      rewrite Forall_forall in Hodd. apply Z.leb_le.
      pose proof (Hodd n Hn); lia. }
  cbn [bind]. unfold setitem_at, ndim, zeros; cbn [shape flat].
  rewrite !length_map. rewrite Nat.ltb_irrefl.
  replace (firstn (length odd) (map Z.to_nat odd)) with (map Z.to_nat odd)
    by (rewrite <- (length_map Z.to_nat odd); now rewrite firstn_all).
  destruct (ravel_centre Hodd) as (p & ->). cbn [bind].
  eexists; split; [reflexivity|]. cbn [shape].
  unfold odd. now rewrite !length_map.
Qed.

Lemma nth_point_update (l : list Z) (p q : nat) (v : Z) :
  p < length l ->
  nth q (firstn (p * 1) l ++ repeat v 1 ++ skipn ((p + 1) * 1) l) 0%Z
  = if q =? p then v else nth q l 0%Z.
Proof.
  intros Hp. rewrite !Nat.mul_1_r.
  assert (Hlen : length (firstn p l) = p) by (rewrite length_firstn; lia).
  destruct (Nat.eqb_spec q p) as [->|Hq].
  - rewrite app_nth2 by lia. rewrite Hlen, Nat.sub_diag. reflexivity.
  - destruct (Nat.lt_ge_cases q p) as [Hlt|Hge].
    + rewrite app_nth1 by lia. rewrite nth_firstn.
      apply Nat.ltb_lt in Hlt. now rewrite Hlt.
    + rewrite app_nth2 by lia. rewrite Hlen.
      destruct (q - p) as [|d] eqn:Ed; [lia|]. cbn [repeat app nth].
      rewrite nth_skipn. f_equal; lia.
Qed.

(** X17. The fake data of [get_mr_filters] for a 2-D shape with positive
    dimensions: each dimension is made odd (an even one loses one), and the
    array is one at its centre and zero elsewhere. *)
Theorem fake_data_impulse (h w : Z) :
  (0 < h)%Z -> (0 < w)%Z ->
  exists a,
    fake_data_of [h; w] = Ok a /\ well_formed a /\
    shape a = [Z.to_nat (h + (h mod 2 - 1)); Z.to_nat (w + (w mod 2 - 1))] /\
    (h mod 2 = 1 -> h + (h mod 2 - 1) = h)%Z /\
    (h mod 2 = 0 -> h + (h mod 2 - 1) = h - 1)%Z /\
    (w mod 2 = 1 -> w + (w mod 2 - 1) = w)%Z /\
    (w mod 2 = 0 -> w + (w mod 2 - 1) = w - 1)%Z /\
    forall i j,
      i < Z.to_nat (h + (h mod 2 - 1)) -> j < Z.to_nat (w + (w mod 2 - 1)) ->
      get2 a i j
      = if (i =? Z.to_nat (h + (h mod 2 - 1)) / 2)
           && (j =? Z.to_nat (w + (w mod 2 - 1)) / 2)
        then 1%Z else 0%Z.
Proof.
  intros Hh Hw.
  destruct (adjusted_dimension Hh) as (Hh1 & _).
  destruct (adjusted_dimension Hw) as (Hw1 & _).
  set (h' := (h + (h mod 2 - 1))%Z) in *.
  set (w' := (w + (w mod 2 - 1))%Z) in *.
  assert (Hdh : (0 <= h' / 2 < h')%Z)
    by (split; [apply Z.div_pos; lia | apply Z.div_lt; lia]).
  assert (Hdw : (0 <= w' / 2 < w')%Z)
    by (split; [apply Z.div_pos; lia | apply Z.div_lt; lia]).
  unfold fake_data_of. cbv zeta. cbn [map]. fold h'. fold w'.
  unfold np_zeros. cbn [forallb].
  replace (0 <=? h')%Z with true by (symmetry; apply Z.leb_le; lia).
  replace (0 <=? w')%Z with true by (symmetry; apply Z.leb_le; lia).
  cbn [andb bind map]. unfold setitem_at, ndim, zeros.
  cbn [shape flat length Nat.ltb Nat.leb firstn skipn combine ravel map fst].
  replace (h' / 2 <? 0)%Z with false by (symmetry; apply Z.ltb_ge; lia).
  replace (w' / 2 <? 0)%Z with false by (symmetry; apply Z.ltb_ge; lia).
  replace (0 <=? h' / 2)%Z with true by (symmetry; apply Z.leb_le; lia).
  replace (0 <=? w' / 2)%Z with true by (symmetry; apply Z.leb_le; lia).
  replace (h' / 2 <? Z.of_nat (Z.to_nat h'))%Z with true
    by (symmetry; apply Z.ltb_lt; lia).
  replace (w' / 2 <? Z.of_nat (Z.to_nat w'))%Z with true
    by (symmetry; apply Z.ltb_lt; lia).
  cbn [andb bind]. rewrite !size_of_2.
  set (H := Z.to_nat h'). set (W := Z.to_nat w').
  set (ci := Z.to_nat (h' / 2)). set (cj := Z.to_nat (w' / 2)).
  assert (Eci : ci = H / 2)
    by (unfold ci, H; rewrite Z2Nat.inj_div by lia; reflexivity).
  assert (Ecj : cj = W / 2)
    by (unfold cj, W; rewrite Z2Nat.inj_div by lia; reflexivity).
  assert (Hci : ci < H) by (unfold ci, H; lia).
  assert (Hcj : cj < W) by (unfold cj, W; lia).
  change (size_of [W]) with (W * 1). change (size_of []) with 1.
  set (p := ci * (W * 1) + (cj * 1 + 0)).
  assert (Ep : p = ci * W + cj) by (unfold p; lia).
  assert (Hp : p < H * W) by nia.
  eexists. split; [reflexivity|]. split; [|split; [reflexivity|]].
  2:{ split; [apply (adjusted_dimension Hh)|].
      split; [apply (adjusted_dimension Hh)|].
      split; [apply (adjusted_dimension Hw)|].
      split; [apply (adjusted_dimension Hw)|].
      intros i j Hi Hj. unfold get2; cbn [shape flat].
      rewrite nth_point_update by (rewrite repeat_length; lia).
      rewrite nth_repeat. rewrite <- Eci, <- Ecj.
      destruct (Nat.eqb_spec (i * W + j) p) as [E|E].
      - assert (Ei : i = ci).
        { destruct (Nat.lt_trichotomy i ci) as [Hlt | [Heq | Hgt]];
            [exfalso | assumption | exfalso].
          - pose proof (Nat.mul_le_mono_r (S i) ci W ltac:(lia)).
            simpl in *. lia.
          - pose proof (Nat.mul_le_mono_r (S ci) i W ltac:(lia)).
            simpl in *. lia. }
        assert (Ej : j = cj) by (subst i; lia).
        subst i j. now rewrite !Nat.eqb_refl.
      - destruct (Nat.eqb_spec i ci) as [->|]; [|reflexivity].
        destruct (Nat.eqb_spec j cj) as [->|]; [lia | reflexivity]. }
  - unfold well_formed; cbn [shape flat]. rewrite size_of_2.
    rewrite !length_app, length_firstn, length_skipn, !repeat_length. lia.
Qed.

Lemma slice_bounds_drop_last (K : nat) :
  slice_bounds K 0 (-1) = (0, K - 1).
Proof. unfold slice_bounds. cbn [Z.ltb Z.compare]. f_equal; lia. Qed.

Lemma getitem_slice1_drop_last (a : ndarray) (K : nat) (sh : list nat) :
  shape a = K :: sh ->
  getitem_slice1 a 0 (-1)
  = Ok (mk_ndarray ((K - 1) :: sh)
          (firstn ((K - 1) * size_of sh) (flat a))).
Proof.
  intros Hs. unfold getitem_slice1. rewrite Hs, slice_bounds_drop_last.
  now rewrite Nat.sub_0_r, Nat.mul_0_l, skipn_0.
Qed.

Lemma chunk_firstn (s k n : nat) (l : list Z) :
  k < n -> chunk s k (firstn (n * s) l) = chunk s k l.
Proof.
  intros Hk. unfold chunk.
  rewrite skipn_firstn_comm, firstn_firstn. f_equal. nia.
Qed.

Lemma mapM_some_error (A B : Type) (f : A -> result B) (l : list A)
    (e : error) :
  (forall x, In x l -> f x = Err e \/ exists y, f x = Ok y) ->
  (exists x, In x l /\ f x = Err e) ->
  mapM f l = Err e.
Proof.
  induction l as [|a l IH]; intros Hall (x & Hin & Hx); [contradiction|].
  simpl. destruct (Hall a (or_introl eq_refl)) as [Ea | (y & Ea)];
    rewrite Ea; [reflexivity|]. simpl.
  destruct Hin as [-> | Hin]; [congruence|].
  rewrite IH; [reflexivity | | now exists x].
  intros z Hz. apply Hall. now right.
Qed.

Lemma trim_filter_2d_cases (f : ndarray) (H W : nat) :
  shape f = [H; W] -> well_formed f ->
  _trim_filter f = Err ValueError \/
  exists t, _trim_filter f = Ok t /\ well_formed t.
Proof.
  intros Hs Hwf.
  destruct (nonzero_positions (flat f)) as [|p0 ps] eqn:Eps.
  - left. pose proof (trim_filter_2d f Hs) as E. cbv zeta in E.
    now rewrite Eps in E.
  - right.
    assert (Hp0 : In p0 (nonzero_positions (flat f)))
      by (rewrite Eps; left; reflexivity).
    destruct (@position_entry f H W p0 Hs Hwf Hp0) as (_ & Hr & Hc & Hnz).
    destruct (@trim_filter_box f H W Hs Hwf)
      as (r0 & r1 & c0 & c1 & Et & _).
    { now exists (p0 / W), (p0 mod W). }
    eexists; split; [exact Et | apply tabulate2_well_formed].
Qed.

Lemma subarray_well_formed (a : ndarray) (K k : nat) (sh : list nat) :
  shape a = K :: sh -> well_formed a -> k < K ->
  well_formed (subarray sh (flat a) k).
Proof.
  intros Hs Hwf Hk. unfold well_formed, subarray; cbn [shape flat].
  apply length_chunk. unfold well_formed in Hwf. rewrite Hwf, Hs.
  cbn [size_of fold_right]. fold (size_of sh). nia.
Qed.

Lemma iterate_well_formed (a : ndarray) (xs : list ndarray) (K : nat)
    (sh : list nat) :
  shape a = K :: sh -> well_formed a -> iterate a = Ok xs ->
  Forall well_formed xs.
Proof.
  intros Hs Hwf E. unfold iterate in E. rewrite Hs in E. injection E as <-.
  apply Forall_forall; intros x Hx. apply in_map_iff in Hx.
  destruct Hx as (k & <- & Hk). apply in_seq in Hk.
  eapply subarray_well_formed; eauto; lia.
Qed.

Lemma trim_filter_2d_all_zero (f : ndarray) (H W : nat) :
  shape f = [H; W] -> well_formed f ->
  (forall i j, i < H -> j < W -> get2 f i j = 0%Z) ->
  _trim_filter f = Err ValueError.
Proof.
  intros Hs Hwf Hzero.
  destruct (@trim_filter_2d_cases f H W Hs Hwf) as [E | (t & Et & _)];
    [assumption|].
  destruct (@trim_filter_ok_nonzero f t H W Hs Hwf Et) as (i & j & Hi & Hj & Hnz).
  exfalso; apply Hnz. now apply Hzero.
Qed.

(** ** [call_mr_transform] *)

Section ExternalFacts.

Variable import_astropy : bool.
Variable is_executable : String.string -> world -> option exception.
Variable unique_string : nat -> String.string.
Variable process :
  list String.string -> filesystem ->
  outcome (String.string * String.string) * filesystem.
Variable writeto_error : String.string -> filesystem -> option exception.
Variable astype : ndarray -> ndarray -> ndarray.

Local Abbreviation call :=
  (call_mr_transform import_astropy is_executable unique_string process
     writeto_error astype).

(** X11. The guards of [call_mr_transform] come before any effect: without
    astropy the call raises [ImportError] whatever the data; with it, data
    that is not a 2-D array raises [ValueError]; and a failure of
    [is_executable] is passed on. In the three cases no file is written and
    no process is started. *)
Theorem call_mr_transform_guards (data : pyobject) (opt : options)
    (path : String.string) (remove_files : bool) (w : world) :
  (import_astropy = false ->
   call data opt path remove_files w = (Raised ImportError, w)) /\
  (import_astropy = true ->
   (forall a, data = PyArray a -> ndim a <> 2) ->
   call data opt path remove_files w = (Raised (Builtin ValueError), w)) /\
  (import_astropy = true ->
   forall a x, data = PyArray a -> ndim a = 2 ->
   is_executable "mr_transform"%string w = Some x ->
   call data opt path remove_files w = (Raised x, w)).
Proof.
  unfold call_mr_transform. repeat split.
  - intros ->. reflexivity.
  - intros -> Hd. cbn [negb].
    destruct data as [a| |]; try reflexivity.
    specialize (Hd a eq_refl). apply Nat.eqb_neq in Hd. now rewrite Hd.
  - intros -> a x -> Ha Hx. cbn [negb].
    apply Nat.eqb_eq in Ha. rewrite Ha. cbn [negb].
    unfold io_bind, check_executable. now rewrite Hx.
Qed.

Lemma temp_file_distinct (path unique : String.string) :
  String.eqb (temp_file path unique ".mr"%string)
             (temp_file path unique ".fits"%string) = false.
Proof.
  apply String.eqb_neq. unfold temp_file. intros E.
  apply append_inj_l in E. discriminate.
Qed.

Lemma popen_communicate_cons (command : list String.string) (w : world) :
  command <> [] ->
  popen_communicate process command w
  = let (out, fs) := process command (files w) in
    (out, mk_world fs (draws w) (spawned w ++ [command])).
Proof.
  intros Hne. destruct command as [|c cs]; [congruence | reflexivity].
Qed.

Lemma command_line_words (l : list String.string) :
  split (join ("mr_transform"%string :: l)) <> [].
Proof. rewrite split_join_flat_map. discriminate. Qed.

(** The call, once the guards are passed and the FITS file is written, as a
    function of what the child process does. *)
Lemma call_mr_transform_run (a : ndarray) (opt : options)
    (path : String.string) (remove_files : bool) (w : world) :
  let unique := unique_string (draws w) in
  let file_fits := temp_file path unique ".fits"%string in
  let file_mr := temp_file path unique ".mr"%string in
  let tokens := match opt with OptStr s => split s | OptList l => l end in
  let command :=
    split (join (["mr_transform"%string] ++ tokens ++ [file_fits; file_mr])) in
  let after fs := mk_world fs (S (draws w)) (spawned w ++ [command]) in
  import_astropy = true -> ndim a = 2 ->
  is_executable "mr_transform"%string w = None ->
  files w file_fits = None ->
  writeto_error file_fits (files w) = None ->
  call (PyArray a) opt path remove_files w
  = match process command (write_file file_fits (FitsFile a) (files w)) with
    | (Raised x, fs) => (Raised x, after fs)
    | (Returned out, fs) =>
        if reports_error (fst out)
        then match fs file_fits with
             | None => (Raised FileNotFoundError, after fs)
             | Some _ =>
                 (Raised (RuntimeError
                            (runtime_message "mr_transform"%string (fst out))),
                  after (delete_file file_fits fs))
             end
        else match fs file_mr with
             | None => (Raised FileNotFoundError, after fs)
             | Some PlainFile => (Raised OSError, after fs)
             | Some (FitsFile r) =>
                 if remove_files
                 then match fs file_fits with
                      | None => (Raised FileNotFoundError, after fs)
                      | Some _ =>
                          (Returned (astype r a),
                           after (delete_file file_mr
                                    (delete_file file_fits fs)))
                      end
                 else (Returned (astype r a), after fs)
             end
    end.
Proof.
  intros unique file_fits file_mr tokens command after Hi Ha Hx Hfresh Hw.
  unfold call_mr_transform. rewrite Hi. apply Nat.eqb_eq in Ha. rewrite Ha.
  cbn [negb]. cbv zeta.
  unfold io_bind at 1. unfold check_executable. rewrite Hx.
  unfold io_bind at 1. unfold draw_unique_string.
  fold unique. fold file_fits. fold file_mr. fold tokens.
  unfold io_bind at 1. unfold fits_writeto. cbn [files].
  rewrite Hfresh, Hw.
  unfold io_bind at 1. unfold execute.
  rewrite popen_communicate_cons by apply command_line_words.
  unfold set_files. cbn [files draws spawned]. fold command.
  destruct (process command _) as [[out|x] fs]; [|reflexivity].
  fold (after fs).
  destruct (reports_error (fst out)).
  - unfold io_bind, remove, raise, set_files. unfold after; cbn [files].
    destruct (fs file_fits); reflexivity.
  - unfold io_bind at 1. unfold fits_getdata. unfold after at 1; cbn [files].
    destruct (fs file_mr) as [[r|]|] eqn:Emr; try reflexivity.
    destruct remove_files.
    + unfold io_bind, remove, ret, set_files. unfold after; cbn [files].
      destruct (fs file_fits) eqn:Eff; [|reflexivity].
      cbn [files draws spawned]. unfold delete_file at 1.
      unfold file_mr at 1, file_fits at 1. rewrite temp_file_distinct.
      fold file_mr. rewrite Emr. reflexivity.
    + reflexivity.
Qed.

Lemma no_space_temp_file (path unique ext : String.string) :
  no_space (temp_file path unique ext)
  = no_space path && no_space unique && no_space ext.
Proof.
  unfold temp_file. rewrite !no_space_append.
  change (no_space "mr_temp_"%string) with true.
  now rewrite andb_true_l.
Qed.


Lemma call_mr_transform_spawned (a : ndarray) (opt : options)
    (path : String.string) (remove_files : bool) (w : world) :
  import_astropy = true -> ndim a = 2 ->
  is_executable "mr_transform"%string w = None ->
  files w (temp_file path (unique_string (draws w)) ".fits"%string) = None ->
  writeto_error (temp_file path (unique_string (draws w)) ".fits"%string)
                (files w) = None ->
  spawned (snd (call (PyArray a) opt path remove_files w))
  = spawned w
    ++ [split (join (["mr_transform"%string]
                     ++ match opt with OptStr s => split s | OptList l => l end
                     ++ [temp_file path (unique_string (draws w)) ".fits"%string;
                         temp_file path (unique_string (draws w)) ".mr"%string]))].
Proof.
  intros Hi Ha Hx Hfresh Hw.
  rewrite (@call_mr_transform_run a opt path remove_files w Hi Ha Hx Hfresh Hw).
  destruct (process _ _) as [[out|x] fs]; [|reflexivity].
  destruct (reports_error (fst out)).
  - destruct (fs _); reflexivity.
  - destruct (fs _) as [[r|]|]; try reflexivity.
    destruct remove_files; [|reflexivity].
    destruct (fs _); reflexivity.
Qed.


(** X13. A path that holds white space breaks the command line. When the
    directory of such a path exists, so that the FITS file is written, the
    argument vector handed to [Popen] holds neither temporary file name:
    both are cut at the white space. *)
Theorem call_mr_transform_path_with_space (a : ndarray) (opt : options)
    (path : String.string) (remove_files : bool) (w : world) :
  import_astropy = true -> ndim a = 2 ->
  is_executable "mr_transform"%string w = None ->
  files w (temp_file path (unique_string (draws w)) ".fits"%string) = None ->
  writeto_error (temp_file path (unique_string (draws w)) ".fits"%string)
                (files w) = None ->
  no_space path = false ->
  exists command,
    spawned (snd (call (PyArray a) opt path remove_files w))
    = spawned w ++ [command] /\
    ~ In (temp_file path (unique_string (draws w)) ".fits"%string) command /\
    ~ In (temp_file path (unique_string (draws w)) ".mr"%string) command.
Proof.
  intros Hi Ha Hx Hfresh Hw Hp.
  eexists. split.
  - apply (@call_mr_transform_spawned a opt path remove_files w Hi Ha Hx Hfresh
             Hw).
  - pose proof (split_tokens
        (join (["mr_transform"%string]
               ++ match opt with OptStr s => split s | OptList l => l end
               ++ [temp_file path (unique_string (draws w)) ".fits"%string;
                   temp_file path (unique_string (draws w)) ".mr"%string])))
      as Htok.
    rewrite Forall_forall in Htok.
    split; intros Hin; apply Htok in Hin; destruct Hin as (_ & Hn);
      rewrite no_space_temp_file, Hp in Hn; discriminate.
Qed.

(** X14. A successful call. When the FITS file is written and the process
    reports no error, keeps the FITS file and leaves a FITS file under the
    output name, the call returns the array of that file converted to the
    element type of the data; with [remove_files] both temporary files are
    gone afterwards and every other file is as the process left it;
    without it the files are all as the process left them. *)
Theorem call_mr_transform_success (a r : ndarray) (opt : options)
    (path : String.string) (remove_files : bool) (w : world)
    (command : list String.string) (out : String.string * String.string)
    (fs : filesystem) :
  let file_fits := temp_file path (unique_string (draws w)) ".fits"%string in
  let file_mr := temp_file path (unique_string (draws w)) ".mr"%string in
  import_astropy = true -> ndim a = 2 ->
  is_executable "mr_transform"%string w = None ->
  files w file_fits = None -> writeto_error file_fits (files w) = None ->
  command
  = split (join (["mr_transform"%string]
                 ++ match opt with OptStr s => split s | OptList l => l end
                 ++ [file_fits; file_mr])) ->
  process command (write_file file_fits (FitsFile a) (files w))
  = (Returned out, fs) ->
  reports_error (fst out) = false ->
  fs file_mr = Some (FitsFile r) -> fs file_fits <> None ->
  exists w',
    call (PyArray a) opt path remove_files w = (Returned (astype r a), w') /\
    if remove_files
    then files w' file_fits = None /\ files w' file_mr = None /\
         forall n, n <> file_fits -> n <> file_mr -> files w' n = fs n
    else files w' = fs.
Proof.
  intros file_fits file_mr Hi Ha Hx Hfresh Hw -> Hrun Hclean Hmr Hfits.
  rewrite (@call_mr_transform_run a opt path remove_files w Hi Ha Hx Hfresh Hw).
  fold file_fits. fold file_mr. rewrite Hrun, Hclean, Hmr.
  destruct remove_files.
  - destruct (fs file_fits) eqn:Eff; [|congruence].
    eexists; split; [reflexivity|]. cbn [files]. unfold delete_file.
    split; [|split].
    + rewrite (String.eqb_refl file_fits).
      destruct (String.eqb file_fits file_mr); reflexivity.
    + now rewrite (String.eqb_refl file_mr).
    + intros n Hn1 Hn2. apply String.eqb_neq in Hn1, Hn2.
      now rewrite Hn1, Hn2.
  - eexists; split; reflexivity.
Qed.


(** X16. A missing output. When the FITS file is written and the process
    reports no error but leaves no file under the output name, the call raises [FileNotFoundError] and
    removes nothing, even with [remove_files]: the FITS file it wrote stays
    behind. *)
Theorem call_mr_transform_missing_output (a : ndarray) (opt : options)
    (path : String.string) (remove_files : bool) (w : world)
    (command : list String.string) (out : String.string * String.string)
    (fs : filesystem) :
  let file_fits := temp_file path (unique_string (draws w)) ".fits"%string in
  let file_mr := temp_file path (unique_string (draws w)) ".mr"%string in
  import_astropy = true -> ndim a = 2 ->
  is_executable "mr_transform"%string w = None ->
  files w file_fits = None -> writeto_error file_fits (files w) = None ->
  command
  = split (join (["mr_transform"%string]
                 ++ match opt with OptStr s => split s | OptList l => l end
                 ++ [file_fits; file_mr])) ->
  process command (write_file file_fits (FitsFile a) (files w))
  = (Returned out, fs) ->
  reports_error (fst out) = false -> fs file_mr = None ->
  exists w',
    call (PyArray a) opt path remove_files w = (Raised FileNotFoundError, w') /\
    files w' = fs.
Proof.
  intros file_fits file_mr Hi Ha Hx Hfresh Hw -> Hrun Hclean Hmr.
  rewrite (@call_mr_transform_run a opt path remove_files w Hi Ha Hx Hfresh Hw).
  fold file_fits. fold file_mr. rewrite Hrun, Hclean, Hmr.
  eexists; split; reflexivity.
Qed.

(** X25. A FITS file that cannot be written stops the call. When the name
    of the FITS file is taken, [fits.writeto] raises [OSError]; when it is
    free and the operating system refuses to create the file (a missing
    directory, for one), its exception is raised. In both cases no process
    is started and the files are as they were. *)
Theorem call_mr_transform_write_refused (a : ndarray) (opt : options)
    (path : String.string) (remove_files : bool) (w : world) :
  let file_fits := temp_file path (unique_string (draws w)) ".fits"%string in
  import_astropy = true -> ndim a = 2 ->
  is_executable "mr_transform"%string w = None ->
  files w file_fits <> None \/ writeto_error file_fits (files w) <> None ->
  exists x w',
    call (PyArray a) opt path remove_files w = (Raised x, w') /\
    (files w file_fits <> None -> x = OSError) /\
    (files w file_fits = None ->
     writeto_error file_fits (files w) = Some x) /\
    files w' = files w /\ spawned w' = spawned w.
Proof.
  intros file_fits Hi Ha Hx Hrefused.
  unfold call_mr_transform. rewrite Hi. apply Nat.eqb_eq in Ha. rewrite Ha.
  cbn [negb]. cbv zeta.
  unfold io_bind at 1. unfold check_executable. rewrite Hx.
  unfold io_bind at 1. unfold draw_unique_string.
  fold file_fits.
  unfold io_bind at 1. unfold fits_writeto. cbn [files].
  destruct (files w file_fits) as [f|] eqn:Ef.
  - do 2 eexists. split; [reflexivity|].
    split; [reflexivity|]. split; [discriminate|]. split; reflexivity.
  - destruct (writeto_error file_fits (files w)) as [y|] eqn:Ey.
    + do 2 eexists. split; [reflexivity|].
      split; [congruence|]. split; [reflexivity|]. split; reflexivity.
    + destruct Hrefused; congruence.
Qed.

(** ** [get_mr_filters] *)

Local Abbreviation get :=
  (get_mr_filters import_astropy is_executable unique_string process
     writeto_error astype).

(** What [get_mr_filters] does with the filters the transform returns. *)
Lemma get_mr_filters_run (data_shape : list Z) (opt : options)
    (coarse trim : bool) (w w' : world) (fake mr : ndarray) :
  fake_data_of data_shape = Ok fake ->
  call (PyArray fake) opt "./"%string true w = (Returned mr, w') ->
  get data_shape opt coarse trim w
  = lift (m <- (if trim
                then fs <- iterate mr ;;
                     ts <- mapM _trim_filter fs ;;
                     np_array ts
                else Ok mr) ;;
          if coarse then Ok m else getitem_slice1 m 0 (-1)) w'.
Proof.
  intros Hfake Hcall. unfold get_mr_filters.
  unfold io_bind at 1. rewrite Hfake. cbn [lift ret].
  unfold io_bind at 1. rewrite Hcall.
  destruct trim.
  - destruct (fs <- iterate mr ;; ts <- mapM _trim_filter fs ;; np_array ts)
      as [m|e]; [|reflexivity].
    unfold io_bind; cbn [lift ret bind]. destruct coarse; reflexivity.
  - unfold io_bind; cbn [lift ret bind]. destruct coarse; reflexivity.
Qed.

(** X18. A dimension that is zero or negative makes [get_mr_filters] fail
    with the [ValueError] of [np.zeros], before anything is written or
    run. *)
Theorem get_mr_filters_nonpositive_dimension (data_shape : list Z)
    (opt : options) (coarse trim : bool) (w : world) (n : Z) :
  In n data_shape -> (n <= 0)%Z ->
  get data_shape opt coarse trim w = (Raised (Builtin ValueError), w).
Proof.
  intros Hin Hn. unfold get_mr_filters, io_bind.
  now rewrite (@fake_data_nonpositive data_shape n Hin Hn).
Qed.

(** X19. For positive dimensions [get_mr_filters] reaches the guards of
    [call_mr_transform]: without astropy it raises [ImportError]; with it,
    a shape that has not exactly two dimensions raises [ValueError]. In
    both cases nothing is written or run. *)
Theorem get_mr_filters_guards (data_shape : list Z) (opt : options)
    (coarse trim : bool) (w : world) :
  Forall (fun n => (0 < n)%Z) data_shape ->
  (import_astropy = false ->
   get data_shape opt coarse trim w = (Raised ImportError, w)) /\
  (import_astropy = true -> length data_shape <> 2 ->
   get data_shape opt coarse trim w = (Raised (Builtin ValueError), w)).
Proof.
  intros Hpos. destruct (@fake_data_positive data_shape Hpos) as (fake & Hfake & Hnd).
  unfold get_mr_filters, call_mr_transform. split.
  - intros ->. unfold io_bind. rewrite Hfake. reflexivity.
  - intros -> Hlen. unfold io_bind at 1. rewrite Hfake. cbn [lift ret negb].
    unfold io_bind at 1. rewrite Hnd.
    apply Nat.eqb_neq in Hlen. rewrite Hlen. reflexivity.
Qed.

(** X20. The [coarse] flag, without trimming: with [coarse] the filters of
    the transform are returned as they are; without it the last one is
    dropped and the others are kept, in order. *)
Theorem get_mr_filters_coarse (data_shape : list Z) (opt : options)
    (w w' : world) (fake mr : ndarray) (K : nat) (sh : list nat) :
  fake_data_of data_shape = Ok fake ->
  call (PyArray fake) opt "./"%string true w = (Returned mr, w') ->
  shape mr = K :: sh ->
  get data_shape opt true false w = (Returned mr, w') /\
  exists r,
    get data_shape opt false false w = (Returned r, w') /\
    shape r = (K - 1) :: sh /\
    forall k, k < K - 1 -> getitem r k = getitem mr k.
Proof.
  intros Hfake Hcall Hs. split.
  - now rewrite (@get_mr_filters_run data_shape opt true false w w' fake mr
                   Hfake Hcall).
  - rewrite (@get_mr_filters_run data_shape opt false false w w' fake mr
               Hfake Hcall). cbn [bind].
    rewrite (@getitem_slice1_drop_last mr K sh Hs). cbn [lift ret].
    eexists; split; [reflexivity|]. split; [reflexivity|].
    intros k Hk. unfold getitem; cbn [shape flat]. rewrite Hs.
    replace (k <? K - 1) with true by (symmetry; apply Nat.ltb_lt; lia).
    replace (k <? K) with true by (symmetry; apply Nat.ltb_lt; lia).
    unfold subarray. now rewrite chunk_firstn.
Qed.

(** X21. Trimming comes before the coarse scale is dropped: a filter without
    any non-zero coefficient, the last one included, makes
    [get_mr_filters] with [trim] fail with [ValueError], whatever
    [coarse]. *)
Theorem get_mr_filters_trim_all_zero (data_shape : list Z) (opt : options)
    (coarse : bool) (w w' : world) (fake mr fk : ndarray) (K H W k : nat) :
  fake_data_of data_shape = Ok fake ->
  call (PyArray fake) opt "./"%string true w = (Returned mr, w') ->
  shape mr = [K; H; W] -> well_formed mr ->
  getitem mr k = Ok fk ->
  (forall i j, i < H -> j < W -> get2 fk i j = 0%Z) ->
  get data_shape opt coarse true w = (Raised (Builtin ValueError), w').
Proof.
  intros Hfake Hcall Hs Hwf Hk Hzero.
  rewrite (@get_mr_filters_run data_shape opt coarse true w w' fake mr
             Hfake Hcall).
  destruct (iterate_shape mr Hs) as (fs & Efs).
  destruct (iterate_length mr Hs Efs) as (Hlen & Hfs).
  pose proof (@iterate_well_formed mr fs K [H; W] Hs Hwf Efs) as Hwfs.
  rewrite Forall_forall in Hfs, Hwfs.
  assert (Hin : In fk fs).
  { eapply nth_error_In. eapply getitem_ok_nth_error; eassumption. }
  rewrite Efs. cbn [bind].
  rewrite (@mapM_some_error _ _ _trim_filter fs ValueError); [reflexivity | |].
  - intros x Hx.
    destruct (@trim_filter_2d_cases x H W (Hfs x Hx) (Hwfs x Hx))
      as [E | (t & Et & _)]; [now left | right; now exists t].
  - exists fk. split; [assumption|].
    apply (@trim_filter_2d_all_zero fk H W); auto.
Qed.

(** X22. With [trim], every filter that [get_mr_filters] returns is the
    trimmed filter of the transform at the same index. *)
Theorem get_mr_filters_trim_each (data_shape : list Z) (opt : options)
    (w w' w'' : world) (fake mr r : ndarray) (K H W : nat) :
  fake_data_of data_shape = Ok fake ->
  call (PyArray fake) opt "./"%string true w = (Returned mr, w') ->
  shape mr = [K; H; W] -> well_formed mr ->
  get data_shape opt true true w = (Returned r, w'') ->
  w'' = w' /\
  forall k, k < K ->
    exists fk t,
      getitem mr k = Ok fk /\ _trim_filter fk = Ok t /\ getitem r k = Ok t.
Proof.
  intros Hfake Hcall Hs Hwf Hget.
  rewrite (@get_mr_filters_run data_shape opt true true w w' fake mr
             Hfake Hcall) in Hget.
  destruct (iterate_shape mr Hs) as (fs & Efs).
  destruct (iterate_length mr Hs Efs) as (Hlen & Hfs).
  pose proof (@iterate_well_formed mr fs K [H; W] Hs Hwf Efs) as Hwfs.
  rewrite Forall_forall in Hfs, Hwfs.
  rewrite Efs in Hget. cbn [bind] in Hget.
  destruct (mapM _trim_filter fs) as [ts|e] eqn:Ets; [|discriminate].
  cbn [bind] in Hget.
  destruct (np_array ts) as [m|e] eqn:Em; [|discriminate].
  cbn [bind lift ret] in Hget. injection Hget as -> <-.
  split; [reflexivity|]. intros k Hk.
  apply mapM_Forall2 in Ets.
  destruct (@nth_error_lt _ fs k) as (fk & Efk); [lia|].
  destruct (Forall2_nth_error_l _ Ets Efk) as (t & Et & Htrim).
  exists fk, t. split; [eapply getitem_nth_error; eassumption|].
  split; [assumption|].
  eapply getitem_nth_error; [|eassumption].
  eapply iterate_np_array; [eassumption|].
  apply (Forall2_Forall_r _ Ets). intros x y Hx Hy.
  destruct (@trim_filter_2d_cases x H W (Hfs x Hx) (Hwfs x Hx))
    as [E | (t' & Et' & Hwt)]; congruence.
Qed.

End ExternalFacts.

(** ** The theorems above on the small world *)

Lemma call_mr_transform_guards_witness :
  call_mr_transform false no_check fixed_unique silent_process
      always_writable same_dtype
    (PyArray x33) (OptStr "-t 2"%string) "./"%string true empty_world
  = (Raised ImportError, empty_world) /\
  call_mr_transform true no_check fixed_unique silent_process
      always_writable same_dtype
    (PyArray y433) (OptStr "-t 2"%string) "./"%string true empty_world
  = (Raised (Builtin ValueError), empty_world).
Proof.
  split.
  - apply (@call_mr_transform_guards false no_check fixed_unique
             silent_process
      always_writable same_dtype (PyArray x33) (OptStr "-t 2"%string) "./"%string
             true empty_world).
    reflexivity.
  - apply (@call_mr_transform_guards true no_check fixed_unique
             silent_process
      always_writable same_dtype (PyArray y433) (OptStr "-t 2"%string) "./"%string
             true empty_world).
    + reflexivity.
    + intros a [= <-]. vm_compute; discriminate.
Defined.


Lemma call_mr_transform_path_with_space_witness :
  exists command,
    spawned (snd (call_mr_transform true no_check fixed_unique silent_process
      always_writable same_dtype
                    (PyArray x33) (OptList []) "my dir/"%string true
                    empty_world))
    = [command] /\
    ~ In "my dir/mr_temp_u.fits"%string command /\
    ~ In "my dir/mr_temp_u.mr"%string command.
Proof.
  apply (@call_mr_transform_path_with_space true no_check fixed_unique
           silent_process
      always_writable same_dtype x33 (OptList []) "my dir/"%string true
           empty_world); reflexivity.
Defined.

Lemma call_mr_transform_write_refused_witness :
  exists w',
    call_mr_transform true no_check fixed_unique silent_process
      (fun _ _ => Some FileNotFoundError) same_dtype
      (PyArray x33) (OptList []) "my dir/"%string true empty_world
    = (Raised FileNotFoundError, w') /\
    spawned w' = [].
Proof.
  destruct (@call_mr_transform_write_refused true no_check fixed_unique
              silent_process (fun _ _ => Some FileNotFoundError) same_dtype
              x33 (OptList []) "my dir/"%string true empty_world)
    as (x & w' & Ecall & _ & Ex & _ & Hs);
    [reflexivity | reflexivity | reflexivity | right; discriminate |].
  exists w'. specialize (Ex eq_refl). injection Ex as <-.
  split; assumption.
Defined.

Lemma call_mr_transform_success_witness :
  exists w',
    call_mr_transform true no_check fixed_unique (writing_process y433)
      always_writable same_dtype
      (PyArray x33) (OptStr "-t 2"%string) "./"%string true empty_world
    = (Returned y433, w') /\
    files w' "./mr_temp_u.fits"%string = None /\
    files w' "./mr_temp_u.mr"%string = None.
Proof.
  destruct (@call_mr_transform_success true no_check fixed_unique
              (writing_process y433)
      always_writable same_dtype x33 y433 (OptStr "-t 2"%string)
              "./"%string true empty_world
              ["mr_transform"; "-t"; "2"; "./mr_temp_u.fits";
               "./mr_temp_u.mr"]%string
              (String.EmptyString, String.EmptyString)
              (write_file "./mr_temp_u.mr"%string (FitsFile y433)
                 (write_file "./mr_temp_u.fits"%string (FitsFile x33)
                    (fun _ => None))))
    as (w' & Ecall & Hfits & Hmr & _);
    try reflexivity.
  - discriminate.
  - exists w'. repeat split; assumption.
Defined.


Lemma call_mr_transform_missing_output_witness :
  exists w',
    call_mr_transform true no_check fixed_unique silent_process
      always_writable same_dtype
      (PyArray x33) (OptStr "-t 2"%string) "./"%string true empty_world
    = (Raised FileNotFoundError, w') /\
    files w' "./mr_temp_u.fits"%string = Some (FitsFile x33).
Proof.
  destruct (@call_mr_transform_missing_output true no_check fixed_unique
              silent_process
      always_writable same_dtype x33 (OptStr "-t 2"%string) "./"%string true
              empty_world
              ["mr_transform"; "-t"; "2"; "./mr_temp_u.fits";
               "./mr_temp_u.mr"]%string
              (String.EmptyString, String.EmptyString)
              (write_file "./mr_temp_u.fits"%string (FitsFile x33)
                 (fun _ => None)))
    as (w' & Ecall & Hfiles);
    try reflexivity.
  exists w'. split; [assumption|]. now rewrite Hfiles.
Defined.

Lemma fake_data_impulse_witness :
  exists a,
    fake_data_of [4; 5]%Z = Ok a /\ shape a = [3; 5] /\
    get2 a 1 2 = 1%Z /\ get2 a 0 0 = 0%Z.
Proof.
  destruct (@fake_data_impulse 4 5) as (a & Ea & _ & Hs & _ & _ & _ & _ & Hget);
    [lia | lia |].
  exists a. split; [assumption|]. split; [exact Hs|].
  split; [apply (Hget 1 2) | apply (Hget 0 0)]; vm_compute; lia.
Defined.

Lemma get_mr_filters_nonpositive_dimension_witness :
  get_mr_filters true no_check fixed_unique silent_process
      always_writable same_dtype [5; 0]%Z
    (OptStr String.EmptyString) false true empty_world
  = (Raised (Builtin ValueError), empty_world).
Proof.
  apply (@get_mr_filters_nonpositive_dimension true no_check fixed_unique
           silent_process
      always_writable same_dtype [5; 0]%Z (OptStr String.EmptyString) false true
           empty_world 0%Z); [right; left; reflexivity | lia].
Defined.

Lemma get_mr_filters_guards_witness :
  get_mr_filters false no_check fixed_unique silent_process
      always_writable same_dtype [5; 5]%Z
    (OptStr String.EmptyString) false true empty_world
  = (Raised ImportError, empty_world) /\
  get_mr_filters true no_check fixed_unique silent_process
      always_writable same_dtype [5; 5; 5]%Z
    (OptStr String.EmptyString) false true empty_world
  = (Raised (Builtin ValueError), empty_world).
Proof.
  split.
  - apply (@get_mr_filters_guards false no_check fixed_unique silent_process
      always_writable same_dtype
             [5; 5]%Z (OptStr String.EmptyString) false true empty_world);
      [repeat constructor | reflexivity].
  - apply (@get_mr_filters_guards true no_check fixed_unique silent_process
      always_writable same_dtype
             [5; 5; 5]%Z (OptStr String.EmptyString) false true empty_world);
      [repeat constructor | reflexivity | discriminate].
Defined.

Lemma get_mr_filters_coarse_witness :
  exists r w',
    get_mr_filters true no_check fixed_unique (writing_process y433)
      always_writable same_dtype [3; 3]%Z
      (OptStr String.EmptyString) false false empty_world
    = (Returned r, w') /\
    shape r = [3; 3; 3] /\ getitem r 0 = getitem y433 0.
Proof.
  destruct (@get_mr_filters_coarse true no_check fixed_unique
              (writing_process y433)
      always_writable same_dtype [3; 3]%Z (OptStr String.EmptyString)
              empty_world
              (snd (call_mr_transform true no_check fixed_unique
                      (writing_process y433)
      always_writable same_dtype
                      (PyArray (mk_ndarray [3; 3] [0; 0; 0; 0; 1; 0; 0; 0; 0]%Z))
                      (OptStr String.EmptyString) "./"%string true empty_world))
              (mk_ndarray [3; 3] [0; 0; 0; 0; 1; 0; 0; 0; 0]%Z)
              y433 4 [3; 3])
    as (_ & r & Er & Hs & Hget); try reflexivity.
  exists r; eexists. split; [exact Er|]. split; [exact Hs|].
  apply Hget. lia.
Defined.

Lemma get_mr_filters_trim_all_zero_witness :
  exists w',
    get_mr_filters true no_check fixed_unique
      (writing_process (mk_ndarray [2; 2; 2] [1; 0; 0; 1;  0; 0; 0; 0]%Z))
      always_writable same_dtype
      [3; 3]%Z (OptStr String.EmptyString) false true empty_world
    = (Raised (Builtin ValueError), w').
Proof.
  exists (snd (call_mr_transform true no_check fixed_unique
                 (writing_process
                    (mk_ndarray [2; 2; 2] [1; 0; 0; 1;  0; 0; 0; 0]%Z))
      always_writable same_dtype
                 (PyArray (mk_ndarray [3; 3] [0; 0; 0; 0; 1; 0; 0; 0; 0]%Z))
                 (OptStr String.EmptyString) "./"%string true empty_world)).
  apply (@get_mr_filters_trim_all_zero true no_check fixed_unique
           (writing_process (mk_ndarray [2; 2; 2] [1; 0; 0; 1;  0; 0; 0; 0]%Z))
      always_writable same_dtype
           [3; 3]%Z (OptStr String.EmptyString) false empty_world _
           (mk_ndarray [3; 3] [0; 0; 0; 0; 1; 0; 0; 0; 0]%Z)
           (mk_ndarray [2; 2; 2] [1; 0; 0; 1;  0; 0; 0; 0]%Z)
           (mk_ndarray [2; 2] [0; 0; 0; 0]%Z) 2 2 2 1); try reflexivity.
  intros [|[|i]] [|[|j]] Hi Hj; reflexivity || lia.
Defined.

Lemma get_mr_filters_trim_each_witness :
  exists w' fk t,
    get_mr_filters true no_check fixed_unique (writing_process padded_filters)
      always_writable same_dtype
      [3; 3]%Z (OptStr String.EmptyString) true true empty_world
    = (Returned (mk_ndarray [2; 1; 1] [5; 7]%Z), w') /\
    getitem padded_filters 1 = Ok fk /\ shape fk = [3; 3] /\
    _trim_filter fk = Ok t /\ t = mk_ndarray [1; 1] [7]%Z /\
    getitem (mk_ndarray [2; 1; 1] [5; 7]%Z) 1 = Ok t.
Proof.
  set (w' := snd (call_mr_transform true no_check fixed_unique
                    (writing_process padded_filters)
                    always_writable same_dtype
                    (PyArray (mk_ndarray [3; 3] [0; 0; 0; 0; 1; 0; 0; 0; 0]%Z))
                    (OptStr String.EmptyString) "./"%string true empty_world)).
  assert (Eget :
    get_mr_filters true no_check fixed_unique (writing_process padded_filters)
      always_writable same_dtype
      [3; 3]%Z (OptStr String.EmptyString) true true empty_world
    = (Returned (mk_ndarray [2; 1; 1] [5; 7]%Z), w')) by reflexivity.
  destruct (@get_mr_filters_trim_each true no_check fixed_unique
              (writing_process padded_filters) always_writable same_dtype
              [3; 3]%Z (OptStr String.EmptyString)
              empty_world w' w'
              (mk_ndarray [3; 3] [0; 0; 0; 0; 1; 0; 0; 0; 0]%Z)
              padded_filters (mk_ndarray [2; 1; 1] [5; 7]%Z) 2 3 3)
    as (_ & Heach); try reflexivity.
  destruct (Heach 1 ltac:(lia)) as (fk & t & Efk & Et & Er).
  exists w', fk, t. split; [exact Eget|]. split; [exact Efk|].
  vm_compute in Er. injection Er as <-.
  vm_compute in Efk. injection Efk as <-.
  repeat split; try reflexivity.
Defined.

(** ** [execute] *)

(** X23. [execute] on what is not a string raises [TypeError]; on a string
    without a word (empty, or white space only) the empty argument vector
    makes [Popen] raise [IndexError]; in both cases nothing is started. On
    any other string exactly one argument vector is handed to [Popen]: the
    words of the string, none empty and none holding white space. The words
    of [' '.join(l)] are the elements of [l] again when none of them is
    empty or holds white space. *)
Theorem execute_command_line
    (process : list String.string -> filesystem ->
               outcome (String.string * String.string) * filesystem)
    (command_line : pyobject) (w : world) :
  ((forall s, command_line <> PyStr s) ->
   execute process command_line w = (Raised (Builtin TypeError), w)) /\
  (forall s, command_line = PyStr s ->
   if forallb is_space (String.list_ascii_of_string s)
   then execute process command_line w = (Raised (Builtin IndexError), w)
   else split s <> [] /\ Forall token (split s) /\
        execute process command_line w
        = (fst (process (split s) (files w)),
           mk_world (snd (process (split s) (files w))) (draws w)
                    (spawned w ++ [split s]))) /\
  (forall l, command_line = PyStr (join l) -> l <> [] -> Forall token l ->
   execute process command_line w
   = (fst (process l (files w)),
      mk_world (snd (process l (files w))) (draws w) (spawned w ++ [l]))).
Proof.
  assert (Hrun : forall c, c <> [] ->
            popen_communicate process c w
            = (fst (process c (files w)),
               mk_world (snd (process c (files w))) (draws w)
                        (spawned w ++ [c]))).
  { intros c Hc. rewrite popen_communicate_cons by assumption.
    destruct (process c (files w)); reflexivity. }
  split; [|split].
  - intros Hns. destruct command_line as [a|s|]; try reflexivity.
    now destruct (Hns s).
  - intros s ->. cbn [execute].
    destruct (forallb is_space (String.list_ascii_of_string s)) eqn:Hblank.
    + apply split_nil in Hblank. now rewrite Hblank.
    + assert (Hne : split s <> []).
      { intros E. apply split_nil in E. congruence. }
      split; [assumption|]. split; [apply split_tokens|]. now apply Hrun.
  - intros l -> Hne Htok. cbn [execute].
    rewrite split_join_flat_map, (flat_map_split_tokens Htok).
    now apply Hrun.
Qed.

Lemma execute_command_line_witness :
  execute silent_process (PyArray x33) empty_world
  = (Raised (Builtin TypeError), empty_world) /\
  execute silent_process (PyStr "  "%string) empty_world
  = (Raised (Builtin IndexError), empty_world) /\
  spawned (snd (execute silent_process (PyStr " ls  -l "%string) empty_world))
  = [["ls"; "-l"]%string] /\
  spawned (snd (execute silent_process
                  (PyStr (join ["mr_transform"; "-t"; "2"]%string))
                  empty_world))
  = [["mr_transform"; "-t"; "2"]%string].
Proof.
  split; [|split; [|split]].
  - apply (@execute_command_line silent_process (PyArray x33) empty_world).
    intros s; discriminate.
  - destruct (@execute_command_line silent_process
                (PyStr "  "%string) empty_world) as (_ & Hs & _).
    exact (Hs "  "%string eq_refl).
  - destruct (@execute_command_line silent_process
                (PyStr " ls  -l "%string) empty_world) as (_ & Hs & _).
    destruct (Hs " ls  -l "%string eq_refl) as (_ & _ & ->). reflexivity.
  - destruct (@execute_command_line silent_process
                (PyStr (join ["mr_transform"; "-t"; "2"]%string))
                empty_world) as (_ & _ & Hl).
    rewrite (Hl ["mr_transform"; "-t"; "2"]%string eq_refl);
      [reflexivity | discriminate |].
    repeat constructor; discriminate.
Defined.

(** ** Mode B is the adjoint of Mode A *)

Section Adjoint.
Local Open Scope Z_scope.

Lemma zsum_map_mul_l (A : Type) (c : Z) (f : A -> Z) (l : list A) :
  zsum (map (fun x => c * f x) l) = c * zsum (map f l).
Proof. induction l as [|x l IH]; simpl; [lia | rewrite IH; lia]. Qed.

Lemma zsum_map_mul_r (A : Type) (c : Z) (f : A -> Z) (l : list A) :
  zsum (map (fun x => f x * c) l) = zsum (map f l) * c.
Proof. induction l as [|x l IH]; simpl; [lia | rewrite IH; lia]. Qed.

Lemma zsum_list_prod (A B : Type) (f : A -> B -> Z) (l1 : list A)
    (l2 : list B) :
  zsum (map (fun i => zsum (map (fun j => f i j) l2)) l1)
  = zsum (map (fun p => f (fst p) (snd p)) (list_prod l1 l2)).
Proof.
  induction l1 as [|x l1 IH]; simpl; [reflexivity|].
  rewrite map_app, zsum_app, map_map, IH. reflexivity.
Qed.

Lemma combine_map_map (A B C : Type) (f : A -> B) (g : A -> C) (l : list A) :
  combine (map f l) (map g l) = map (fun x => (f x, g x)) l.
Proof. induction l as [|x l IH]; simpl; [reflexivity | now rewrite IH]. Qed.

Lemma combine_app_same (A B : Type) (a a' : list A) (b b' : list B) :
  length a = length b ->
  combine (a ++ a') (b ++ b') = combine a b ++ combine a' b'.
Proof.
  revert b; induction a as [|x a IH]; intros [|y b] E; simpl in *;
    try discriminate; [reflexivity|].
  rewrite IH by congruence. reflexivity.
Qed.

Lemma combine_flat_map (A B C : Type) (r1 : A -> list B) (r2 : A -> list C)
    (l : list A) :
  (forall x, In x l -> length (r1 x) = length (r2 x)) ->
  combine (flat_map r1 l) (flat_map r2 l)
  = flat_map (fun x => combine (r1 x) (r2 x)) l.
Proof.
  induction l as [|x l IH]; intros Hlen; simpl; [reflexivity|].
  rewrite combine_app_same by (apply Hlen; now left).
  rewrite IH by (intros; apply Hlen; now right). reflexivity.
Qed.

Lemma dot_tabulate2 (H W : nat) (f g : nat -> nat -> Z) :
  dot (tabulate2 H W f) (tabulate2 H W g)
  = zsum (map (fun p => f (fst p) (snd p) * g (fst p) (snd p))
              (list_prod (seq 0 H) (seq 0 W))).
Proof.
  unfold dot, tabulate2; cbn [flat].
  rewrite combine_flat_map
    by (intros; now rewrite !length_map).
  rewrite <- (zsum_list_prod (fun i j => f i j * g i j)).
  rewrite (@flat_map_ext_In _ _
             (fun i => combine (map (fun j => f i j) (seq 0 W))
                               (map (fun j => g i j) (seq 0 W)))
             (fun i => map (fun j => (f i j, g i j)) (seq 0 W)))
    by (intros; apply combine_map_map).
  rewrite flat_map_concat_map, concat_map, map_map.
  rewrite <- flat_map_concat_map, zsum_flat_map.
  apply zsum_map_ext; intros i _. now rewrite map_map.
Qed.

Lemma dot_2d (a b : ndarray) (H W : nat) :
  shape a = [H; W] -> well_formed a -> shape b = [H; W] -> well_formed b ->
  dot a b
  = zsum (map (fun p => get2 a (fst p) (snd p) * get2 b (fst p) (snd p))
              (list_prod (seq 0 H) (seq 0 W))).
Proof.
  intros Ha Hwa Hb Hwb.
  rewrite <- (@tabulate2_get2 a H W Ha Hwa) at 1.
  rewrite <- (@tabulate2_get2 b H W Hb Hwb) at 1.
  apply dot_tabulate2.
Qed.

Lemma full_convolution_pairs (data kernel : ndarray) (H W Fh Fw u v : nat) :
  full_convolution_entry data kernel H W Fh Fw u v
  = zsum (map (fun q =>
       if (fst q <=? u)%nat && (u - fst q <? Fh)%nat
          && (snd q <=? v)%nat && (v - snd q <? Fw)%nat
       then get2 data (fst q) (snd q)
            * get2 kernel (u - fst q) (v - snd q)
       else 0) (list_prod (seq 0 H) (seq 0 W))).
Proof.
  unfold full_convolution_entry. rewrite zsum_flat_map.
  apply (zsum_list_prod
           (fun a b =>
              if (a <=? u)%nat && (u - a <? Fh)%nat
                 && (b <=? v)%nat && (v - b <? Fw)%nat
              then get2 data a b * get2 kernel (u - a) (v - b) else 0)).
Qed.

Lemma odd_half (n : nat) : (n mod 2 = 1)%nat -> (n = 2 * ((n - 1) / 2) + 1)%nat.
Proof.
  intros Hodd. pose proof (Nat.div_mod_eq n 2) as E. rewrite Hodd in E.
  replace (n - 1)%nat with ((n / 2) * 2)%nat by lia.
  rewrite Nat.div_mul by lia. lia.
Qed.

(** One term of the two inner products: the same product, read from the
    filter on one side and from the rotated filter on the other. *)
Lemma adjoint_term (f : ndarray) (Fh Fw i j a b : nat) (X C : Z) :
  (Fh mod 2 = 1)%nat -> (Fw mod 2 = 1)%nat ->
  (if (a <=? i + (Fh - 1) / 2)%nat && (i + (Fh - 1) / 2 - a <? Fh)%nat
      && (b <=? j + (Fw - 1) / 2)%nat && (j + (Fw - 1) / 2 - b <? Fw)%nat
   then X * get2 f (i + (Fh - 1) / 2 - a) (j + (Fw - 1) / 2 - b)
   else 0) * C
  = X * (if (i <=? a + (Fh - 1) / 2)%nat && (a + (Fh - 1) / 2 - i <? Fh)%nat
            && (j <=? b + (Fw - 1) / 2)%nat && (b + (Fw - 1) / 2 - j <? Fw)%nat
         then C * get2 (tabulate2 Fh Fw
                          (fun p q => get2 f (Fh - 1 - p) (Fw - 1 - q)))
                       (a + (Fh - 1) / 2 - i) (b + (Fw - 1) / 2 - j)
         else 0).
Proof.
  intros Hh Hw. apply odd_half in Hh, Hw.
  set (ch := ((Fh - 1) / 2)%nat) in *. set (cw := ((Fw - 1) / 2)%nat) in *.
  destruct (Nat.leb_spec a (i + ch)), (Nat.ltb_spec (i + ch - a) Fh),
    (Nat.leb_spec b (j + cw)), (Nat.ltb_spec (j + cw - b) Fw),
    (Nat.leb_spec i (a + ch)), (Nat.ltb_spec (a + ch - i) Fh),
    (Nat.leb_spec j (b + cw)), (Nat.ltb_spec (b + cw - j) Fw);
    cbn [andb]; try lia.
  rewrite get2_tabulate2 by assumption.
  replace (Fh - 1 - (a + ch - i))%nat with (i + ch - a)%nat by lia.
  replace (Fw - 1 - (b + cw - j))%nat with (j + cw - b)%nat by lia.
  lia.
Qed.

(** A single convolution and the convolution with the rotated filter are
    adjoint, for a filter with odd dimensions. *)
Lemma conv_adjoint (x c f : ndarray) (H W Fh Fw : nat) :
  (Fh mod 2 = 1)%nat -> (Fw mod 2 = 1)%nat ->
  zsum (map (fun p => conv_entry x f H W Fh Fw (fst p) (snd p)
                      * get2 c (fst p) (snd p))
            (list_prod (seq 0 H) (seq 0 W)))
  = zsum (map (fun p =>
       get2 x (fst p) (snd p)
       * conv_entry c
           (tabulate2 Fh Fw (fun i j => get2 f (Fh - 1 - i) (Fw - 1 - j)))
           H W Fh Fw (fst p) (snd p))
            (list_prod (seq 0 H) (seq 0 W))).
Proof.
  intros Hh Hw.
  set (P := list_prod (seq 0 H) (seq 0 W)).
  set (rf := tabulate2 Fh Fw (fun i j => get2 f (Fh - 1 - i) (Fw - 1 - j))).
  rewrite (@zsum_map_ext _ _
    (fun p => zsum (map (fun q =>
       (if (fst q <=? fst p + (Fh - 1) / 2)%nat
           && (fst p + (Fh - 1) / 2 - fst q <? Fh)%nat
           && (snd q <=? snd p + (Fw - 1) / 2)%nat
           && (snd p + (Fw - 1) / 2 - snd q <? Fw)%nat
        then get2 x (fst q) (snd q)
             * get2 f (fst p + (Fh - 1) / 2 - fst q)
                      (snd p + (Fw - 1) / 2 - snd q)
        else 0) * get2 c (fst p) (snd p)) P)) P).
  2:{ intros p _. rewrite conv_entry_crops_full, full_convolution_pairs.
      fold P. now rewrite <- zsum_map_mul_r. }
  rewrite (@zsum_map_ext _
    (fun p => get2 x (fst p) (snd p)
              * conv_entry c rf H W Fh Fw (fst p) (snd p))
    (fun q => zsum (map (fun p =>
       get2 x (fst q) (snd q)
       * (if (fst p <=? fst q + (Fh - 1) / 2)%nat
             && (fst q + (Fh - 1) / 2 - fst p <? Fh)%nat
             && (snd p <=? snd q + (Fw - 1) / 2)%nat
             && (snd q + (Fw - 1) / 2 - snd p <? Fw)%nat
          then get2 c (fst p) (snd p)
               * get2 rf (fst q + (Fh - 1) / 2 - fst p)
                         (snd q + (Fw - 1) / 2 - snd p)
          else 0)) P)) P).
  2:{ intros q _. rewrite conv_entry_crops_full, full_convolution_pairs.
      fold P. now rewrite <- zsum_map_mul_l. }
  rewrite (zsum_swap
    (fun q p =>
       get2 x (fst q) (snd q)
       * (if (fst p <=? fst q + (Fh - 1) / 2)%nat
             && (fst q + (Fh - 1) / 2 - fst p <? Fh)%nat
             && (snd p <=? snd q + (Fw - 1) / 2)%nat
             && (snd q + (Fw - 1) / 2 - snd p <? Fw)%nat
          then get2 c (fst p) (snd p)
               * get2 rf (fst q + (Fh - 1) / 2 - fst p)
                         (snd q + (Fw - 1) / 2 - snd p)
          else 0)) P P).
  apply zsum_map_ext; intros p _. apply zsum_map_ext; intros q _.
  apply adjoint_term; assumption.
Qed.

Lemma concat_chunks (s K : nat) (l : list Z) :
  length l = (K * s)%nat -> flat_map (fun k => chunk s k l) (seq 0 K) = l.
Proof.
  revert l; induction K as [|K IH]; intros l Hlen.
  - destruct l; [reflexivity | discriminate].
  - rewrite seq_S, flat_map_app; cbn [flat_map plus].
    rewrite app_nil_r.
    rewrite (@flat_map_ext_In _ _ (fun k => chunk s k l)
               (fun k => chunk s k (firstn (K * s) l)) (seq 0 K)).
    2:{ intros k Hk; apply in_seq in Hk.
        symmetry; apply chunk_firstn; lia. }
    rewrite IH by (rewrite length_firstn; lia).
    unfold chunk. rewrite (firstn_all2 (n := s)) by (rewrite length_skipn; lia).
    apply firstn_skipn.
Qed.

Lemma dot_flat_map (A : Type) (r1 r2 : A -> list Z) (l : list A) :
  (forall x, In x l -> length (r1 x) = length (r2 x)) ->
  zsum (map (fun p => fst p * snd p)
            (combine (flat_map r1 l) (flat_map r2 l)))
  = zsum (map (fun x => zsum (map (fun p => fst p * snd p)
                                  (combine (r1 x) (r2 x)))) l).
Proof.
  intros Hlen. rewrite combine_flat_map by assumption.
  rewrite flat_map_concat_map, concat_map, map_map.
  rewrite <- flat_map_concat_map. apply zsum_flat_map.
Qed.

Lemma Forall2_total_map (A B : Type) (f : A -> result B) (g : A -> B)
    (l : list A) (l' : list B) :
  Forall2 (fun a b => f a = Ok b) l l' ->
  (forall a, In a l -> f a = Ok (g a)) -> l' = map g l.
Proof.
  induction 1 as [|a b l l' Hab F IH]; intros Hg; [reflexivity|].
  cbn [map]. f_equal.
  - rewrite (Hg a) in Hab by (now left). congruence.
  - apply IH; intros; apply Hg; now right.
Qed.

(** Mode A, written out: slice [k] is the convolution with filter [k]. *)
Lemma mode_A_concrete (x filters : ndarray) (m : method) (K H W Fh Fw : nat) :
  shape x = [H; W] -> shape filters = [K; Fh; Fw] ->
  filter_convolve x filters false m
  = np_array (map (fun k =>
       tabulate2 H W
         (conv_entry x (subarray [Fh; Fw] (flat filters) k) H W Fh Fw))
       (seq 0 K)).
Proof.
  intros Hx Hf. unfold filter_convolve, iterate. rewrite Hf. cbn [bind].
  rewrite (@mapM_total _ _ (fun f => convolve x f m)
             (fun f => tabulate2 H W (conv_entry x f H W Fh Fw))).
  - cbn [bind]. now rewrite map_map.
  - intros f Hin. apply in_map_iff in Hin. destruct Hin as (k & <- & _).
    now apply convolve_2d.
Qed.

(** Mode B, written out: the sum over [k] of the convolutions of
    coefficient map [k] with the rotated filter [k]. *)
Lemma mode_B_concrete (c filters : ndarray) (m : method) (K H W Fh Fw : nat) :
  shape c = [K; H; W] -> shape filters = [K; Fh; Fw] ->
  filter_convolve c filters true m
  = np_sum_axis0 (map (fun k =>
       tabulate2 H W
         (conv_entry (subarray [H; W] (flat c) k)
            (tabulate2 Fh Fw
               (fun i j => get2 (subarray [Fh; Fw] (flat filters) k)
                                (Fh - 1 - i) (Fw - 1 - j)))
            H W Fh Fw))
       (seq 0 K)).
Proof.
  intros Hc Hf.
  destruct (mode_B_run c filters m Hc Hf)
    as (cs & rs & rot & convs & Ecs & _ & Erot & Eit & _ & Hconv & _ & _ & _
        & ->).
  destruct (rotate_stack_run filters Hf)
    as (fs & rs' & rot' & Efs & _ & Hfs & Hrot & Hrs & Erot' & Eit').
  assert (rot' = rot) by congruence; subst rot'.
  assert (rs' = rs) by congruence; subst rs'.
  unfold iterate in Ecs, Efs. rewrite Hc in Ecs. rewrite Hf in Efs.
  injection Ecs as <-. injection Efs as <-.
  rewrite (@Forall2_total_map _ _ rotate
             (fun f => tabulate2 Fh Fw
                         (fun i j => get2 f (Fh - 1 - i) (Fw - 1 - j)))
             _ _ Hrot) in Hconv, Hrs.
  2,3:(intros f Hin; apply in_map_iff in Hin; destruct Hin as (k & <- & _);
       now apply rotate_2d).
  rewrite map_map, combine_map_map in Hconv.
  rewrite (@Forall2_total_map _ _
             (fun cf : ndarray * ndarray => convolve (fst cf) (snd cf) m)
             (fun cf => tabulate2 H W
                          (conv_entry (fst cf) (snd cf) H W Fh Fw))
             _ _ Hconv).
  - now rewrite map_map.
  - intros cf Hin. apply in_map_iff in Hin. destruct Hin as (k & <- & _).
    now apply convolve_2d.
Qed.

(** X24. Mode B is the adjoint of Mode A for filters with odd dimensions:
    for an (H, W) image [x], a (K, H, W) coefficient stack [c] and a bank
    of K filters of odd height and width, both calls return, and the inner
    product of [filter_convolve(x, filters)] with [c] equals the inner
    product of [x] with [filter_convolve(c, filters, filter_rot=True)]. *)
Theorem mode_B_adjoint_of_mode_A (x c filters : ndarray) (m : method)
    (K H W Fh Fw : nat) :
  shape x = [H; W] -> well_formed x ->
  shape c = [K; H; W] -> well_formed c ->
  shape filters = [K; Fh; Fw] ->
  (Fh mod 2 = 1)%nat -> (Fw mod 2 = 1)%nat ->
  exists y z,
    filter_convolve x filters false m = Ok y /\
    filter_convolve c filters true m = Ok z /\
    dot y c = dot x z.
Proof.
  intros Hx Hwx Hc Hwc Hf Hh Hw.
  rewrite (@mode_A_concrete x filters m K H W Fh Fw Hx Hf),
    (@mode_B_concrete c filters m K H W Fh Fw Hc Hf).
  set (fk := fun k => subarray [Fh; Fw] (flat filters) k).
  set (ck := fun k => subarray [H; W] (flat c) k).
  set (rk := fun k => tabulate2 Fh Fw
                        (fun i j => get2 (fk k) (Fh - 1 - i) (Fw - 1 - j))).
  set (yk := fun k => tabulate2 H W (conv_entry x (fk k) H W Fh Fw)).
  set (zk := fun k => tabulate2 H W (conv_entry (ck k) (rk k) H W Fh Fw)).
  change (exists y z,
    np_array (map yk (seq 0 K)) = Ok y /\
    np_sum_axis0 (map zk (seq 0 K)) = Ok z /\ dot y c = dot x z).
  destruct K as [|K'].
  - exists (mk_ndarray [0%nat] []), (scalar 0).
    split; [reflexivity | split; [reflexivity|]].
    unfold dot; cbn [flat scalar combine map zsum fold_right].
    destruct (flat x) as [|a [|b l]]; cbn; lia.
  - set (K := S K') in *.
    assert (Hywf : Forall well_formed (map yk (seq 0 K))).
    { apply Forall_forall; intros a Ha; apply in_map_iff in Ha.
      destruct Ha as (k & <- & _); apply tabulate2_well_formed. }
    assert (Hysh : Forall (fun a => shape a = [H; W]) (map yk (seq 0 K))).
    { apply Forall_forall; intros a Ha; apply in_map_iff in Ha.
      destruct Ha as (k & <- & _); reflexivity. }
    assert (Hzwf : Forall well_formed (map zk (seq 0 K))).
    { apply Forall_forall; intros a Ha; apply in_map_iff in Ha.
      destruct Ha as (k & <- & _); apply tabulate2_well_formed. }
    assert (Hzsh : Forall (fun a => shape a = [H; W]) (map zk (seq 0 K))).
    { apply Forall_forall; intros a Ha; apply in_map_iff in Ha.
      destruct Ha as (k & <- & _); reflexivity. }
    assert (Hne : map yk (seq 0 K) <> []) by (unfold K; discriminate).
    rewrite (np_array_same_shape Hne Hysh).
    destruct (np_sum_axis0_spec Hzwf Hzsh) as (z & Ez & Hwz & Hz).
    assert (Hz' : shape z = [H; W] /\
                  forall i j, get2 z i j
                              = zsum (map (fun k => get2 (zk k) i j) (seq 0 K))).
    { unfold K in Hz; cbn [seq map] in Hz. destruct Hz as (Hs & _ & Hg).
      split; [exact Hs|]. intros i j. rewrite Hg. unfold K; cbn [seq map].
      now rewrite map_map. }
    clear Hz; destruct Hz' as (Hsz & Hgz).
    eexists; exists z; split; [reflexivity | split; [exact Ez|]].
    assert (Hck : forall k, (k < K)%nat -> well_formed (ck k)).
    { intros k Hk. apply (subarray_well_formed (a := c) (K := K)); assumption. }
    (* the left inner product, filter by filter *)
    unfold dot at 1; cbn [flat].
    rewrite map_map, <- flat_map_concat_map.
    assert (Hlc : length (flat c) = (K * size_of [H; W])%nat).
    { unfold well_formed in Hwc. rewrite Hwc, Hc. reflexivity. }
    rewrite <- (concat_chunks (size_of [H; W]) K (flat c) Hlc) at 1.
    rewrite dot_flat_map.
    2:{ intros k Hk; apply in_seq in Hk.
        rewrite (tabulate2_well_formed H W _ : length (flat (yk k)) = _).
        cbn [shape tabulate2]. symmetry; apply length_chunk. nia. }
    rewrite (@zsum_map_ext _ _
      (fun k => zsum (map (fun p =>
         get2 x (fst p) (snd p)
         * conv_entry (ck k) (rk k) H W Fh Fw (fst p) (snd p))
         (list_prod (seq 0 H) (seq 0 W)))) (seq 0 K)).
    2:{ intros k Hk; apply in_seq in Hk.
        change (dot (yk k) (ck k) = zsum (map (fun p =>
           get2 x (fst p) (snd p)
           * conv_entry (ck k) (rk k) H W Fh Fw (fst p) (snd p))
           (list_prod (seq 0 H) (seq 0 W)))).
        rewrite <- (@tabulate2_get2 (ck k) H W eq_refl (Hck k ltac:(lia))) at 1.
        unfold yk at 1. rewrite dot_tabulate2.
        apply conv_adjoint; assumption. }
    (* the right inner product, entry by entry *)
    rewrite (dot_2d Hx Hwx Hsz Hwz).
    rewrite (zsum_swap
      (fun k p => get2 x (fst p) (snd p)
                  * conv_entry (ck k) (rk k) H W Fh Fw (fst p) (snd p))).
    apply zsum_map_ext; intros [i j] Hp. apply in_prod_iff in Hp.
    destruct Hp as (Hp1 & Hp2); apply in_seq in Hp1, Hp2.
    cbn [fst snd]. rewrite zsum_map_mul_l. f_equal. rewrite Hgz.
    apply zsum_map_ext; intros k _. unfold zk.
    rewrite get2_tabulate2 by lia. reflexivity.
Qed.

Lemma mode_B_adjoint_of_mode_A_witness :
  exists y z,
    filter_convolve x33 y433 false scipy = Ok y /\
    filter_convolve y433 y433 true scipy = Ok z /\
    dot y y433 = dot x33 z.
Proof.
  apply (@mode_B_adjoint_of_mode_A x33 y433 y433 scipy 4 3 3 3 3);
    reflexivity.
Defined.

End Adjoint.
